(** * DiscordDB: a document store on top of Discord channels and messages

    Shallow embedding of [src/core/DiscordClient.ts] (the gateway) and
    [src/core/DiscordRepository.ts] (the repository), together with the
    parts of the host platform they rely on: JSON values, object spread,
    the [JSON.stringify] / [JSON.parse] pair, and the discord.js channel and
    message primitives.

    Conventions of the model
    - A JavaScript string is a sequence of 16-bit code units; it is kept as
      a Rocq [string] holding its WTF-8 bytes (UTF-8, with a surrogate that
      has no partner as three bytes), and [code_units] gives the code units
      back.
    - A JavaScript number is an IEEE 754 binary64 value, a [spec_float] of
      the Standard Library.
    - An object is its list of own enumerable properties in the order
      [OrdinaryOwnPropertyKeys] yields them: array-index keys in ascending
      numeric order first, then the other keys in creation order.
    - [JSON.parse] and [JSON.stringify] are built into the engine the code
      runs on: the repository is modelled over any pair of them (the class
      [JSON]), and [Ecma_JSON] is a reference pair that follows ECMA-262.
    - An [async] method is a function from the state of the platform to a
      settled promise (fulfilled or rejected), the next state, and the trace
      of discord.js calls it performed. *)

From Stdlib Require Import String Ascii List ZArith NArith Bool Lia.
From Stdlib Require Import Decimal DecimalFacts DecimalPos DecimalN.
From Stdlib Require Import Floats.SpecFloat.
Import ListNotations.
Local Open Scope string_scope.

(** ** JSON values *)

(** A JavaScript number: an IEEE 754 binary64 value. *)
Definition number : Type := spec_float.

Unset Elimination Schemes.
Inductive json : Type :=
| JNull
| JBool (b : bool)
| JNum (n : number)
| JStr (s : string)
| JArr (l : list json)
| JObj (o : list (string * json)).
Set Elimination Schemes.
Arguments JNum n%_Z.

(** An object as the engine keeps it: own properties in key order. *)
Definition object := list (string * json).

(** Induction through the lists nested in arrays and objects. *)
Section JsonInd.
Variable P : json -> Prop.
Hypothesis HNull : P JNull.
Hypothesis HBool : forall b, P (JBool b).
Hypothesis HNum : forall n, P (JNum n).
Hypothesis HStr : forall s, P (JStr s).
Hypothesis HArr : forall l, Forall P l -> P (JArr l).
Hypothesis HObj : forall o, Forall (fun kv => P (snd kv)) o -> P (JObj o).

Fixpoint json_ind (v : json) : P v :=
  match v with
  | JNull => HNull
  | JBool b => HBool b
  | JNum n => HNum n
  | JStr s => HStr s
  | JArr l =>
      HArr l ((fix go (l : list json) : Forall P l :=
                 match l with
                 | [] => Forall_nil _
                 | x :: l' => Forall_cons _ (json_ind x) (go l')
                 end) l)
  | JObj o =>
      HObj o ((fix go (o : list (string * json))
                 : Forall (fun kv => P (snd kv)) o :=
                 match o with
                 | [] => Forall_nil _
                 | kv :: o' => Forall_cons _ (json_ind (snd kv)) (go o')
                 end) o)
  end.
End JsonInd.

(** ** Decimal numerals *)

Fixpoint string_of_uint (d : uint) : string :=
  match d with
  | Nil => ""
  | D0 d => String "0" (string_of_uint d)
  | D1 d => String "1" (string_of_uint d)
  | D2 d => String "2" (string_of_uint d)
  | D3 d => String "3" (string_of_uint d)
  | D4 d => String "4" (string_of_uint d)
  | D5 d => String "5" (string_of_uint d)
  | D6 d => String "6" (string_of_uint d)
  | D7 d => String "7" (string_of_uint d)
  | D8 d => String "8" (string_of_uint d)
  | D9 d => String "9" (string_of_uint d)
  end.

Definition digit_of_char (c : ascii) : option (uint -> uint) :=
  if (c =? "0")%char then Some D0 else
  if (c =? "1")%char then Some D1 else
  if (c =? "2")%char then Some D2 else
  if (c =? "3")%char then Some D3 else
  if (c =? "4")%char then Some D4 else
  if (c =? "5")%char then Some D5 else
  if (c =? "6")%char then Some D6 else
  if (c =? "7")%char then Some D7 else
  if (c =? "8")%char then Some D8 else
  if (c =? "9")%char then Some D9 else None.

Definition is_digit (c : ascii) : bool :=
  match digit_of_char c with Some _ => true | None => false end.

(** The longest prefix of decimal digits, and what follows it. *)
Fixpoint read_digits (s : string) : uint * string :=
  match s with
  | EmptyString => (Nil, EmptyString)
  | String c r =>
      match digit_of_char c with
      | Some D => let (d, rest) := read_digits r in (D d, rest)
      | None => (Nil, s)
      end
  end.

(** The decimal numeral of a non-negative integer, without leading zeros:
    an array index as a property key, a snowflake as an id. *)
Definition string_of_N (n : N) : string := string_of_uint (N.to_uint n).

(** ** Numbers *)

Definition number_eqb (x y : number) : bool :=
  match x, y with
  | S754_zero s, S754_zero s' => Bool.eqb s s'
  | S754_infinity s, S754_infinity s' => Bool.eqb s s'
  | S754_nan, S754_nan => true
  | S754_finite s m e, S754_finite s' m' e' =>
      Bool.eqb s s' && (m =? m')%positive && (e =? e')%Z
  | _, _ => false
  end.

(** The number of decimal digits of an integer. *)
Definition decimal_length (n : N) : Z := Z.of_nat (nb_digits (N.to_uint n)).

(** The Number value for [m * 10 ^ e10]: the binary64 value nearest to it,
    a tie going to the even significand; beyond the range, an infinity or
    a zero. The quotient by a power of ten is taken with 64 bits or more,
    and what is left of the division is handed to the rounding as the
    location of the exact value. *)
Definition number_of_decimal (neg : bool) (m : N) (e10 : Z) : number :=
  match m with
  | N0 => S754_zero neg
  | Npos p =>
      let magnitude := (decimal_length m + e10)%Z in
      if (310 <? magnitude)%Z then S754_infinity neg
      else if (magnitude <? -330)%Z then S754_zero neg
      else if (0 <=? e10)%Z then
        match (Zpos p * 10 ^ e10)%Z with
        | Zpos q => binary_round 53 1024 neg q 0
        | _ => S754_nan
        end
      else
        let den := (10 ^ (- e10))%Z in
        let shift := Z.max 0 (64 + Z.log2 den - Z.log2 (Zpos p)) in
        let scaled := (Zpos p * 2 ^ shift)%Z in
        let q := (scaled / den)%Z in
        let r := (scaled mod den)%Z in
        let loc :=
          if (r =? 0)%Z then loc_Exact
          else loc_Inexact (2 * r ?= den)%Z in
        binary_round_aux 53 1024 neg q (- shift) loc
  end.

(** The number written [m] with the exponent [e10], [15] with [-1] for
    1.5; and the integer [z] as a number. *)
Definition decimal (m e10 : Z) : number :=
  number_of_decimal (m <? 0)%Z (Z.abs_N m) e10.

Definition num (z : Z) : number := decimal z 0.
Coercion num : Z >-> number.

(** [m * 2 ^ e] as the fraction of two integers. *)
Definition fraction (m : positive) (e : Z) : Z * Z :=
  if (0 <=? e)%Z then (Zpos m * 2 ^ e, 1)%Z else (Zpos m, 2 ^ (- e))%Z.

(** The [n] with [10 ^ (n - 1) <= a / b < 10 ^ n]. *)
Fixpoint below_one (fuel : nat) (a b : Z) (n : Z) : Z :=
  match fuel with
  | O => n
  | S fuel' => if (b <=? a)%Z then n else below_one fuel' (a * 10) b (n - 1)
  end.

Definition decade (a b : Z) : Z :=
  if (b <=? a)%Z then decimal_length (Z.to_N (a / b))
  else below_one 400 (a * 10) b 0.

Definition strip_zeros (d : uint) : uint :=
  Decimal.rev (unorm (Decimal.rev d)).

(** The digits of [Number::toString] for the number [x = a / b] in the
    decade [n]: with [k] digits, the two decimals next to [x]; the first
    [k] for which one of them reads back as [x] is taken, and of two that
    do, the nearer to [x] (the even one when they are as near). The result
    is the digits without trailing zeros, and the [n] of the standard. *)
Fixpoint shortest (fuel : nat) (k : Z) (x : number) (a b n : Z)
  : uint * Z :=
  let p := (k - n)%Z in
  let sa := if (0 <=? p)%Z then (a * 10 ^ p)%Z else a in
  let sb := if (0 <=? p)%Z then b else (b * 10 ^ (- p))%Z in
  let lo := (sa / sb)%Z in
  let r := (sa mod sb)%Z in
  let hi := (lo + 1)%Z in
  let reads c := number_eqb (number_of_decimal false (Z.to_N c) (n - k)) x in
  let result c :=
    let d := N.to_uint (Z.to_N c) in
    (strip_zeros d, (n - k + Z.of_nat (nb_digits d))%Z) in
  match fuel with
  | O => result lo
  | S fuel' =>
      match reads lo, reads hi with
      | true, true =>
          match (2 * r ?= sb)%Z with
          | Lt => result lo
          | Gt => result hi
          | Eq => if Z.even lo then result lo else result hi
          end
      | true, false => result lo
      | false, true => result hi
      | false, false => shortest fuel' (k + 1) x a b n
      end
  end.

Definition zeros (n : Z) : string :=
  string_of_uint (Nat.iter (Z.to_nat n) D0 Nil).

Fixpoint take (n : nat) (s : string) : string :=
  match n, s with
  | S n', String c r => String c (take n' r)
  | _, _ => ""
  end.

Fixpoint drop (n : nat) (s : string) : string :=
  match n, s with
  | S n', String c r => drop n' r
  | _, _ => s
  end.

(** [Number::toString] on a positive finite number: plain digits up to
    21 of them before the point and 6 zeros after it, the exponent form
    beyond. *)
Definition string_of_positive_number (m : positive) (e : Z) : string :=
  let (a, b) := fraction m e in
  let (d, n) := shortest 17 1 (S754_finite false m e) a b (decade a b) in
  let digits := string_of_uint d in
  let k := Z.of_nat (String.length digits) in
  if (k <=? n)%Z && (n <=? 21)%Z then digits ++ zeros (n - k)
  else if (0 <? n)%Z && (n <=? 21)%Z then
    take (Z.to_nat n) digits ++ "." ++ drop (Z.to_nat n) digits
  else if (-6 <? n)%Z && (n <=? 0)%Z then "0." ++ zeros (- n) ++ digits
  else
    let exponent :=
      if (0 <=? n - 1)%Z then "e+" ++ string_of_N (Z.to_N (n - 1))
      else "e-" ++ string_of_N (Z.to_N (1 - n)) in
    if (k =? 1)%Z then digits ++ exponent
    else take 1 digits ++ "." ++ drop 1 digits ++ exponent.

(** [Number::toString]. *)
Definition string_of_number (x : number) : string :=
  match x with
  | S754_nan => "NaN"
  | S754_infinity false => "Infinity"
  | S754_infinity true => "-Infinity"
  | S754_zero _ => "0"
  | S754_finite false m e => string_of_positive_number m e
  | S754_finite true m e => String "-" (string_of_positive_number m e)
  end.

Definition is_finite (x : number) : bool :=
  match x with
  | S754_zero _ | S754_finite _ _ _ => true
  | S754_infinity _ | S754_nan => false
  end.

(** ** Strings *)

(** The WTF-8 bytes of a code point, or of a code unit on its own (a
    surrogate takes three bytes). *)
Definition utf8 (cp : N) : string :=
  if (cp <? 128)%N then String (ascii_of_N cp) ""
  else if (cp <? 2048)%N then
    String (ascii_of_N (192 + cp / 64))
      (String (ascii_of_N (128 + cp mod 64)) "")
  else if (cp <? 65536)%N then
    String (ascii_of_N (224 + cp / 4096))
      (String (ascii_of_N (128 + (cp / 64) mod 64))
         (String (ascii_of_N (128 + cp mod 64)) ""))
  else
    String (ascii_of_N (240 + cp / 262144))
      (String (ascii_of_N (128 + (cp / 4096) mod 64))
         (String (ascii_of_N (128 + (cp / 64) mod 64))
            (String (ascii_of_N (128 + cp mod 64)) ""))).

Definition is_high_surrogate (n : N) : bool :=
  (55296 <=? n)%N && (n <? 56320)%N.
Definition is_low_surrogate (n : N) : bool :=
  (56320 <=? n)%N && (n <? 57344)%N.

(** The code point of a surrogate pair. *)
Definition pair_point (hi lo : N) : N :=
  (65536 + (hi - 55296) * 1024 + (lo - 56320))%N.

(** The code units of a code point: itself, or its surrogate pair. *)
Definition units_of_point (cp : N) : list N :=
  if (cp <? 65536)%N then [cp]
  else [55296 + (cp - 65536) / 1024; 56320 + (cp - 65536) mod 1024]%N.

Definition is_continuation (c : ascii) : bool :=
  (128 <=? N_of_ascii c)%N && (N_of_ascii c <? 192)%N.

Definition low6 (c : ascii) : N := (N_of_ascii c - 128)%N.

(** The code units of a string. A byte that starts no sequence of WTF-8
    stands for the code unit of its value. *)
Fixpoint code_units (s : string) : list N :=
  match s with
  | EmptyString => []
  | String a r =>
      let n := N_of_ascii a in
      let alone := n :: code_units r in
      if (n <? 194)%N then alone
      else
        match r with
        | String b r1 =>
            if negb (is_continuation b) then alone
            else if (n <? 224)%N then
              ((n - 192) * 64 + low6 b)%N :: code_units r1
            else
              match r1 with
              | String c r2 =>
                  if negb (is_continuation c) then alone
                  else if (n <? 240)%N then
                    (((n - 224) * 64 + low6 b) * 64 + low6 c)%N
                      :: code_units r2
                  else
                    match r2 with
                    | String d r3 =>
                        if is_continuation d && (n <? 245)%N then
                          (units_of_point
                             ((((n - 240) * 64 + low6 b) * 64 + low6 c) * 64
                              + low6 d)%N
                           ++ code_units r3)%list
                        else alone
                    | EmptyString => alone
                    end
              | EmptyString => alone
              end
        | EmptyString => alone
        end
  end.

(** The string of a sequence of code units: a high surrogate and the low
    one after it make one code point. *)
Fixpoint string_of_units (us : list N) : string :=
  match us with
  | [] => ""
  | u :: us' =>
      match us' with
      | v :: us'' =>
          if is_high_surrogate u && is_low_surrogate v
          then utf8 (pair_point u v) ++ string_of_units us''
          else utf8 u ++ string_of_units us'
      | [] => utf8 u
      end
  end.

(** ** Property keys and property order *)

(** An array index is a canonical numeric string below 2^32 - 1. *)
Definition array_index (k : string) : option N :=
  match read_digits k with
  | (d, EmptyString) =>
      let n := N.of_uint d in
      if (string_of_N n =? k) && (n <? 4294967295)%N then Some n else None
  | _ => None
  end.

(** [key_before k k']: a freshly created property [k] is enumerated before
    an existing property [k']. *)
Definition key_before (k k' : string) : bool :=
  match array_index k, array_index k' with
  | Some i, Some j => (i <? j)%N
  | Some _, None => true
  | None, _ => false
  end.

(** [CreateDataProperty(o, k, v)]: an existing property keeps its place and
    takes the new value; a new one is created at its place in key order. *)
Fixpoint set_prop (k : string) (v : json) (o : object) : object :=
  match o with
  | [] => [(k, v)]
  | (k', v') :: o' =>
      if k =? k' then (k, v) :: o'
      else if key_before k k' then (k, v) :: (k', v') :: o'
      else (k', v') :: set_prop k v o'
  end.

(** [o[k]] on own properties. *)
Fixpoint get_prop (k : string) (o : object) : option json :=
  match o with
  | [] => None
  | (k', v) :: o' => if k =? k' then Some v else get_prop k o'
  end.

Definition has_prop (k : string) (o : object) : bool :=
  match get_prop k o with Some _ => true | None => false end.

(** Properties defined one after the other, as an object literal or the
    parser does. *)
Definition define_props (o : object) (ps : list (string * json)) : object :=
  fold_left (fun acc kv => set_prop (fst kv) (snd kv) acc) ps o.

(** The code units of a string as one-unit strings under their indices,
    starting at index [i]. *)
Fixpoint unit_props (i : N) (us : list N) : object :=
  match us with
  | [] => []
  | u :: us' => (string_of_N i, JStr (utf8 u)) :: unit_props (N.succ i) us'
  end.

Definition string_props (i : N) (s : string) : object :=
  unit_props i (code_units s).

Fixpoint array_props (i : N) (l : list json) : object :=
  match l with
  | [] => []
  | x :: l' => (string_of_N i, x) :: array_props (N.succ i) l'
  end.

(** The own enumerable properties [CopyDataProperties] reads from a source:
    none for [null], booleans and numbers, the indexed code units for a
    string, the indexed elements for an array. *)
Definition own_props (v : json) : object :=
  match v with
  | JNull | JBool _ | JNum _ => []
  | JStr s => string_props 0 s
  | JArr l => array_props 0 l
  | JObj o => o
  end.

(** [{ ...target, ...source }] continued on an object under construction. *)
Definition spread (target : object) (source : json) : object :=
  define_props target (own_props source).

(** ** Well-formed values

    A value a JavaScript program can hold: every object lists each key once,
    in key order. *)

Fixpoint ordered_keys (o : object) : bool :=
  match o with
  | [] => true
  | (k, _) :: o' =>
      forallb (fun kv => negb (k =? fst kv) && negb (key_before (fst kv) k)) o'
      && ordered_keys o'
  end.

Fixpoint wf_json (v : json) : bool :=
  match v with
  | JNull | JBool _ | JNum _ | JStr _ => true
  | JArr l => forallb wf_json l
  | JObj o => ordered_keys o && forallb (fun kv => wf_json (snd kv)) o
  end.

(** ** The JSON object of the engine *)

(** [JSON.parse] (with [None] for the [SyntaxError] it throws) and
    [JSON.stringify], as the engine the code runs on provides them. *)
Class JSON : Type := {
  JSON_parse : string -> option json;
  JSON_stringify : json -> string
}.

(** An engine whose [JSON.parse] yields well-formed values: it builds its
    objects a property at a time, so each key is there once, in key order.
    This is what a statement relies on where an object that was just parsed
    is spread. *)
Class JSON_lawful `{JSON} : Prop := {
  JSON_parse_wf : forall s v, JSON_parse s = Some v -> wf_json v = true
}.

(** ** A reference engine: [JSON.stringify] after ECMA-262 *)

(** The double quote character. *)
Definition dquote : ascii := "034"%char.

Definition hex_digit (n : N) : ascii :=
  if (n <? 10)%N then ascii_of_N (48 + n) else ascii_of_N (87 + n).

Definition unicode_escape (u : N) : string :=
  "\u" ++ String (hex_digit (u / 4096))
            (String (hex_digit ((u / 256) mod 16))
               (String (hex_digit ((u / 16) mod 16))
                  (String (hex_digit (u mod 16)) ""))).

(** [QuoteJSONString] on a code unit that is no surrogate. *)
Definition escape_unit (u : N) : string :=
  if (u =? 34)%N then String "\" (String dquote "") else
  if (u =? 92)%N then "\\" else
  if (u =? 8)%N then "\b" else
  if (u =? 12)%N then "\f" else
  if (u =? 10)%N then "\n" else
  if (u =? 13)%N then "\r" else
  if (u =? 9)%N then "\t" else
  if (u <? 32)%N then unicode_escape u
  else utf8 u.

(** [QuoteJSONString] on the code points of a string: a surrogate pair is
    written as its character, a surrogate without partner as an escape. *)
Fixpoint escape_units (us : list N) : string :=
  match us with
  | [] => ""
  | u :: us' =>
      if is_high_surrogate u then
        match us' with
        | v :: us'' =>
            if is_low_surrogate v
            then utf8 (pair_point u v) ++ escape_units us''
            else unicode_escape u ++ escape_units us'
        | [] => unicode_escape u
        end
      else if is_low_surrogate u then unicode_escape u ++ escape_units us'
      else escape_unit u ++ escape_units us'
  end.

Definition quote (s : string) : string :=
  String dquote (escape_units (code_units s) ++ String dquote "").

(** A number that is not finite is written [null]. *)
Definition stringify_number (x : number) : string :=
  if is_finite x then string_of_number x else "null".

Fixpoint ecma_stringify (v : json) : string :=
  match v with
  | JNull => "null"
  | JBool true => "true"
  | JBool false => "false"
  | JNum n => stringify_number n
  | JStr s => quote s
  | JArr l =>
      "[" ++
      (fix elements (l : list json) : string :=
         match l with
         | [] => ""
         | x :: l' =>
             ecma_stringify x ++
             match l' with [] => "" | _ :: _ => "," ++ elements l' end
         end) l
      ++ "]"
  | JObj o =>
      "{" ++
      (fix members (o : list (string * json)) : string :=
         match o with
         | [] => ""
         | (k, x) :: o' =>
             quote k ++ ":" ++ ecma_stringify x ++
             match o' with [] => "" | _ :: _ => "," ++ members o' end
         end) o
      ++ "}"
  end.

(** ** A reference engine: [JSON.parse] after ECMA-262 *)

Definition is_ws (c : ascii) : bool :=
  (c =? " ")%char || (N_of_ascii c =? 9)%N
  || (N_of_ascii c =? 10)%N || (N_of_ascii c =? 13)%N.

Fixpoint skip_ws (s : string) : string :=
  match s with
  | EmptyString => EmptyString
  | String c r => if is_ws c then skip_ws r else s
  end.

Definition hex_value (c : ascii) : option N :=
  let n := N_of_ascii c in
  if (48 <=? n)%N && (n <=? 57)%N then Some (n - 48)%N else
  if (97 <=? n)%N && (n <=? 102)%N then Some (n - 87)%N else
  if (65 <=? n)%N && (n <=? 70)%N then Some (n - 55)%N else None.

Definition hex4 (a b c d : ascii) : option N :=
  match hex_value a, hex_value b, hex_value c, hex_value d with
  | Some x, Some y, Some z, Some w => Some (((x * 16 + y) * 16 + z) * 16 + w)%N
  | _, _, _, _ => None
  end.

(** The character a one-letter escape stands for. *)
Definition unescape (e : ascii) : option ascii :=
  if (e =? dquote)%char then Some dquote else
  if (e =? "\")%char then Some "\"%char else
  if (e =? "/")%char then Some "/"%char else
  if (e =? "b")%char then Some (ascii_of_N 8) else
  if (e =? "f")%char then Some (ascii_of_N 12) else
  if (e =? "n")%char then Some (ascii_of_N 10) else
  if (e =? "r")%char then Some (ascii_of_N 13) else
  if (e =? "t")%char then Some (ascii_of_N 9) else None.

Definition cons_chars (pre : string) (r : option (string * string))
  : option (string * string) :=
  match r with
  | Some (str, rest) => Some (pre ++ str, rest)
  | None => None
  end.

(** The characters of a string literal after its opening quote, up to and
    including the closing quote: each escape gives its code unit, every
    other character stands for itself. *)
Fixpoint parse_chars (s : string) : option (string * string) :=
  match s with
  | EmptyString => None
  | String c r =>
      if (c =? dquote)%char then Some (EmptyString, r)
      else if (c =? "\")%char then
        match r with
        | EmptyString => None
        | String e r1 =>
            if (e =? "u")%char then
              match r1 with
              | String h1 (String h2 (String h3 (String h4 r2))) =>
                  match hex4 h1 h2 h3 h4 with
                  | None => None
                  | Some cu => cons_chars (utf8 cu) (parse_chars r2)
                  end
              | _ => None
              end
            else
              match unescape e with
              | Some c' => cons_chars (String c' "") (parse_chars r1)
              | None => None
              end
        end
      else if (N_of_ascii c <? 32)%N then None
      else cons_chars (String c "") (parse_chars r)
  end.

(** A string literal after its opening quote: the string of the code units
    read, surrogates that meet made into pairs. *)
Definition parse_string (s : string) : option (string * string) :=
  match parse_chars s with
  | Some (str, rest) => Some (string_of_units (code_units str), rest)
  | None => None
  end.

(** The fraction of a number literal: a point and digits, or nothing. *)
Definition lex_fraction (s : string) : option (uint * string) :=
  match s with
  | String c r =>
      if (c =? ".")%char then
        match read_digits r with
        | (Nil, _) => None
        | (f, rest) => Some (f, rest)
        end
      else Some (Nil, s)
  | EmptyString => Some (Nil, s)
  end.

(** The exponent of a number literal: [e] or [E], a sign or none, and
    digits; or nothing. *)
Definition lex_exponent (s : string) : option (Z * string) :=
  match s with
  | String c r =>
      if (c =? "e")%char || (c =? "E")%char then
        let (neg, r1) :=
          match r with
          | String sg r' =>
              if (sg =? "-")%char then (true, r')
              else if (sg =? "+")%char then (false, r')
              else (false, r)
          | EmptyString => (false, r)
          end in
        match read_digits r1 with
        | (Nil, _) => None
        | (x, rest) =>
            let n := Z.of_N (N.of_uint x) in
            Some (if neg then (- n)%Z else n, rest)
        end
      else Some (0%Z, s)
  | EmptyString => Some (0%Z, s)
  end.

(** A number literal after its sign: 0 or a non-zero digit followed by
    digits, then a fraction and an exponent if they are there. *)
Definition parse_unsigned (neg : bool) (s : string) : option (json * string) :=
  match read_digits s with
  | (Nil, _) => None
  | (D0 (D0 _ | D1 _ | D2 _ | D3 _ | D4 _ | D5 _ | D6 _ | D7 _ | D8 _
         | D9 _), _) => None
  | (i, r1) =>
      match lex_fraction r1 with
      | None => None
      | Some (f, r2) =>
          match lex_exponent r2 with
          | None => None
          | Some (x, r3) =>
              Some (JNum (number_of_decimal neg (N.of_uint (Decimal.app i f))
                            (x - Z.of_nat (nb_digits f))), r3)
          end
      end
  end.

Definition parse_number (s : string) : option (json * string) :=
  match s with
  | String c r =>
      if (c =? "-")%char then parse_unsigned true r else parse_unsigned false s
  | EmptyString => None
  end.

(** [s] with the prefix [p] taken off. *)
Fixpoint strip_prefix (p s : string) : option string :=
  match p, s with
  | EmptyString, _ => Some s
  | String a p', String b s' =>
      if (a =? b)%char then strip_prefix p' s' else None
  | String _ _, EmptyString => None
  end.

Definition parse_literal (s : string) : option (json * string) :=
  match strip_prefix "null" s with
  | Some r => Some (JNull, r)
  | None =>
  match strip_prefix "true" s with
  | Some r => Some (JBool true, r)
  | None =>
  match strip_prefix "false" s with
  | Some r => Some (JBool false, r)
  | None => parse_number s
  end end end.

(** The recursive descent, on a bound for the depth of the descent. An
    object literal is read as its members in text order. *)
Fixpoint parse_value (fuel : nat) (s : string) {struct fuel}
  : option (json * string) :=
  match fuel with
  | O => None
  | S fuel' =>
      match skip_ws s with
      | EmptyString => None
      | String c r =>
          if (c =? "{")%char then
            match skip_ws r with
            | String c' r' =>
                if (c' =? "}")%char then Some (JObj [], r')
                else
                  match parse_members fuel' r with
                  | Some (ms, r'') => Some (JObj (define_props [] ms), r'')
                  | None => None
                  end
            | EmptyString => None
            end
          else if (c =? "[")%char then
            match skip_ws r with
            | String c' r' =>
                if (c' =? "]")%char then Some (JArr [], r')
                else
                  match parse_elements fuel' r with
                  | Some (vs, r'') => Some (JArr vs, r'')
                  | None => None
                  end
            | EmptyString => None
            end
          else if (c =? dquote)%char then
            match parse_string r with
            | Some (str, r') => Some (JStr str, r')
            | None => None
            end
          else parse_literal (String c r)
      end
  end

with parse_elements (fuel : nat) (s : string) {struct fuel}
  : option (list json * string) :=
  match fuel with
  | O => None
  | S fuel' =>
      match parse_value fuel' s with
      | None => None
      | Some (v, r) =>
          match skip_ws r with
          | EmptyString => None
          | String c r' =>
              if (c =? ",")%char then
                match parse_elements fuel' r' with
                | Some (vs, r'') => Some (v :: vs, r'')
                | None => None
                end
              else if (c =? "]")%char then Some ([v], r')
              else None
          end
      end
  end

with parse_members (fuel : nat) (s : string) {struct fuel}
  : option (list (string * json) * string) :=
  match fuel with
  | O => None
  | S fuel' =>
      match skip_ws s with
      | EmptyString => None
      | String q r =>
          if negb (q =? dquote)%char then None
          else
            match parse_string r with
            | None => None
            | Some (k, r1) =>
                match skip_ws r1 with
                | EmptyString => None
                | String c r2 =>
                    if negb (c =? ":")%char then None
                    else
                      match parse_value fuel' r2 with
                      | None => None
                      | Some (v, r3) =>
                          match skip_ws r3 with
                          | EmptyString => None
                          | String c' r4 =>
                              if (c' =? ",")%char then
                                match parse_members fuel' r4 with
                                | Some (ms, r5) => Some ((k, v) :: ms, r5)
                                | None => None
                                end
                              else if (c' =? "}")%char then Some ([(k, v)], r4)
                              else None
                          end
                      end
                end
            end
      end
  end.

(** [JSON.parse]: one value between optional white space; [None] stands for
    the [SyntaxError] it throws. *)
Definition ecma_parse (s : string) : option json :=
  match parse_value (S (String.length s)) s with
  | Some (v, r) =>
      match skip_ws r with
      | EmptyString => Some v
      | String _ _ => None
      end
  | None => None
  end.

(** ** discord.js values *)

Definition Error := string.

(** A promise of the platform, once settled. *)
Inductive Settled (A : Type) : Type :=
| Fulfilled (a : A)
| Rejected (e : Error).
Arguments Fulfilled {A} a.
Arguments Rejected {A} e.

Inductive ChannelType : Type :=
| GuildText
| GuildVoice
| GuildCategory.

Definition ChannelType_eqb (a b : ChannelType) : bool :=
  match a, b with
  | GuildText, GuildText | GuildVoice, GuildVoice
  | GuildCategory, GuildCategory => true
  | _, _ => false
  end.

(** A guild handle is the guild's id. *)
Definition Guild := string.

Record Channel : Type := mkChannel {
  channel_id : string;
  name : string;
  type : ChannelType
}.

Record Message : Type := mkMessage {
  id : string;
  content : string;
  channelId : string
}.

(** A page of messages ([Collection<string, Message>]) in iteration order:
    [size] is its length, [values()] the list, [last()] its last element. *)
Definition Page := list Message.

Fixpoint last_message (p : Page) : option Message :=
  match p with
  | [] => None
  | [m] => Some m
  | _ :: p' => last_message p'
  end.

(** The calls into discord.js that reach the platform. *)
Inductive Call : Type :=
| ChannelsCreate (guild : Guild) (nm : string) (ty : ChannelType)
| ChannelSend (channel : Channel) (text : string)
| MessagesFetch (channel : Channel) (limit : nat) (before : option string)
| MessagesFetchId (channel : Channel) (messageId : string)
| MessageEdit (message : Message) (text : string)
| MessageDelete (message : Message).

Definition is_fetch (c : Call) : bool :=
  match c with MessagesFetch _ _ _ => true | _ => false end.
Definition is_edit (c : Call) : bool :=
  match c with MessageEdit _ _ => true | _ => false end.
Definition is_delete (c : Call) : bool :=
  match c with MessageDelete _ => true | _ => false end.

(** The discord.js client as the gateway uses it, over a state [W] of the
    platform: the two caches are read in place, every other member is a
    request that settles. *)
Class DiscordJs (W : Type) : Type := {
  guilds_cache_get : W -> string -> option Guild;
  channels_cache : W -> Guild -> list Channel;
  channels_create : Guild -> string -> ChannelType -> W -> Settled Channel * W;
  channel_send : Channel -> string -> W -> Settled Message * W;
  messages_fetch :
    Channel -> nat -> option string -> W -> Settled Page * W;
  messages_fetch_id : Channel -> string -> W -> Settled Message * W;
  message_edit : Message -> string -> W -> Settled Message * W;
  message_delete : Message -> W -> Settled Message * W
}.

(** ** Asynchronous methods *)

(** How a run of an [async] method ends: it resolves, it throws (rejects),
    or the bound given to its loop is used up while it is still running. *)
Inductive Outcome (A : Type) : Type :=
| Resolved (a : A)
| Thrown (e : Error)
| OutOfFuel.
Arguments Resolved {A} a.
Arguments Thrown {A} e.
Arguments OutOfFuel {A}.

Definition Async (W A : Type) : Type := W -> Outcome A * W * list Call.

Definition ret {W A} (a : A) : Async W A := fun w => (Resolved a, w, []).

Definition throw {W A} (e : Error) : Async W A := fun w => (Thrown e, w, []).

Definition bind {W A B} (m : Async W A) (f : A -> Async W B) : Async W B :=
  fun w =>
    match m w with
    | (Resolved a, w1, t1) =>
        match f a w1 with (r, w2, t2) => (r, w2, (t1 ++ t2)%list) end
    | (Thrown e, w1, t1) => (Thrown e, w1, t1)
    | (OutOfFuel, w1, t1) => (OutOfFuel, w1, t1)
    end.

(** [try { body } catch { handler }] *)
Definition try_catch {W A} (body : Async W A) (handler : Error -> Async W A)
  : Async W A :=
  fun w =>
    match body w with
    | (Thrown e, w1, t1) =>
        match handler e w1 with (r, w2, t2) => (r, w2, (t1 ++ t2)%list) end
    | done => done
    end.

(** [await] on a request to the platform. *)
Definition await {W A} (c : Call) (request : W -> Settled A * W) : Async W A :=
  fun w =>
    match request w with
    | (Fulfilled a, w1) => (Resolved a, w1, [c])
    | (Rejected e, w1) => (Thrown e, w1, [c])
    end.

(** A read of the state of the client, without a request. *)
Definition read {W A} (f : W -> A) : Async W A :=
  fun w => (Resolved (f w), w, []).

(** [JSON.parse] as a call that throws. *)
Definition parse_json `{JSON} {W} (text : string) : Async W json :=
  match JSON_parse text with
  | Some v => ret v
  | None => throw "SyntaxError"
  end.

Declare Scope async_scope.
Delimit Scope async_scope with async.
Notation "x <- m ;; k" := (bind m (fun x => k))
  (at level 61, m at next level, right associativity) : async_scope.
Notation "m ;; k" := (bind m (fun _ => k))
  (at level 61, right associativity) : async_scope.
Local Open Scope async_scope.

(** [for (const x of xs) body], the loop state threaded through. *)
Fixpoint for_of {W A S} (xs : list A) (body : A -> S -> Async W S) (s : S)
  : Async W S :=
  match xs with
  | [] => ret s
  | x :: xs' => s' <- body x s ;; for_of xs' body s'
  end.

(** ** The gateway: [DiscordClient] *)

Record DiscordClient : Type := mkDiscordClient {
  guildId : string
}.

Section Gateway.
Context {W : Type} `{DiscordJs W}.

Definition getGuild (this : DiscordClient) : Async W Guild :=
  guild <- read (fun w => guilds_cache_get w (guildId this)) ;;
  match guild with
  | None => throw "Guild not found in cache"
  | Some guild => ret guild
  end.

Definition resolveCollectionChannel (this : DiscordClient)
    (collection : string) : Async W Channel :=
  guild <- getGuild this ;;
  channel <- read (fun w =>
    find (fun channel =>
            ChannelType_eqb (type channel) GuildText
            && (name channel =? collection))
         (channels_cache w guild)) ;;
  match channel with
  | None =>
      await (ChannelsCreate guild collection GuildText)
            (channels_create guild collection GuildText)
  | Some channel => ret channel
  end.

Definition sendMessage (this : DiscordClient) (channel : Channel)
    (text : string) : Async W string :=
  message <- await (ChannelSend channel text) (channel_send channel text) ;;
  ret (id message).

Definition fetchMessages (this : DiscordClient) (channel : Channel)
    (lastMessageId : option string) : Async W Page :=
  await (MessagesFetch channel 100 lastMessageId)
        (messages_fetch channel 100 lastMessageId).

Definition fetchMessageById (this : DiscordClient) (channel : Channel)
    (messageId : string) : Async W (option Message) :=
  try_catch
    (message <- await (MessagesFetchId channel messageId)
                      (messages_fetch_id channel messageId) ;;
     ret (Some message))
    (fun _ => ret None).

Definition editMessage (this : DiscordClient) (message : Message)
    (text : string) : Async W unit :=
  await (MessageEdit message text) (message_edit message text) ;;
  ret tt.

Definition deleteMessage (this : DiscordClient) (message : Message)
    : Async W unit :=
  await (MessageDelete message) (message_delete message) ;;
  ret tt.
End Gateway.

(** ** The repository: [DiscordRepository] *)

Record DiscordRepository : Type := mkDiscordRepository {
  discordClient : DiscordClient
}.

(** A document is an object: the payload's properties and [id]. *)
Definition Document := object.

Section Repository.
Context `{engine : JSON} {W : Type} `{DiscordJs W}.

Definition insert (this : DiscordRepository) (collection : string)
    (data : json) : Async W string :=
  channel <- resolveCollectionChannel (discordClient this) collection ;;
  messageId <- sendMessage (discordClient this) channel (JSON_stringify data) ;;
  ret messageId.

(** The body of the [for ... of] loop of [findAll]. *)
Definition collect (message : Message) (results : list Document)
    : Async W (list Document) :=
  try_catch
    (data <- parse_json (content message) ;;
     let document := spread [("id", JStr (id message))] data in
     ret (results ++ [document])%list)
    (fun _ => ret results).

(** The [while (true)] loop of [findAll], at most [fuel] times round. *)
Fixpoint findAll_loop (fuel : nat) (this : DiscordRepository)
    (channel : Channel) (results : list Document)
    (lastMessageId : option string) : Async W (list Document) :=
  match fuel with
  | O => fun w => (OutOfFuel, w, [])
  | S fuel' =>
      fetchedMessages <-
        fetchMessages (discordClient this) channel lastMessageId ;;
      if Nat.eqb (List.length fetchedMessages) 0 then ret results
      else
        results <- for_of fetchedMessages collect results ;;
        let lastMessageId := option_map id (last_message fetchedMessages) in
        if Nat.ltb (List.length fetchedMessages) 100 then ret results
        else findAll_loop fuel' this channel results lastMessageId
  end.

Definition findAll (fuel : nat) (this : DiscordRepository)
    (collection : string) : Async W (list Document) :=
  channel <- resolveCollectionChannel (discordClient this) collection ;;
  findAll_loop fuel this channel [] None.

Definition findById (this : DiscordRepository) (collection : string)
    (messageId : string) : Async W (option Document) :=
  channel <- resolveCollectionChannel (discordClient this) collection ;;
  message <- fetchMessageById (discordClient this) channel messageId ;;
  match message with
  | None => ret None
  | Some message =>
      try_catch
        (data <- parse_json (content message) ;;
         let document := spread [("id", JStr (id message))] data in
         ret (Some document))
        (fun _ => ret None)
  end.

Definition update (this : DiscordRepository) (collection : string)
    (messageId : string) (data : json) : Async W bool :=
  channel <- resolveCollectionChannel (discordClient this) collection ;;
  message <- fetchMessageById (discordClient this) channel messageId ;;
  match message with
  | None => ret false
  | Some message =>
      try_catch
        (existingData <- parse_json (content message) ;;
         let updatedData := JObj (spread (spread [] existingData) data) in
         editMessage (discordClient this) message
                     (JSON_stringify updatedData) ;;
         ret true)
        (fun _ => ret false)
  end.

Definition delete (this : DiscordRepository) (collection : string)
    (messageId : string) : Async W bool :=
  channel <- resolveCollectionChannel (discordClient this) collection ;;
  message <- fetchMessageById (discordClient this) channel messageId ;;
  match message with
  | None => ret false
  | Some message =>
      deleteMessage (discordClient this) message ;;
      ret true
  end.
End Repository.

(** ** A reference platform

    An in-memory Discord behind discord.js: the guilds and channels the
    client has cached, every message newest first, the next snowflake to
    hand out, and the requests that fail (an outage, a missing permission),
    given as an oracle on the call. *)

Record Discord : Type := mkDiscord {
  guilds : list Guild;
  channels : list (Guild * Channel);
  messages : list Message;
  next_snowflake : N;
  failing : Call -> bool
}.

(** The number a snowflake id denotes. *)
Definition snowflake (s : string) : option N :=
  match read_digits s with
  | (Nil, _) => None
  | (d, EmptyString) => Some (N.of_uint d)
  | (_, String _ _) => None
  end.

Definition in_channel (channel : Channel) (m : Message) : bool :=
  channelId m =? channel_id channel.

Definition same_message (m m' : Message) : bool :=
  (id m =? id m') && (channelId m =? channelId m').

Definition older_than (n : N) (m : Message) : bool :=
  match snowflake (id m) with
  | Some k => (k <? n)%N
  | None => false
  end.

(** The history of a channel, newest first. *)
Definition history (w : Discord) (channel : Channel) : list Message :=
  filter (in_channel channel) (messages w).

(** The longest message the platform takes. *)
Definition content_limit : nat := 2000.

Definition discord_guilds_cache_get (w : Discord) (guild : string)
  : option Guild :=
  find (fun g => g =? guild) (guilds w).

Definition discord_channels_cache (w : Discord) (guild : Guild)
  : list Channel :=
  map snd (filter (fun gc => fst gc =? guild) (channels w)).

Definition discord_channels_create (guild : Guild) (nm : string)
    (ty : ChannelType) (w : Discord) : Settled Channel * Discord :=
  if failing w (ChannelsCreate guild nm ty) then
    (Rejected "Missing Permissions", w)
  else
    let channel := mkChannel (string_of_N (next_snowflake w)) nm ty in
    (Fulfilled channel,
     mkDiscord (guilds w) (channels w ++ [(guild, channel)])%list (messages w)
               (N.succ (next_snowflake w)) (failing w)).

Definition discord_channel_send (channel : Channel) (text : string)
    (w : Discord) : Settled Message * Discord :=
  if failing w (ChannelSend channel text) then (Rejected "Missing Access", w)
  else if Nat.eqb (String.length text) 0 then
    (Rejected "Cannot send an empty message", w)
  else if Nat.ltb content_limit (String.length text) then
    (Rejected "Invalid Form Body", w)
  else
    let message :=
      mkMessage (string_of_N (next_snowflake w)) text (channel_id channel) in
    (Fulfilled message,
     mkDiscord (guilds w) (channels w) (message :: messages w)
               (N.succ (next_snowflake w)) (failing w)).

Definition discord_messages_fetch (channel : Channel) (limit : nat)
    (before : option string) (w : Discord) : Settled Page * Discord :=
  if failing w (MessagesFetch channel limit before) then
    (Rejected "Missing Access", w)
  else
    match before with
    | None => (Fulfilled (firstn limit (history w channel)), w)
    | Some cursor =>
        match snowflake cursor with
        | None => (Rejected "Invalid Form Body", w)
        | Some n =>
            (Fulfilled
               (firstn limit (filter (older_than n) (history w channel))), w)
        end
    end.

Definition discord_messages_fetch_id (channel : Channel) (messageId : string)
    (w : Discord) : Settled Message * Discord :=
  if failing w (MessagesFetchId channel messageId) then
    (Rejected "Missing Access", w)
  else
    match find (fun m => (id m =? messageId) && in_channel channel m)
               (messages w) with
    | Some m => (Fulfilled m, w)
    | None => (Rejected "Unknown Message", w)
    end.

Definition discord_message_edit (message : Message) (text : string)
    (w : Discord) : Settled Message * Discord :=
  if failing w (MessageEdit message text) then (Rejected "Missing Access", w)
  else if existsb (same_message message) (messages w) then
    let edited := mkMessage (id message) text (channelId message) in
    (Fulfilled edited,
     mkDiscord (guilds w) (channels w)
               (map (fun m => if same_message message m then edited else m)
                    (messages w))
               (next_snowflake w) (failing w))
  else (Rejected "Unknown Message", w).

Definition discord_message_delete (message : Message) (w : Discord)
  : Settled Message * Discord :=
  if failing w (MessageDelete message) then (Rejected "Missing Permissions", w)
  else if existsb (same_message message) (messages w) then
    (Fulfilled message,
     mkDiscord (guilds w) (channels w)
               (filter (fun m => negb (same_message message m)) (messages w))
               (next_snowflake w) (failing w))
  else (Rejected "Unknown Message", w).

#[export] Instance Discord_js : DiscordJs Discord := {
  guilds_cache_get := discord_guilds_cache_get;
  channels_cache := discord_channels_cache;
  channels_create := discord_channels_create;
  channel_send := discord_channel_send;
  messages_fetch := discord_messages_fetch;
  messages_fetch_id := discord_messages_fetch_id;
  message_edit := discord_message_edit;
  message_delete := discord_message_delete
}.

(** ** Notions the statements use *)

(** The first character of [s] satisfies [p]. *)
Definition starts_with (p : ascii -> bool) (s : string) : bool :=
  match s with
  | String c _ => p c
  | EmptyString => false
  end.

(** The engine reads [v] back from the text it writes for it: [v] is
    JSON-serializable. *)
Definition reads_back `{JSON} (v : json) : Prop :=
  JSON_parse (JSON_stringify v) = Some v.

(** The ids of [ms] are snowflakes, each message older than the ones before
    it: the order in which the platform keeps a history. *)
Fixpoint descending (ms : list Message) : bool :=
  match ms with
  | [] => true
  | m :: ms' =>
      match snowflake (id m) with
      | Some n => forallb (older_than n) ms' && descending ms'
      | None => false
      end
  end.

(** The document [findAll] and [findById] build from a message, when its
    envelope parses. *)
Definition document_of `{JSON} (m : Message) : option Document :=
  match JSON_parse (content m) with
  | Some data => Some (spread [("id", JStr (id m))] data)
  | None => None
  end.

Definition parses `{JSON} (m : Message) : bool :=
  match JSON_parse (content m) with Some _ => true | None => false end.

(** The documents of the messages whose envelope parses, in order. *)
Fixpoint documents_of `{JSON} (ms : list Message) : list Document :=
  match ms with
  | [] => []
  | m :: ms' =>
      match document_of m with
      | Some d => d :: documents_of ms'
      | None => documents_of ms'
      end
  end.

(** How many calls of a trace satisfy [p]. *)
Definition count_calls (p : Call -> bool) (t : list Call) : nat :=
  List.length (filter p t).

(** A JSON scalar other than a string. *)
Definition is_scalar (v : json) : bool :=
  match v with
  | JNull | JBool _ | JNum _ => true
  | JStr _ | JArr _ | JObj _ => false
  end.

(** The platform answers the successive fetches of a scan from [cursor] with
    the pages [ps]: every page but the last has the full size, each fetch
    after the first is given the id of the last message of the page before,
    and the last page is short. *)
Inductive serves {W : Type} `{DiscordJs W} (channel : Channel)
  : option string -> W -> list Page -> W -> Prop :=
| serves_short cursor w p w' :
    messages_fetch channel 100 cursor w = (Fulfilled p, w') ->
    List.length p < 100 ->
    serves channel cursor w [p] w'
| serves_full cursor w p w1 ps w' :
    messages_fetch channel 100 cursor w = (Fulfilled p, w1) ->
    100 <= List.length p ->
    serves channel (option_map id (last_message p)) w1 ps w' ->
    serves channel cursor w (p :: ps) w'.

(** The fetches of a scan of the pages [ps] from [cursor]. *)
Fixpoint fetch_calls (channel : Channel) (cursor : option string)
    (ps : list Page) : list Call :=
  match ps with
  | [] => []
  | p :: ps' =>
      MessagesFetch channel 100 cursor
        :: fetch_calls channel (option_map id (last_message p)) ps'
  end.

(** ** Sample data *)

(** A JSON text, written with single quotes for its double quotes. *)
Fixpoint json_text (s : string) : string :=
  match s with
  | EmptyString => ""
  | String c r => String (if (c =? "'")%char then dquote else c) (json_text r)
  end.

Definition code_units_of (v : json) : list N :=
  match v with
  | JStr s => code_units s
  | _ => []
  end.

(** The reference engine is the engine of the samples. *)
Definition Ecma_JSON : JSON := {|
  JSON_parse := ecma_parse;
  JSON_stringify := ecma_stringify
|}.

Definition sample_repository : DiscordRepository :=
  mkDiscordRepository (mkDiscordClient "guild").

Definition users : Channel := mkChannel "500" "users" GuildText.

(** A platform on which no request fails, and one on which every edit and
    every delete does. *)
Definition quiet (c : Call) : bool := false.
Definition fails_edit_and_delete (c : Call) : bool := is_edit c || is_delete c.

(** The payloads of the merge examples. *)
Definition payload_ab : json := JObj [("a", JNum 1); ("b", JNum 2)].
Definition partial_b : json := JObj [("b", JNum 3)].
Definition payload_u : json :=
  JObj [("u", JObj [("x", JNum 1); ("y", JNum 2)])].
Definition partial_u : json := JObj [("u", JObj [("x", JNum 9)])].

(** A platform whose channel [users] holds the messages [ms], newest
    first. *)
Definition discord_with (ms : list Message) (fails : Call -> bool) : Discord :=
  mkDiscord ["guild"] [("guild", users)] ms 1000 fails.

(** The platform after the insert of [P] into an empty [users]. *)
Definition discord_holding (P : json) : Discord :=
  mkDiscord ["guild"] [("guild", users)]
    [mkMessage "1000" (ecma_stringify P) "500"] 1001 quiet.

(** A payload with an [id] of its own. *)
Definition payload_with_id : json := JObj [("id", JStr "x"); ("a", JNum 1)].

(** [n] messages in [users] with the ids [n], ..., 1 and the envelopes
    [{ index: n }], ..., [{ index: 1 }]. *)
Definition numbered_messages (n : nat) : list Message :=
  map (fun i => mkMessage (string_of_N (N.of_nat i))
                  (ecma_stringify (JObj [("index", JNum (Z.of_nat i))]))
                  "500")
      (List.rev (seq 1 n)).

Definition paged_discord : Discord :=
  discord_with (numbered_messages 237) quiet.

(** Four messages: one whose envelope is the number 5, two with an object,
    and between them one whose envelope is no JSON. *)
Definition five : Message := mkMessage "4" "5" "500".
Definition charlie : Message :=
  mkMessage "3" (ecma_stringify (JObj [("name", JStr "Charlie")])) "500".
Definition corrupt : Message := mkMessage "2" "invalid json" "500".
Definition alice : Message :=
  mkMessage "1" (ecma_stringify (JObj [("name", JStr "Alice")])) "500".

Definition mixed_messages : list Message := [five; charlie; corrupt; alice].

Definition mixed_discord : Discord := discord_with mixed_messages quiet.

(** Three messages whose envelopes hold numbers beyond the small integers:
    the number 1.5 alone, an object with a fraction and an exponent in it,
    and an integer too large to be kept digit for digit; and after them the
    message whose envelope is no JSON. *)
Definition half : Message := mkMessage "8" "1.5" "500".
Definition priced : Message :=
  mkMessage "7" (json_text "{'p':1.5,'k':[0.25,2e3]}") "500".
Definition large : Message :=
  mkMessage "6" (json_text "{'n':12345678901234567890}") "500".

Definition decimal_messages : list Message := [half; priced; large; corrupt].

Definition decimal_discord : Discord := discord_with decimal_messages quiet.

(** A payload with an [id] and a name. *)
Definition payload_own_id : json :=
  JObj [("id", JStr "user-7"); ("name", JStr "Ann")].

(** The same messages where every edit and every delete fails. *)
Definition broken_discord : Discord :=
  discord_with mixed_messages fails_edit_and_delete.

(** ** Further notions *)

Definition is_create (c : Call) : bool :=
  match c with ChannelsCreate _ _ _ => true | _ => false end.
Definition is_fetch_id (c : Call) : bool :=
  match c with MessagesFetchId _ _ => true | _ => false end.
Definition is_send (c : Call) : bool :=
  match c with ChannelSend _ _ => true | _ => false end.

(** The platform answers the successive fetches of a scan from [cursor] with
    the full pages [ps] and then rejects the next fetch with [e]. *)
Inductive fails_after {W : Type} `{DiscordJs W} (channel : Channel)
  : option string -> W -> list Page -> Error -> W -> Prop :=
| fails_now cursor w e w' :
    messages_fetch channel 100 cursor w = (Rejected e, w') ->
    fails_after channel cursor w [] e w'
| fails_later cursor w p w1 ps e w' :
    messages_fetch channel 100 cursor w = (Fulfilled p, w1) ->
    100 <= List.length p ->
    fails_after channel (option_map id (last_message p)) w1 ps e w' ->
    fails_after channel cursor w (p :: ps) e w'.

(** A gateway double in the manner of the tests' [mockResolvedValue]: its
    state is the one page it answers every page fetch with, whatever the
    cursor; the guild is cached with the channel [users] in it, a fetch by
    id looks the id up in the page, and no write is taken. *)
#[export] Instance Double_js : DiscordJs Page := {
  guilds_cache_get := fun _ guild => Some guild;
  channels_cache := fun _ _ => [users];
  channels_create := fun _ _ _ page => (Rejected "not mocked", page);
  channel_send := fun _ _ page => (Rejected "not mocked", page);
  messages_fetch := fun _ _ _ page => (Fulfilled page, page);
  messages_fetch_id := fun _ messageId page =>
    match find (fun m => id m =? messageId) page with
    | Some m => (Fulfilled m, page)
    | None => (Rejected "Unknown Message", page)
    end;
  message_edit := fun _ _ page => (Rejected "not mocked", page);
  message_delete := fun _ page => (Rejected "not mocked", page)
}.

(** A platform with the guild cached and in it only a voice channel named
    [users]; one where, besides, no channel can be created; and one whose
    guild cache is empty. *)
Definition voice_users : Channel := mkChannel "400" "users" GuildVoice.
Definition voice_discord : Discord :=
  mkDiscord ["guild"] [("guild", voice_users)] [] 1000 quiet.
Definition closed_discord : Discord :=
  mkDiscord ["guild"] [("guild", voice_users)] [] 1000 is_create.
Definition lost_discord : Discord :=
  mkDiscord [] [("guild", users)] mixed_messages 1000 quiet.

(** The 237 numbered messages on a platform that rejects the fetch of the
    second page. *)
Definition fails_second_page (c : Call) : bool :=
  match c with
  | MessagesFetch _ _ (Some _) => true
  | _ => false
  end.
Definition flaky_discord : Discord :=
  discord_with (numbered_messages 237) fails_second_page.

(** The engine reads back what [update] with the partial payload [D]
    writes for a message of the id [messageId]: the merge of the stored
    payload with [D] is JSON-serializable. *)
Definition merge_reads_back `{JSON} (w : Discord) (messageId : string)
    (D : json) : Prop :=
  forall m E,
    In m (messages w) -> id m = messageId ->
    JSON_parse (content m) = Some E ->
    reads_back (JObj (spread (spread [] E) D)).

(** A store as the platform keeps it: ids descending, all below the next
    snowflake. *)
Definition well_kept (w : Discord) : bool :=
  descending (messages w)
  && forallb (older_than (next_snowflake w)) (messages w).

(** * Properties *)
(** * Properties *)

(** ** The reference engine and the spread at small inputs *)

Example parse_no_json_example : ecma_parse "invalid json" = None.
Proof. reflexivity. Qed.

Example parse_number_example : ecma_parse " -12 " = Some (JNum (-12)).
Proof. vm_compute. reflexivity. Qed.

Example parse_fraction_example :
  ecma_parse "1.5" = Some (JNum (decimal 15 (-1)))
  /\ ecma_parse "0.25e1" = Some (JNum (decimal 25 (-1)))
  /\ ecma_parse "1e2" = Some (JNum 100)
  /\ ecma_parse "1E+2" = Some (JNum 100)
  /\ ecma_stringify (JNum (decimal 15 (-1))) = "1.5".
Proof. vm_compute. repeat split. Qed.

Example parse_fraction_member_example :
  option_map ecma_stringify
    (ecma_parse (json_text "{ 'p' : 1.5, 'k': [0.25, 2] }"))
  = Some (json_text "{'p':1.5,'k':[0.25,2]}").
Proof. vm_compute. reflexivity. Qed.

Example number_rounding_example :
  option_map ecma_stringify (ecma_parse "12345678901234567890")
  = Some "12345678901234567000"
  /\ option_map ecma_stringify (ecma_parse "9007199254740993")
     = Some "9007199254740992"
  /\ ecma_parse "0.1e1" = Some (JNum 1)
  /\ ecma_parse "-0" = Some (JNum (S754_zero true))
  /\ ecma_stringify (JNum (S754_zero true)) = "0".
Proof. vm_compute. repeat split. Qed.

Example number_exponent_form_example :
  ecma_stringify (JNum (10 ^ 21)) = "1e+21"
  /\ ecma_stringify (JNum (10 ^ 20)) = "100000000000000000000"
  /\ option_map ecma_stringify (ecma_parse "0.000001") = Some "0.000001"
  /\ option_map ecma_stringify (ecma_parse "0.0000001") = Some "1e-7"
  /\ option_map ecma_stringify (ecma_parse "5e-324") = Some "5e-324"
  /\ option_map ecma_stringify (ecma_parse "1.7976931348623157e308")
     = Some "1.7976931348623157e+308".
Proof. vm_compute. repeat split. Qed.

Example number_not_finite_example :
  ecma_parse "1e999" = Some (JNum (S754_infinity false))
  /\ ecma_stringify (JNum (S754_infinity false)) = "null"
  /\ ecma_stringify (JNum S754_nan) = "null".
Proof. vm_compute. repeat split. Qed.

(** Not every well-formed value is read back from its text: the negative
    zero is written [0], and a number that is not finite [null]. *)
Example not_read_back_example :
  wf_json (JNum (S754_zero true)) = true
  /\ ~ @reads_back Ecma_JSON (JNum (S754_zero true))
  /\ ~ @reads_back Ecma_JSON (JObj [("a", JNum S754_nan)])
  /\ @reads_back Ecma_JSON (JObj [("a", JNum (decimal 15 (-1)))]).
Proof.
  split; [reflexivity | split; [| split]];
    try (intros E; vm_compute in E; discriminate E).
  vm_compute. reflexivity.
Qed.

Example parse_no_number_example :
  ecma_parse "01" = None /\ ecma_parse "1." = None /\ ecma_parse ".5" = None
  /\ ecma_parse "1e" = None /\ ecma_parse "+1" = None /\ ecma_parse "-" = None.
Proof. vm_compute. repeat split. Qed.

Example parse_array_example :
  ecma_parse " [1, true ,null, [] ] "
  = Some (JArr [JNum 1; JBool true; JNull; JArr []]).
Proof. vm_compute. reflexivity. Qed.

Example parse_trailing_comma_example : ecma_parse "[1,]" = None.
Proof. reflexivity. Qed.

Example stringify_nested_example :
  ecma_stringify (JObj [("u", JObj [("x", JNum 9)]); ("l", JArr [JNull])])
  = json_text "{'u':{'x':9},'l':[null]}".
Proof. vm_compute. reflexivity. Qed.

Example parse_repeated_key_example :
  ecma_parse (json_text "{'b':1,'0':2,'b':3}")
  = Some (JObj [("0", JNum 2); ("b", JNum 3)]).
Proof. vm_compute. reflexivity. Qed.

Example parse_escapes_example :
  ecma_parse (json_text "'a\nA\\\/'")
  = Some (JStr (String "a" (String (ascii_of_N 10) "A\/"))).
Proof. reflexivity. Qed.

(** A surrogate without partner is written as an escape and read back; a
    pair is one character (here U+1F600, four bytes), written as it is;
    two escapes that meet are a pair. *)
Example surrogate_example :
  option_map ecma_stringify (ecma_parse (json_text "'\ud800'"))
  = Some (json_text "'\ud800'")
  /\ option_map code_units_of
       (ecma_parse (json_text ("'" ++ utf8 128512 ++ "'")))
     = Some [55357; 56832]%N
  /\ ecma_parse (json_text "'\ud83d\ude00'") = Some (JStr (utf8 128512))
  /\ ecma_stringify (JStr (string_of_units [55357; 56832]%N))
     = json_text ("'" ++ utf8 128512 ++ "'")
  /\ ecma_stringify (JStr (string_of_units [56832; 55357]%N))
     = json_text "'\ude00\ud83d'".
Proof. vm_compute. repeat split. Qed.

Example spread_object_example :
  spread [("id", JStr "m")] (JObj [("name", JStr "Test"); ("age", JNum 30)])
  = [("id", JStr "m"); ("name", JStr "Test"); ("age", JNum 30)].
Proof. reflexivity. Qed.

Example spread_own_id_example :
  spread [("id", JStr "m")] payload_with_id
  = [("id", JStr "x"); ("a", JNum 1)].
Proof. reflexivity. Qed.

Example spread_array_example :
  spread [("id", JStr "m")] (JArr [JNum 10; JNum 20])
  = [("0", JNum 10); ("1", JNum 20); ("id", JStr "m")].
Proof. reflexivity. Qed.

Example spread_string_example :
  spread [("id", JStr "m")] (JStr "ab")
  = [("0", JStr "a"); ("1", JStr "b"); ("id", JStr "m")].
Proof. reflexivity. Qed.

(** A string is spread by code unit: one property for a character of the
    basic plane, whatever its bytes, two for a character beyond it. *)
Example spread_code_units_example :
  spread [] (JStr (string_of_units [233; 55357; 56832]%N))
  = [("0", JStr (utf8 233)); ("1", JStr (utf8 55357));
     ("2", JStr (utf8 56832))]
  /\ String.length (string_of_units [233; 55357; 56832]%N) = 6.
Proof. vm_compute. split; reflexivity. Qed.

Example spread_number_example :
  spread [("id", JStr "m")] (JNum 5) = [("id", JStr "m")].
Proof. reflexivity. Qed.

(** ** Strings *)

Lemma append_assoc (a b c : string) : (a ++ b) ++ c = a ++ (b ++ c).
Proof. induction a as [|x a IH]; simpl; [reflexivity | now rewrite IH]. Qed.

Lemma append_nil_r (a : string) : a ++ "" = a.
Proof. induction a as [|x a IH]; simpl; [reflexivity | now rewrite IH]. Qed.

Lemma length_append (a b : string) :
  String.length (a ++ b) = String.length a + String.length b.
Proof. induction a as [|x a IH]; simpl; [reflexivity | now rewrite IH]. Qed.

(** ** Decimal numerals *)

Lemma read_digits_string_of_uint (d : uint) (rest : string) :
  starts_with is_digit rest = false ->
  read_digits (string_of_uint d ++ rest) = (d, rest).
Proof.
  intros Hrest.
  induction d; simpl; try (rewrite IHd; reflexivity).
  destruct rest as [|c r]; [reflexivity|].
  simpl in *. unfold is_digit in Hrest.
  destruct (digit_of_char c); [discriminate | reflexivity].
Qed.

Lemma N_to_uint_nonnil (n : N) : N.to_uint n <> Nil.
Proof.
  destruct n as [|p]; simpl; [discriminate|].
  apply DecimalPos.Unsigned.to_uint_nonnil.
Qed.

(** ** Objects: defining the properties of an object rebuilds it *)

Lemma ordered_keys_app_l (o l : object) :
  ordered_keys (o ++ l)%list = true -> ordered_keys o = true.
Proof.
  induction o as [|[k v] o IH]; simpl; [reflexivity|].
  rewrite forallb_app. intros H.
  apply andb_true_iff in H as [H1 H2].
  apply andb_true_iff in H1 as [H1 _].
  rewrite H1. simpl. apply IH, H2.
Qed.

Lemma set_prop_last (k : string) (v : json) (o : object) :
  ordered_keys (o ++ [(k, v)])%list = true ->
  set_prop k v o = (o ++ [(k, v)])%list.
Proof.
  induction o as [|[k' v'] o IH]; simpl; [reflexivity|].
  rewrite forallb_app. simpl. intros H.
  apply andb_true_iff in H as [H1 H2].
  apply andb_true_iff in H1 as [_ H1].
  rewrite andb_true_r in H1. apply andb_true_iff in H1 as [Hk Hb].
  apply negb_true_iff in Hk, Hb.
  rewrite String.eqb_sym, Hk, Hb, (IH H2). reflexivity.
Qed.

Lemma define_props_ordered (o : object) :
  ordered_keys o = true -> define_props [] o = o.
Proof.
  induction o as [|[k v] o IH] using rev_ind; intros Ho; [reflexivity|].
  unfold define_props in *. rewrite fold_left_app. simpl.
  rewrite (IH (ordered_keys_app_l _ _ Ho)).
  apply set_prop_last, Ho.
Qed.

(** ** Runs of the gateway and of the repository on any platform *)

Section Runs.
Context `{engine : JSON} {W : Type} `{DiscordJs W}.

Lemma bind_resolved {A B} (m : Async W A) (f : A -> Async W B)
    (w w1 : W) (a : A) (t1 : list Call) :
  m w = (Resolved a, w1, t1) ->
  bind m f w = (let '(r, w2, t2) := f a w1 in (r, w2, (t1 ++ t2)%list)).
Proof. intros E. unfold bind. rewrite E. reflexivity. Qed.

(** Resolving a collection reaches the platform at most once, to create
    the channel. *)
Lemma resolve_trace (this : DiscordClient) (collection : string) (w : W)
    (r : Outcome Channel) (w1 : W) (t : list Call) :
  resolveCollectionChannel this collection w = (r, w1, t) ->
  t = [] \/ exists g, t = [ChannelsCreate g collection GuildText].
Proof.
  unfold resolveCollectionChannel, getGuild, bind, read, ret, throw, await.
  destruct (guilds_cache_get w (guildId this)) as [g|];
    [| intros E; injection E as _ _ <-; left; reflexivity].
  destruct (find _ (channels_cache w g)) as [ch|];
    [intros E; injection E as _ _ <-; left; reflexivity|].
  destruct (channels_create g collection GuildText w) as [[ch|e] w'];
    intros E; injection E as _ _ <-; right; exists g; reflexivity.
Qed.

Lemma resolve_count (p : Call -> bool) (this : DiscordClient)
    (collection : string) (w : W) (r : Outcome Channel) (w1 : W)
    (t : list Call) :
  (forall g nm ty, p (ChannelsCreate g nm ty) = false) ->
  resolveCollectionChannel this collection w = (r, w1, t) ->
  count_calls p t = 0.
Proof.
  intros Hp E. destruct (resolve_trace _ _ _ _ _ _ E) as [-> | [g ->]].
  - reflexivity.
  - unfold count_calls. simpl. rewrite Hp. reflexivity.
Qed.

Lemma count_calls_app (p : Call -> bool) (t1 t2 : list Call) :
  count_calls p (t1 ++ t2)%list = count_calls p t1 + count_calls p t2.
Proof. unfold count_calls. rewrite filter_app, List.length_app. reflexivity. Qed.

(** The gateway's fetch by id, by the way the request settles. *)
Lemma fetchMessageById_run (this : DiscordClient) (channel : Channel)
    (messageId : string) (w : W) :
  fetchMessageById this channel messageId w
  = match messages_fetch_id channel messageId w with
    | (Fulfilled m, w') =>
        (Resolved (Some m), w', [MessagesFetchId channel messageId])
    | (Rejected _, w') =>
        (Resolved None, w', [MessagesFetchId channel messageId])
    end.
Proof.
  unfold fetchMessageById, try_catch, bind, await, ret.
  destruct (messages_fetch_id channel messageId w) as [[m|e] w'];
    reflexivity.
Qed.

Lemma editMessage_run (this : DiscordClient) (m : Message) (text : string)
    (w : W) :
  editMessage this m text w
  = match message_edit m text w with
    | (Fulfilled _, w') => (Resolved tt, w', [MessageEdit m text])
    | (Rejected e, w') => (Thrown e, w', [MessageEdit m text])
    end.
Proof.
  unfold editMessage, bind, await, ret.
  destruct (message_edit m text w) as [[m'|e] w']; reflexivity.
Qed.

Lemma deleteMessage_run (this : DiscordClient) (m : Message) (w : W) :
  deleteMessage this m w
  = match message_delete m w with
    | (Fulfilled _, w') => (Resolved tt, w', [MessageDelete m])
    | (Rejected e, w') => (Thrown e, w', [MessageDelete m])
    end.
Proof.
  unfold deleteMessage, bind, await, ret.
  destruct (message_delete m w) as [[m'|e] w']; reflexivity.
Qed.

Lemma fetchMessages_run (this : DiscordClient) (channel : Channel)
    (cursor : option string) (w : W) :
  fetchMessages this channel cursor w
  = match messages_fetch channel 100 cursor w with
    | (Fulfilled p, w') => (Resolved p, w', [MessagesFetch channel 100 cursor])
    | (Rejected e, w') => (Thrown e, w', [MessagesFetch channel 100 cursor])
    end.
Proof. reflexivity. Qed.

(** One turn of the [for ... of] loop: a message whose envelope parses adds
    its document, any other message adds nothing; the platform is not
    reached. *)
Lemma collect_run (m : Message) (results : list Document) (w : W) :
  collect m results w
  = (Resolved (results ++ documents_of [m])%list, w, []).
Proof.
  unfold collect, try_catch, bind, parse_json, documents_of, document_of.
  destruct (JSON_parse (content m)) as [data|]; simpl.
  - reflexivity.
  - rewrite List.app_nil_r. reflexivity.
Qed.

Lemma documents_of_app (p q : list Message) :
  documents_of (p ++ q)%list = (documents_of p ++ documents_of q)%list.
Proof.
  induction p as [|m p IH]; simpl; [reflexivity|].
  destruct (document_of m); simpl; rewrite IH; reflexivity.
Qed.

Lemma for_of_collect_run (p : Page) (results : list Document) (w : W) :
  for_of p collect results w
  = (Resolved (results ++ documents_of p)%list, w, []).
Proof.
  revert results. induction p as [|m p IH]; intros results.
  - simpl. unfold ret. rewrite List.app_nil_r. reflexivity.
  - cbn [for_of]. rewrite (bind_resolved _ _ _ _ _ _ (collect_run m results w)).
    rewrite IH. rewrite <- List.app_assoc, <- documents_of_app. reflexivity.
Qed.

(** *** The five methods, by the way the requests settle *)

Variable this : DiscordRepository.
Variable collection : string.
Variables (w w1 : W) (channel : Channel) (t0 : list Call).
Hypothesis resolved :
  resolveCollectionChannel (discordClient this) collection w
  = (Resolved channel, w1, t0).

Lemma insert_run (data : json) :
  insert this collection data w
  = match channel_send channel (JSON_stringify data) w1 with
    | (Fulfilled m, w2) =>
        (Resolved (id m), w2,
         (t0 ++ [ChannelSend channel (JSON_stringify data)])%list)
    | (Rejected e, w2) =>
        (Thrown e, w2,
         (t0 ++ [ChannelSend channel (JSON_stringify data)])%list)
    end.
Proof.
  unfold insert. rewrite (bind_resolved _ _ _ _ _ _ resolved).
  unfold sendMessage, bind, await, ret.
  destruct (channel_send channel (JSON_stringify data) w1) as [[m|e] w2];
    simpl; rewrite ?List.app_nil_r; reflexivity.
Qed.

Lemma findById_run (messageId : string) :
  findById this collection messageId w
  = match messages_fetch_id channel messageId w1 with
    | (Fulfilled m, w2) =>
        (Resolved (document_of m), w2,
         (t0 ++ [MessagesFetchId channel messageId])%list)
    | (Rejected _, w2) =>
        (Resolved None, w2,
         (t0 ++ [MessagesFetchId channel messageId])%list)
    end.
Proof.
  unfold findById. rewrite (bind_resolved _ _ _ _ _ _ resolved).
  unfold bind at 1. rewrite fetchMessageById_run.
  destruct (messages_fetch_id channel messageId w1) as [[m|e] w2].
  - unfold try_catch, bind, parse_json, document_of.
    destruct (JSON_parse (content m)); reflexivity.
  - reflexivity.
Qed.

Lemma update_run (messageId : string) (data : json) :
  update this collection messageId data w
  = match messages_fetch_id channel messageId w1 with
    | (Rejected _, w2) =>
        (Resolved false, w2,
         (t0 ++ [MessagesFetchId channel messageId])%list)
    | (Fulfilled m, w2) =>
        match JSON_parse (content m) with
        | None =>
            (Resolved false, w2,
             (t0 ++ [MessagesFetchId channel messageId])%list)
        | Some existingData =>
            let text :=
              JSON_stringify (JObj (spread (spread [] existingData) data)) in
            match message_edit m text w2 with
            | (Fulfilled _, w3) =>
                (Resolved true, w3,
                 (t0 ++ [MessagesFetchId channel messageId;
                         MessageEdit m text])%list)
            | (Rejected _, w3) =>
                (Resolved false, w3,
                 (t0 ++ [MessagesFetchId channel messageId;
                         MessageEdit m text])%list)
            end
        end
    end.
Proof.
  unfold update. rewrite (bind_resolved _ _ _ _ _ _ resolved).
  unfold bind at 1. rewrite fetchMessageById_run.
  destruct (messages_fetch_id channel messageId w1) as [[m|e] w2];
    [| reflexivity].
  unfold try_catch, parse_json.
  destruct (JSON_parse (content m)) as [existingData|]; [| reflexivity].
  unfold bind at 1. unfold ret at 1. unfold bind.
  rewrite editMessage_run.
  destruct (message_edit m _ w2) as [[m'|e] w3]; reflexivity.
Qed.

Lemma delete_run (messageId : string) :
  delete this collection messageId w
  = match messages_fetch_id channel messageId w1 with
    | (Rejected _, w2) =>
        (Resolved false, w2,
         (t0 ++ [MessagesFetchId channel messageId])%list)
    | (Fulfilled m, w2) =>
        match message_delete m w2 with
        | (Fulfilled _, w3) =>
            (Resolved true, w3,
             (t0 ++ [MessagesFetchId channel messageId;
                     MessageDelete m])%list)
        | (Rejected e, w3) =>
            (Thrown e, w3,
             (t0 ++ [MessagesFetchId channel messageId;
                     MessageDelete m])%list)
        end
    end.
Proof.
  unfold delete. rewrite (bind_resolved _ _ _ _ _ _ resolved).
  unfold bind at 1. rewrite fetchMessageById_run.
  destruct (messages_fetch_id channel messageId w1) as [[m|e] w2];
    [| reflexivity].
  unfold bind. rewrite deleteMessage_run.
  destruct (message_delete m w2) as [[m'|e] w3]; reflexivity.
Qed.

(** The scan loop on a platform that serves the pages [ps]. *)
Lemma findAll_loop_run (cursor : option string) (wa wb : W)
    (ps : list Page) :
  serves channel cursor wa ps wb ->
  forall (fuel : nat) (results : list Document),
    List.length ps <= fuel ->
    findAll_loop fuel this channel results cursor wa
    = (Resolved (results ++ documents_of (concat ps))%list, wb,
       fetch_calls channel cursor ps).
Proof.
  induction 1 as [cursor wa p wb Hf Hlen
                 | cursor wa p wm ps wb Hf Hlen Hs IH];
    intros fuel results Hfuel;
    (destruct fuel as [|fuel]; [simpl in Hfuel; lia|]);
    cbn [findAll_loop]; unfold bind at 1;
    rewrite fetchMessages_run, Hf.
  - destruct p as [|m p].
    + simpl. rewrite List.app_nil_r. reflexivity.
    + change (Nat.eqb (List.length (m :: p)) 0) with false. cbv iota.
      unfold bind. rewrite for_of_collect_run.
      apply Nat.ltb_lt in Hlen. rewrite Hlen.
      cbn [concat fetch_calls]. rewrite List.app_nil_r. reflexivity.
  - destruct p as [|m p]; [simpl in Hlen; lia|].
    change (Nat.eqb (List.length (m :: p)) 0) with false. cbv iota.
    unfold bind. rewrite for_of_collect_run.
    destruct (Nat.ltb_spec (List.length (m :: p)) 100) as [Hlt|_]; [lia|].
    rewrite IH by (simpl in Hfuel; lia).
    cbn [concat fetch_calls].
    rewrite documents_of_app, (List.app_assoc results). reflexivity.
Qed.

Lemma findAll_run (ps : list Page) (wb : W) (fuel : nat) :
  serves channel None w1 ps wb ->
  List.length ps <= fuel ->
  findAll fuel this collection w
  = (Resolved (documents_of (concat ps)), wb,
     (t0 ++ fetch_calls channel None ps)%list).
Proof.
  intros Hs Hfuel. unfold findAll.
  rewrite (bind_resolved _ _ _ _ _ _ resolved).
  rewrite (findAll_loop_run None w1 wb ps Hs fuel [] Hfuel). reflexivity.
Qed.
End Runs.

(** ** The pagination protocol of [findAll] *)

(** C3. On every platform that answers the successive page fetches of a scan
    with pages of 100, 100 and 37 messages, [findAll] resolves after exactly
    three fetches: the first without a cursor, the second before the id of
    the last message of the first page, the third before the id of the last
    message of the second page; no fourth fetch follows the short page. *)
Theorem findAll_pagination `{engine : JSON} {W : Type} `{DiscordJs W}
    (this : DiscordRepository) (collection : string) (channel : Channel)
    (w w1 wa wb wc : W) (t0 : list Call) (p1 p2 p3 : Page) (l1 l2 : Message)
    (fuel : nat) :
  resolveCollectionChannel (discordClient this) collection w
  = (Resolved channel, w1, t0) ->
  messages_fetch channel 100 None w1 = (Fulfilled p1, wa) ->
  List.length p1 = 100 ->
  last_message p1 = Some l1 ->
  messages_fetch channel 100 (Some (id l1)) wa = (Fulfilled p2, wb) ->
  List.length p2 = 100 ->
  last_message p2 = Some l2 ->
  messages_fetch channel 100 (Some (id l2)) wb = (Fulfilled p3, wc) ->
  List.length p3 = 37 ->
  3 <= fuel ->
  exists t,
    findAll fuel this collection w
    = (Resolved (documents_of (p1 ++ p2 ++ p3)%list), wc, t)
    /\ filter is_fetch t
       = [MessagesFetch channel 100 None;
          MessagesFetch channel 100 (Some (id l1));
          MessagesFetch channel 100 (Some (id l2))]
    /\ count_calls is_fetch t = 3.
Proof.
  intros Hres Hf1 Hn1 Hl1 Hf2 Hn2 Hl2 Hf3 Hn3 Hfuel.
  assert (Hs : serves channel None w1 [p1; p2; p3] wc).
  { apply serves_full with (w1 := wa); [exact Hf1 | lia |].
    rewrite Hl1. cbn [option_map].
    apply serves_full with (w1 := wb); [exact Hf2 | lia |].
    rewrite Hl2. cbn [option_map].
    apply serves_short; [exact Hf3 | lia]. }
  exists (t0 ++ fetch_calls channel None [p1; p2; p3])%list.
  assert (Ht : filter is_fetch (t0 ++ fetch_calls channel None [p1; p2; p3])
               = [MessagesFetch channel 100 None;
                  MessagesFetch channel 100 (Some (id l1));
                  MessagesFetch channel 100 (Some (id l2))]).
  { rewrite filter_app.
    pose proof (resolve_count is_fetch _ _ _ _ _ _
                  (fun _ _ _ => eq_refl) Hres) as H0.
    unfold count_calls in H0. apply List.length_zero_iff_nil in H0.
    rewrite H0. cbn [fetch_calls]. rewrite Hl1, Hl2. reflexivity. }
  split; [| split].
  - rewrite (findAll_run this collection w w1 channel t0 Hres
               [p1; p2; p3] wc fuel Hs) by (simpl; lia).
    cbn [concat]. rewrite List.app_nil_r. reflexivity.
  - exact Ht.
  - unfold count_calls. rewrite Ht. reflexivity.
Qed.

(** ** Failures of the write requests *)

(** C5. For an existing document, a rejected edit request makes [update]
    resolve to [false] without throwing, while a rejected delete request
    makes [delete] throw the rejection to its caller. *)
Theorem mutation_failure_asymmetry `{engine : JSON} {W : Type} `{DiscordJs W}
    (this : DiscordRepository) (collection messageId : string)
    (channel : Channel) (w w1 w2 : W) (t0 : list Call) (m : Message) :
  resolveCollectionChannel (discordClient this) collection w
  = (Resolved channel, w1, t0) ->
  messages_fetch_id channel messageId w1 = (Fulfilled m, w2) ->
  (forall (data existingData : json) (e : Error) (w3 : W),
      JSON_parse (content m) = Some existingData ->
      message_edit m
        (JSON_stringify (JObj (spread (spread [] existingData) data))) w2
      = (Rejected e, w3) ->
      exists t, update this collection messageId data w
                = (Resolved false, w3, t))
  /\ (forall (e : Error) (w3 : W),
         message_delete m w2 = (Rejected e, w3) ->
         exists t, delete this collection messageId w = (Thrown e, w3, t)).
Proof.
  intros Hres Hfetch. split.
  - intros data existingData e w3 Hparse Hedit.
    rewrite (update_run this collection w w1 channel t0 Hres).
    rewrite Hfetch, Hparse. cbv zeta. rewrite Hedit.
    eexists; reflexivity.
  - intros e w3 Hdel.
    rewrite (delete_run this collection w w1 channel t0 Hres).
    rewrite Hfetch, Hdel. eexists; reflexivity.
Qed.

(** ** Envelopes that do not parse *)

(** C6. When the platform serves the history of a collection in pages,
    [findAll] resolves to the documents of exactly the messages whose
    envelope parses, in fetch order: a message whose envelope does not parse
    is left out, and nothing else is reported. *)
Theorem findAll_skips_corrupt `{engine : JSON} {W : Type} `{DiscordJs W}
    (this : DiscordRepository) (collection : string) (channel : Channel)
    (w w1 wb : W) (t0 : list Call) (ps : list Page) (fuel : nat) :
  resolveCollectionChannel (discordClient this) collection w
  = (Resolved channel, w1, t0) ->
  serves channel None w1 ps wb ->
  List.length ps <= fuel ->
  exists docs t,
    findAll fuel this collection w = (Resolved docs, wb, t)
    /\ map Some docs = map document_of (filter parses (concat ps))
    /\ List.length docs = List.length (filter parses (concat ps)).
Proof.
  intros Hres Hs Hfuel.
  assert (Hmap : forall ms,
             map Some (documents_of ms) = map document_of (filter parses ms)).
  { induction ms as [|m ms IH]; [reflexivity|].
    cbn [documents_of filter]. unfold parses, document_of.
    destruct (JSON_parse (content m)) as [data|] eqn:E.
    - cbn [map]. rewrite E. f_equal. exact IH.
    - exact IH. }
  exists (documents_of (concat ps)), (t0 ++ fetch_calls channel None ps)%list.
  split; [| split].
  - apply (findAll_run this collection w w1 channel t0 Hres ps wb fuel Hs Hfuel).
  - apply Hmap.
  - rewrite <- (length_map Some), Hmap, length_map. reflexivity.
Qed.

Lemma documents_of_In `{engine : JSON}
    (m : Message) (d : Document) (ms : list Message) :
  In m ms -> document_of m = Some d -> In d (documents_of ms).
Proof.
  intros Hin Hd. induction ms as [|m' ms IH]; [contradiction|].
  cbn [documents_of]. destruct Hin as [-> | Hin].
  - rewrite Hd. left. reflexivity.
  - destruct (document_of m'); [right|]; apply IH, Hin.
Qed.

Lemma scalar_document `{engine : JSON} (m : Message) (data : json) :
  JSON_parse (content m) = Some data ->
  is_scalar data = true ->
  document_of m = Some [("id", JStr (id m))].
Proof.
  intros Hp Hs. unfold document_of. rewrite Hp.
  destruct data; try discriminate Hs; reflexivity.
Qed.

(** ** Preconditions of the writes *)

(** C7. [update] resolves to [false] and never sends an edit request, both
    when the message is absent (the fetch by id is rejected) and when the
    message is there but its envelope does not parse. *)
Theorem update_fail_fast `{engine : JSON} {W : Type} `{DiscordJs W}
    (this : DiscordRepository) (collection messageId : string) (data : json)
    (channel : Channel) (w w1 : W) (t0 : list Call) :
  resolveCollectionChannel (discordClient this) collection w
  = (Resolved channel, w1, t0) ->
  (forall (e : Error) (w2 : W),
      messages_fetch_id channel messageId w1 = (Rejected e, w2) ->
      exists t, update this collection messageId data w
                = (Resolved false, w2, t)
                /\ count_calls is_edit t = 0)
  /\ (forall (m : Message) (w2 : W),
         messages_fetch_id channel messageId w1 = (Fulfilled m, w2) ->
         JSON_parse (content m) = None ->
         exists t, update this collection messageId data w
                   = (Resolved false, w2, t)
                   /\ count_calls is_edit t = 0).
Proof.
  intros Hres.
  pose proof (resolve_count is_edit _ _ _ _ _ _ (fun _ _ _ => eq_refl) Hres)
    as H0.
  split.
  - intros e w2 Hfetch.
    rewrite (update_run this collection w w1 channel t0 Hres), Hfetch.
    eexists; split; [reflexivity|].
    rewrite count_calls_app, H0. reflexivity.
  - intros m w2 Hfetch Hparse.
    rewrite (update_run this collection w w1 channel t0 Hres), Hfetch, Hparse.
    eexists; split; [reflexivity|].
    rewrite count_calls_app, H0. reflexivity.
Qed.

(** C8. [delete] resolves to [false] without a delete request when the
    message is absent; when the message is there it sends exactly one delete
    request, for that message, and resolves to [true] once the request is
    fulfilled. *)
Theorem delete_behaviour {W : Type} `{DiscordJs W}
    (this : DiscordRepository) (collection messageId : string)
    (channel : Channel) (w w1 : W) (t0 : list Call) :
  resolveCollectionChannel (discordClient this) collection w
  = (Resolved channel, w1, t0) ->
  (forall (e : Error) (w2 : W),
      messages_fetch_id channel messageId w1 = (Rejected e, w2) ->
      exists t, delete this collection messageId w = (Resolved false, w2, t)
                /\ count_calls is_delete t = 0)
  /\ (forall (m : Message) (w2 : W) (r : Settled Message) (w3 : W),
         messages_fetch_id channel messageId w1 = (Fulfilled m, w2) ->
         message_delete m w2 = (r, w3) ->
         exists o t, delete this collection messageId w = (o, w3, t)
                     /\ filter is_delete t = [MessageDelete m]
                     /\ count_calls is_delete t = 1
                     /\ (forall m', r = Fulfilled m' -> o = Resolved true)).
Proof.
  intros Hres.
  pose proof (resolve_count is_delete _ _ _ _ _ _ (fun _ _ _ => eq_refl) Hres)
    as H0.
  assert (Hnil : filter is_delete t0 = []).
  { unfold count_calls in H0. apply List.length_zero_iff_nil in H0. exact H0. }
  split.
  - intros e w2 Hfetch.
    rewrite (delete_run this collection w w1 channel t0 Hres), Hfetch.
    eexists; split; [reflexivity|].
    rewrite count_calls_app, H0. reflexivity.
  - intros m w2 r w3 Hfetch Hdel.
    rewrite (delete_run this collection w w1 channel t0 Hres), Hfetch, Hdel.
    destruct r as [m'|e]; eexists; eexists;
      (split; [reflexivity|]);
      (split; [rewrite filter_app, Hnil; reflexivity|]);
      (split; [rewrite count_calls_app, H0; reflexivity|]).
    + reflexivity.
    + discriminate.
Qed.

(** ** Lookups that find nothing *)

(** C9. The gateway's fetch by id never throws: it resolves, to an absent
    result whenever the request is rejected, whatever the reason.
    Consequently [findById] resolves to [null] both when the message is
    absent and when its envelope does not parse. *)
Theorem lookup_absence `{engine : JSON} {W : Type} `{DiscordJs W}
    (this : DiscordRepository) (collection messageId : string)
    (channel : Channel) (w w1 : W) (t0 : list Call) :
  (forall (dc : DiscordClient) (w0 : W),
      exists r w',
        fetchMessageById dc channel messageId w0
        = (Resolved r, w', [MessagesFetchId channel messageId])
        /\ (forall e w'',
               messages_fetch_id channel messageId w0 = (Rejected e, w'') ->
               r = None /\ w' = w''))
  /\ (resolveCollectionChannel (discordClient this) collection w
      = (Resolved channel, w1, t0) ->
      (forall (e : Error) (w2 : W),
          messages_fetch_id channel messageId w1 = (Rejected e, w2) ->
          exists t, findById this collection messageId w
                    = (Resolved None, w2, t))
      /\ (forall (m : Message) (w2 : W),
             messages_fetch_id channel messageId w1 = (Fulfilled m, w2) ->
             JSON_parse (content m) = None ->
             exists t, findById this collection messageId w
                       = (Resolved None, w2, t))).
Proof.
  split.
  - intros dc w0. rewrite fetchMessageById_run.
    destruct (messages_fetch_id channel messageId w0) as [[m|e] w'].
    + exists (Some m), w'. split; [reflexivity|]. intros e w'' E. discriminate E.
    + exists None, w'. split; [reflexivity|].
      intros e' w'' E. injection E as _ <-. split; reflexivity.
  - intros Hres. split.
    + intros e w2 Hfetch.
      rewrite (findById_run this collection w w1 channel t0 Hres), Hfetch.
      eexists; reflexivity.
    + intros m w2 Hfetch Hparse.
      rewrite (findById_run this collection w w1 channel t0 Hres), Hfetch.
      unfold document_of. rewrite Hparse. eexists; reflexivity.
Qed.

(** ** Scalar envelopes *)

(** C10. A message whose envelope parses to a number, a boolean or [null]
    is neither skipped by [findAll] nor absent for [findById]: both give the
    document whose only property is [id], the id of the message. *)
Theorem scalar_envelope_document `{engine : JSON} {W : Type} `{DiscordJs W}
    (this : DiscordRepository) (collection : string)
    (channel : Channel) (w w1 : W) (t0 : list Call) (m : Message)
    (data : json) :
  resolveCollectionChannel (discordClient this) collection w
  = (Resolved channel, w1, t0) ->
  JSON_parse (content m) = Some data ->
  is_scalar data = true ->
  (forall (messageId : string) (w2 : W),
      messages_fetch_id channel messageId w1 = (Fulfilled m, w2) ->
      exists t, findById this collection messageId w
                = (Resolved (Some [("id", JStr (id m))]), w2, t))
  /\ (forall (ps : list Page) (wb : W) (fuel : nat),
         serves channel None w1 ps wb ->
         List.length ps <= fuel ->
         In m (concat ps) ->
         exists docs t,
           findAll fuel this collection w = (Resolved docs, wb, t)
           /\ In [("id", JStr (id m))] docs).
Proof.
  intros Hres Hparse Hscalar.
  pose proof (scalar_document m data Hparse Hscalar) as Hdoc.
  split.
  - intros messageId w2 Hfetch.
    rewrite (findById_run this collection w w1 channel t0 Hres), Hfetch, Hdoc.
    eexists; reflexivity.
  - intros ps wb fuel Hs Hfuel Hin.
    rewrite (findAll_run this collection w w1 channel t0 Hres ps wb fuel Hs Hfuel).
    eexists; eexists; split; [reflexivity|].
    apply (documents_of_In m _ _ Hin Hdoc).
Qed.

(** ** Object spread *)

Lemma get_prop_set_prop_same (k : string) (v : json) (o : object) :
  get_prop k (set_prop k v o) = Some v.
Proof.
  induction o as [|[k' v'] o IH]; simpl.
  - rewrite String.eqb_refl. reflexivity.
  - destruct (k =? k') eqn:E; simpl.
    + rewrite String.eqb_refl. reflexivity.
    + destruct (key_before k k'); simpl.
      * rewrite String.eqb_refl. reflexivity.
      * rewrite E. exact IH.
Qed.

Lemma get_prop_set_prop_other (k k' : string) (v : json) (o : object) :
  k' <> k -> get_prop k' (set_prop k v o) = get_prop k' o.
Proof.
  intros Hne. apply String.eqb_neq in Hne.
  induction o as [|[k0 v0] o IH]; simpl.
  - rewrite Hne. reflexivity.
  - destruct (k =? k0) eqn:E; simpl.
    + apply String.eqb_eq in E. subst k0. rewrite Hne. reflexivity.
    + destruct (key_before k k0); simpl.
      * rewrite Hne. reflexivity.
      * rewrite IH. reflexivity.
Qed.

(** After a sequence of definitions a key holds the value of its last
    definition, or else what the object held before. *)
Lemma get_prop_define_props (k : string) (ps : list (string * json))
    (o : object) :
  get_prop k (define_props o ps)
  = match get_prop k (List.rev ps) with
    | Some v => Some v
    | None => get_prop k o
    end.
Proof.
  revert o. induction ps as [|[k' v'] ps IH] using rev_ind; intros o.
  - reflexivity.
  - unfold define_props in *. rewrite fold_left_app, List.rev_app_distr. simpl.
    destruct (k =? k') eqn:E.
    + apply String.eqb_eq in E. subst k'. apply get_prop_set_prop_same.
    + apply String.eqb_neq in E.
      rewrite (get_prop_set_prop_other _ _ _ _ E). apply IH.
Qed.

Lemma get_prop_None (k : string) (o : object) :
  get_prop k o = None <-> ~ In k (map fst o).
Proof.
  induction o as [|[k' v'] o IH]; simpl.
  - tauto.
  - destruct (String.eqb_spec k k') as [-> | Hne].
    + split; [discriminate | intros Hn; exfalso; apply Hn; left; reflexivity].
    + rewrite IH. split; intros Hn; [intros [E | Hin] | ]; try tauto.
      congruence.
Qed.

Lemma get_prop_app (k : string) (o o' : object) :
  get_prop k (o ++ o')%list
  = match get_prop k o with Some v => Some v | None => get_prop k o' end.
Proof.
  induction o as [|[k' v'] o IH]; simpl; [reflexivity|].
  destruct (k =? k'); [reflexivity | exact IH].
Qed.

(** With every key listed once, the last definition of a key is its only
    one. *)
Lemma get_prop_rev (k : string) (ps : list (string * json)) :
  NoDup (map fst ps) -> get_prop k (List.rev ps) = get_prop k ps.
Proof.
  induction ps as [|[k' v'] ps IH]; simpl; intros Hnd; [reflexivity|].
  inversion Hnd as [|? ? Hnot Hnd']; subst.
  rewrite get_prop_app, (IH Hnd'). simpl.
  destruct (String.eqb_spec k k') as [-> | Hne].
  - apply get_prop_None in Hnot. rewrite Hnot. reflexivity.
  - destruct (get_prop k ps); reflexivity.
Qed.

Lemma ordered_keys_NoDup (o : object) :
  ordered_keys o = true -> NoDup (map fst o).
Proof.
  induction o as [|[k v] o IH]; simpl; intros Ho; [constructor|].
  apply andb_true_iff in Ho as [Hk Ho]. constructor; [| apply IH, Ho].
  intros Hin. apply in_map_iff in Hin as ([k' v'] & Ek & Hin). simpl in Ek.
  rewrite forallb_forall in Hk. specialize (Hk _ Hin). simpl in Hk.
  subst k'. rewrite String.eqb_refl in Hk. discriminate Hk.
Qed.

Lemma string_of_uint_inj (d d' : uint) :
  string_of_uint d = string_of_uint d' -> d = d'.
Proof.
  revert d'. induction d; destruct d'; simpl; intros E;
    try discriminate E; try reflexivity;
    injection E as E; f_equal; apply IHd, E.
Qed.

Lemma string_of_N_inj (i j : N) : string_of_N i = string_of_N j -> i = j.
Proof.
  unfold string_of_N. intros E.
  apply DecimalN.Unsigned.to_uint_inj, string_of_uint_inj, E.
Qed.

Lemma array_props_keys (i : N) (l : list json) (k : string) :
  In k (map fst (array_props i l)) ->
  exists j, (i <= j)%N /\ k = string_of_N j.
Proof.
  revert i. induction l as [|x l IH]; simpl; intros i; [contradiction|].
  intros [<- | Hin].
  - exists i. split; [lia | reflexivity].
  - destruct (IH _ Hin) as (j & Hj & ->). exists j. split; [lia | reflexivity].
Qed.

Lemma array_props_NoDup (i : N) (l : list json) :
  NoDup (map fst (array_props i l)).
Proof.
  revert i. induction l as [|x l IH]; simpl; intros i; constructor;
    [| apply IH].
  intros Hin. destruct (array_props_keys _ _ _ Hin) as (j & Hj & E).
  apply string_of_N_inj in E. lia.
Qed.

Lemma unit_props_keys (i : N) (us : list N) (k : string) :
  In k (map fst (unit_props i us)) ->
  exists j, (i <= j)%N /\ k = string_of_N j.
Proof.
  revert i. induction us as [|u us IH]; simpl; intros i; [contradiction|].
  intros [<- | Hin].
  - exists i. split; [lia | reflexivity].
  - destruct (IH _ Hin) as (j & Hj & ->). exists j. split; [lia | reflexivity].
Qed.

Lemma string_props_NoDup (i : N) (s : string) :
  NoDup (map fst (string_props i s)).
Proof.
  unfold string_props. generalize (code_units s) as us. intros us.
  revert i. induction us as [|u us IH]; simpl; intros i; constructor;
    [| apply IH].
  intros Hin. destruct (unit_props_keys _ _ _ Hin) as (j & Hj & E).
  apply string_of_N_inj in E. lia.
Qed.

Lemma own_props_NoDup (v : json) :
  wf_json v = true -> NoDup (map fst (own_props v)).
Proof.
  destruct v as [| b | n | s | l | o]; simpl; intros Hwf;
    try constructor.
  - apply string_props_NoDup.
  - apply array_props_NoDup.
  - apply andb_true_iff in Hwf as [Ho _]. apply ordered_keys_NoDup, Ho.
Qed.

(** [{ ...target, ...source }]: a key of the source takes the source's
    value, any other key keeps the target's. *)
Lemma get_prop_spread (k : string) (target : object) (source : json) :
  wf_json source = true ->
  get_prop k (spread target source)
  = match get_prop k (own_props source) with
    | Some v => Some v
    | None => get_prop k target
    end.
Proof.
  intros Hwf. unfold spread.
  rewrite get_prop_define_props, (get_prop_rev _ _ (own_props_NoDup _ Hwf)).
  reflexivity.
Qed.

(** ** The reference [JSON.parse] yields well-formed values *)

Lemma key_before_asym (k k' : string) :
  key_before k k' = true -> key_before k' k = false.
Proof.
  unfold key_before.
  destruct (array_index k) as [i|], (array_index k') as [j|];
    try discriminate; try reflexivity.
  intros Hij. apply N.ltb_lt in Hij. apply N.ltb_ge. lia.
Qed.

Lemma key_before_later (k k' x : string) :
  key_before k k' = true ->
  key_before x k' = false ->
  x <> k /\ key_before x k = false.
Proof.
  unfold key_before. intros Hk Hx.
  destruct (array_index k) as [i|] eqn:Ei; [| discriminate Hk].
  destruct (array_index x) as [l|] eqn:El.
  - destruct (array_index k') as [j|]; [| discriminate Hx].
    apply N.ltb_lt in Hk. apply N.ltb_ge in Hx. split.
    + intros ->. rewrite Ei in El. injection El as ->. lia.
    + apply N.ltb_ge. lia.
  - split; [| reflexivity]. intros ->. congruence.
Qed.

Lemma set_prop_In (k : string) (v : json) (o : object) (kv : string * json) :
  In kv (set_prop k v o) -> kv = (k, v) \/ In kv o.
Proof.
  induction o as [|[k' v'] o IH]; simpl.
  - intuition (subst; auto).
  - destruct (k =? k'); [| destruct (key_before k k')]; simpl;
      intuition (subst; auto).
Qed.

Lemma set_prop_keys (k : string) (v : json) (o : object) (kv : string * json) :
  In kv (set_prop k v o) -> fst kv = k \/ In (fst kv) (map fst o).
Proof.
  induction o as [|[k' v'] o IH]; simpl.
  - intros [<- | []]. left. reflexivity.
  - destruct (String.eqb_spec k k') as [-> | Hne].
    + simpl. intros [<- | Hin]; [left; reflexivity|].
      right. right. apply in_map, Hin.
    + destruct (key_before k k'); simpl.
      * intros [<- | [<- | Hin]]; [left; reflexivity | right; left; reflexivity|].
        right. right. apply in_map, Hin.
      * intros [<- | Hin]; [right; left; reflexivity|].
        destruct (IH Hin) as [E | Hin']; [left; exact E | right; right; exact Hin'].
Qed.

Lemma set_prop_ordered (k : string) (v : json) (o : object) :
  ordered_keys o = true -> ordered_keys (set_prop k v o) = true.
Proof.
  induction o as [|[k' v'] o IH]; simpl; intros Ho; [reflexivity|].
  apply andb_true_iff in Ho as [Hk' Ho].
  destruct (String.eqb_spec k k') as [-> | Hne].
  - simpl. rewrite Hk', Ho. reflexivity.
  - destruct (key_before k k') eqn:Hb.
    + cbn [ordered_keys forallb fst]. rewrite Hk', Ho.
      apply String.eqb_neq in Hne. rewrite Hne, (key_before_asym _ _ Hb).
      simpl. rewrite andb_true_r.
      apply forallb_forall. intros [x vx] Hin. simpl.
      rewrite forallb_forall in Hk'. specialize (Hk' _ Hin). simpl in Hk'.
      apply andb_true_iff in Hk' as [_ Hx]. apply negb_true_iff in Hx.
      destruct (key_before_later _ _ _ Hb Hx) as [Hxk Hxb].
      rewrite Hxb. apply not_eq_sym, String.eqb_neq in Hxk. rewrite Hxk.
      reflexivity.
    + cbn [ordered_keys]. rewrite (IH Ho), andb_true_r.
      apply forallb_forall. intros [x vx] Hin.
      destruct (set_prop_keys _ _ _ _ Hin) as [E | Hin']; simpl in *.
      * subst x. rewrite Hb. apply not_eq_sym, String.eqb_neq in Hne.
        rewrite Hne. reflexivity.
      * apply in_map_iff in Hin' as ([x' vx'] & E & Hin'). simpl in E. subst x'.
        rewrite forallb_forall in Hk'. apply (Hk' _ Hin').
Qed.

Lemma set_prop_values (k : string) (v : json) (o : object) :
  wf_json v = true ->
  forallb (fun kv => wf_json (snd kv)) o = true ->
  forallb (fun kv => wf_json (snd kv)) (set_prop k v o) = true.
Proof.
  intros Hv Ho. apply forallb_forall. intros kv Hin.
  destruct (set_prop_In _ _ _ _ Hin) as [-> | Hin']; [exact Hv|].
  rewrite forallb_forall in Ho. apply Ho, Hin'.
Qed.

Lemma define_props_wf (ps : list (string * json)) (o : object) :
  forallb (fun kv => wf_json (snd kv)) ps = true ->
  wf_json (JObj o) = true ->
  wf_json (JObj (define_props o ps)) = true.
Proof.
  revert o. induction ps as [|[k v] ps IH]; simpl; intros o Hps Ho;
    [exact Ho|].
  apply andb_true_iff in Hps as [Hv Hps].
  apply andb_true_iff in Ho as [Hord Hvals].
  apply IH; [exact Hps|]. simpl.
  rewrite (set_prop_ordered _ _ _ Hord), (set_prop_values _ _ _ Hv Hvals).
  reflexivity.
Qed.

Lemma parse_unsigned_wf (neg : bool) (s : string) (v : json) (r : string) :
  parse_unsigned neg s = Some (v, r) -> wf_json v = true.
Proof.
  unfold parse_unsigned. destruct (read_digits s) as [d rest].
  assert (Hnum : match lex_fraction rest with
                 | Some (f, r2) =>
                     match lex_exponent r2 with
                     | Some (x, r3) =>
                         Some (JNum (number_of_decimal neg
                                       (N.of_uint (Decimal.app d f))
                                       (x - Z.of_nat (nb_digits f))), r3)
                     | None => None
                     end
                 | None => None
                 end = Some (v, r) -> wf_json v = true).
  { destruct (lex_fraction rest) as [[f r2]|]; [| discriminate].
    destruct (lex_exponent r2) as [[x r3]|]; [| discriminate].
    intros E. injection E as <- _. reflexivity. }
  destruct d as [| d | d | d | d | d | d | d | d | d | d];
    try discriminate; try exact Hnum.
  destruct d; try discriminate; exact Hnum.
Qed.

Lemma parse_literal_wf (s : string) (v : json) (r : string) :
  parse_literal s = Some (v, r) -> wf_json v = true.
Proof.
  unfold parse_literal.
  destruct (strip_prefix "null" s); [intros E; injection E as <- _; reflexivity|].
  destruct (strip_prefix "true" s); [intros E; injection E as <- _; reflexivity|].
  destruct (strip_prefix "false" s); [intros E; injection E as <- _; reflexivity|].
  unfold parse_number. destruct s as [|c s]; [discriminate|].
  destruct (c =? "-")%char; apply parse_unsigned_wf.
Qed.

Lemma parse_wf (fuel : nat) :
  (forall s v r, parse_value fuel s = Some (v, r) -> wf_json v = true)
  /\ (forall s vs r,
         parse_elements fuel s = Some (vs, r) -> forallb wf_json vs = true)
  /\ (forall s ms r,
         parse_members fuel s = Some (ms, r) ->
         forallb (fun kv => wf_json (snd kv)) ms = true).
Proof.
  induction fuel as [|fuel (IHv & IHe & IHm)];
    [repeat split; intros; discriminate|].
  repeat split.
  - intros s v r. cbn [parse_value].
    destruct (skip_ws s) as [|c s']; [discriminate|].
    destruct (c =? "{")%char.
    { destruct (skip_ws s') as [|c' r']; [discriminate|].
      destruct (c' =? "}")%char; [intros E; injection E as <- _; reflexivity|].
      destruct (parse_members fuel s') as [[ms r'']|] eqn:Em; [| discriminate].
      intros E. injection E as <- _.
      apply define_props_wf; [apply (IHm _ _ _ Em) | reflexivity]. }
    destruct (c =? "[")%char.
    { destruct (skip_ws s') as [|c' r']; [discriminate|].
      destruct (c' =? "]")%char; [intros E; injection E as <- _; reflexivity|].
      destruct (parse_elements fuel s') as [[vs r'']|] eqn:Ee; [| discriminate].
      intros E. injection E as <- _. simpl. apply (IHe _ _ _ Ee). }
    destruct (c =? dquote)%char.
    { destruct (parse_string s') as [[str r']|]; [| discriminate].
      intros E. injection E as <- _. reflexivity. }
    apply parse_literal_wf.
  - intros s vs r. cbn [parse_elements].
    destruct (parse_value fuel s) as [[v r0]|] eqn:Ev; [| discriminate].
    destruct (skip_ws r0) as [|c r']; [discriminate|].
    destruct (c =? ",")%char.
    { destruct (parse_elements fuel r') as [[vs' r'']|] eqn:Ee; [| discriminate].
      intros E. injection E as <- _. simpl.
      rewrite (IHv _ _ _ Ev), (IHe _ _ _ Ee). reflexivity. }
    destruct (c =? "]")%char; [| discriminate].
    intros E. injection E as <- _. simpl. rewrite (IHv _ _ _ Ev). reflexivity.
  - intros s ms r. cbn [parse_members].
    destruct (skip_ws s) as [|q s']; [discriminate|].
    destruct (negb (q =? dquote)%char); [discriminate|].
    destruct (parse_string s') as [[k r1]|]; [| discriminate].
    destruct (skip_ws r1) as [|c r2]; [discriminate|].
    destruct (negb (c =? ":")%char); [discriminate|].
    destruct (parse_value fuel r2) as [[v r3]|] eqn:Ev; [| discriminate].
    destruct (skip_ws r3) as [|c' r4]; [discriminate|].
    destruct (c' =? ",")%char.
    { destruct (parse_members fuel r4) as [[ms' r5]|] eqn:Em; [| discriminate].
      intros E. injection E as <- _. simpl.
      rewrite (IHv _ _ _ Ev), (IHm _ _ _ Em). reflexivity. }
    destruct (c' =? "}")%char; [| discriminate].
    intros E. injection E as <- _. simpl. rewrite (IHv _ _ _ Ev). reflexivity.
Qed.

(** Whatever the reference [JSON.parse] returns is a well-formed value. *)
Lemma ecma_parse_wf (s : string) (v : json) :
  ecma_parse s = Some v -> wf_json v = true.
Proof.
  unfold ecma_parse.
  destruct (parse_value (S (String.length s)) s) as [[v' r]|] eqn:E;
    [| discriminate].
  destruct (skip_ws r); [| discriminate].
  intros Ev. injection Ev as <-.
  apply (proj1 (parse_wf _) _ _ _ E).
Qed.

Lemma Ecma_JSON_lawful : @JSON_lawful Ecma_JSON.
Proof. constructor. exact ecma_parse_wf. Qed.

(** ** The reference platform *)

Lemma find_app_None {A} (f : A -> bool) (l l' : list A) :
  find f l = None -> find f (l ++ l')%list = find f l'.
Proof.
  induction l as [|x l IH]; simpl; [reflexivity|].
  destruct (f x); [discriminate | exact IH].
Qed.

(** Once a collection has resolved, it resolves again to the same channel
    without a request, in every state with the same caches. *)
Lemma discord_resolve_again (this : DiscordClient) (collection : string)
    (w wr : Discord) (channel : Channel) (t0 : list Call) :
  resolveCollectionChannel this collection w = (Resolved channel, wr, t0) ->
  messages wr = messages w
  /\ failing wr = failing w
  /\ (next_snowflake w <= next_snowflake wr)%N
  /\ forall w' : Discord,
       guilds w' = guilds wr -> channels w' = channels wr ->
       resolveCollectionChannel this collection w' = (Resolved channel, w', []).
Proof.
  unfold resolveCollectionChannel, getGuild, bind, read, ret, throw, await.
  cbn [guilds_cache_get channels_cache channels_create Discord_js].
  unfold discord_guilds_cache_get, discord_channels_cache.
  destruct (find (fun g => g =? guildId this) (guilds w)) as [g|] eqn:Eg;
    [| discriminate].
  match goal with
  | |- context [find ?f (map snd ?l)] =>
      destruct (find f (map snd l)) as [ch|] eqn:Ec
  end.
  - intros E. injection E as <- <- <-.
    repeat split; try reflexivity; try lia.
    intros w' Hg Hc. rewrite Hg, Eg, Hc, Ec. reflexivity.
  - unfold discord_channels_create.
    destruct (failing w (ChannelsCreate g collection GuildText));
      [discriminate|].
    intros E. injection E as <- <- <-. cbn [messages failing next_snowflake].
    repeat split; try reflexivity; try lia.
    intros w' Hg Hc. cbn [guilds channels] in Hg, Hc.
    rewrite Hg, Eg, Hc, filter_app, map_app, (find_app_None _ _ _ Ec).
    cbn [filter fst snd]. rewrite String.eqb_refl.
    cbn [map find type name ChannelType_eqb]. rewrite String.eqb_refl.
    reflexivity.
Qed.

Lemma get_prop_id_spread (messageId : string) (P : json) :
  wf_json P = true ->
  (has_prop "id" (own_props P) = false ->
   get_prop "id" (spread [("id", JStr messageId)] P) = Some (JStr messageId))
  /\ (forall k, k <> "id" ->
        get_prop k (spread [("id", JStr messageId)] P)
        = get_prop k (own_props P)).
Proof.
  intros Hwf. split.
  - unfold has_prop. intros Hid. rewrite (get_prop_spread _ _ _ Hwf).
    destruct (get_prop "id" (own_props P)); [discriminate Hid | reflexivity].
  - intros k Hk. rewrite (get_prop_spread _ _ _ Hwf).
    destruct (get_prop k (own_props P)); [reflexivity|].
    simpl. apply String.eqb_neq in Hk. rewrite Hk. reflexivity.
Qed.

(** ** Round trip *)

Lemma get_prop_bound (k : string) (o : object) :
  In k (map fst o) <-> exists v, get_prop k o = Some v.
Proof.
  induction o as [|[k' v'] o IH]; simpl.
  - split; [contradiction | intros [v E]; discriminate E].
  - destruct (String.eqb_spec k k') as [-> | Hne].
    + split; [intros _; exists v'; reflexivity | intros _; left; reflexivity].
    + rewrite <- IH. split; [intros [E | Hin] | intros Hin].
      * congruence.
      * exact Hin.
      * right. exact Hin.
Qed.

(** C1, as the code has it. On a platform that gives back under its id the
    text it took, for a payload [P] that is JSON-serializable (the engine
    reads it back from its text) and has no property [id] of its own:
    [insert] resolves to the id of the message sent, and [findById] on that
    id resolves to a document that has [id] bound to that id and every
    property of [P] under its key, and no other property. *)
Theorem insert_findById_roundtrip `{engine : JSON} {W : Type} `{DiscordJs W}
    (this : DiscordRepository) (collection : string) (P : json)
    (channel : Channel) (w w1 w2 w3 w4 : W) (t0 t1 : list Call)
    (sent stored : Message) :
  resolveCollectionChannel (discordClient this) collection w
  = (Resolved channel, w1, t0) ->
  channel_send channel (JSON_stringify P) w1 = (Fulfilled sent, w2) ->
  resolveCollectionChannel (discordClient this) collection w2
  = (Resolved channel, w3, t1) ->
  messages_fetch_id channel (id sent) w3 = (Fulfilled stored, w4) ->
  id stored = id sent ->
  content stored = JSON_stringify P ->
  wf_json P = true ->
  reads_back P ->
  has_prop "id" (own_props P) = false ->
  insert this collection P w
  = (Resolved (id sent), w2,
     (t0 ++ [ChannelSend channel (JSON_stringify P)])%list)
  /\ exists doc,
       findById this collection (id sent) w2
       = (Resolved (Some doc), w4,
          (t1 ++ [MessagesFetchId channel (id sent)])%list)
       /\ get_prop "id" doc = Some (JStr (id sent))
       /\ (forall k, k <> "id" -> get_prop k doc = get_prop k (own_props P))
       /\ (forall o, P = JObj o ->
           forall k, In k (map fst doc) <-> k = "id" \/ In k (map fst o)).
Proof.
  intros Hres Hsend Hres2 Hfetch Hid Hcontent Hwf Hback Hno.
  split.
  - rewrite (insert_run this collection w w1 channel t0 Hres), Hsend.
    reflexivity.
  - exists (spread [("id", JStr (id sent))] P).
    destruct (get_prop_id_spread (id sent) P Hwf) as [Hdoc_id Hdoc_k].
    split; [| split; [apply Hdoc_id, Hno | split; [exact Hdoc_k|]]].
    + rewrite (findById_run this collection w2 w3 channel t1 Hres2), Hfetch.
      unfold document_of. rewrite Hcontent, Hback, Hid. reflexivity.
    + intros o -> k. cbn [own_props] in *.
      rewrite !get_prop_bound.
      destruct (String.eqb_spec k "id") as [-> | Hk].
      * split; [left; reflexivity | intros _].
        rewrite (Hdoc_id Hno). eexists. reflexivity.
      * rewrite (Hdoc_k k Hk). split.
        -- intros Hin. right. exact Hin.
        -- intros [E | Hin]; [contradiction | exact Hin].
Qed.

(** ** Partial updates *)

Lemma own_props_values_wf (v : json) :
  wf_json v = true ->
  forallb (fun kv => wf_json (snd kv)) (own_props v) = true.
Proof.
  destruct v as [| b | n | s | l | o]; simpl; intros Hwf; try reflexivity.
  - unfold string_props. generalize (code_units s) 0%N.
    induction l as [|u us IH]; intros i; simpl; [reflexivity | apply IH].
  - revert Hwf. generalize 0%N. induction l as [|x l IH]; intros i; simpl;
      [reflexivity|].
    intros Hwf. apply andb_true_iff in Hwf as [Hx Hl].
    rewrite Hx. apply IH, Hl.
  - apply andb_true_iff in Hwf as [_ Hv]. exact Hv.
Qed.

Lemma spread_wf (target : object) (source : json) :
  wf_json (JObj target) = true ->
  wf_json source = true ->
  wf_json (JObj (spread target source)) = true.
Proof.
  intros Ht Hs. unfold spread.
  apply define_props_wf; [apply own_props_values_wf, Hs | exact Ht].
Qed.

(** C4. A successful [update] edits the message to the JSON text of the
    shallow merge of the stored payload [E] with the partial payload [D]:
    every top-level key of [D] holds [D]'s value, every other key holds
    [E]'s; a nested object is replaced as a whole. The merge of
    [{a:1,b:2}] with [{b:3}] is [{a:1,b:3}], and the merge of
    [{u:{x:1,y:2}}] with [{u:{x:9}}] is [{u:{x:9}}], not [{u:{x:9,y:2}}]. *)
Theorem update_shallow_merge `{engine : JSON} {lawful : JSON_lawful}
    {W : Type} `{DiscordJs W}
    (this : DiscordRepository) (collection messageId : string) (D E : json)
    (channel : Channel) (w w1 w2 w3 : W) (t0 : list Call)
    (m edited : Message) :
  resolveCollectionChannel (discordClient this) collection w
  = (Resolved channel, w1, t0) ->
  messages_fetch_id channel messageId w1 = (Fulfilled m, w2) ->
  JSON_parse (content m) = Some E ->
  wf_json D = true ->
  message_edit m (JSON_stringify (JObj (spread (spread [] E) D))) w2
  = (Fulfilled edited, w3) ->
  (exists t,
      update this collection messageId D w = (Resolved true, w3, t)
      /\ filter is_edit t
         = [MessageEdit m (JSON_stringify (JObj (spread (spread [] E) D)))])
  /\ wf_json (JObj (spread (spread [] E) D)) = true
  /\ (forall k,
         get_prop k (spread (spread [] E) D)
         = match get_prop k (own_props D) with
           | Some v => Some v
           | None => get_prop k (own_props E)
           end)
  /\ (E = payload_ab -> D = partial_b ->
      spread (spread [] E) D = [("a", JNum 1); ("b", JNum 3)])
  /\ (E = payload_u -> D = partial_u ->
      spread (spread [] E) D = [("u", JObj [("x", JNum 9)])]
      /\ spread (spread [] E) D
         <> [("u", JObj [("x", JNum 9); ("y", JNum 2)])]).
Proof.
  intros Hres Hfetch Hparse HD Hedit.
  pose proof (JSON_parse_wf _ _ Hparse) as HE.
  split; [| split; [| split; [| split]]].
  - rewrite (update_run this collection w w1 channel t0 Hres).
    rewrite Hfetch, Hparse. cbv zeta. rewrite Hedit.
    eexists; split; [reflexivity|].
    pose proof (resolve_count is_edit _ _ _ _ _ _ (fun _ _ _ => eq_refl) Hres)
      as H0.
    unfold count_calls in H0. apply List.length_zero_iff_nil in H0.
    rewrite filter_app, H0. reflexivity.
  - apply spread_wf; [| exact HD].
    apply spread_wf; [reflexivity | exact HE].
  - intros k. rewrite (get_prop_spread _ _ _ HD).
    destruct (get_prop k (own_props D)); [reflexivity|].
    rewrite (get_prop_spread _ _ _ HE).
    destruct (get_prop k (own_props E)); reflexivity.
  - intros -> ->. reflexivity.
  - intros -> ->. split; [reflexivity | discriminate].
Qed.

(** ** The identifier on the wire and on read *)

(** C2, as the code has it. No write takes anything out of the payload:
    [insert] sends the JSON text of the payload as given, and [update]
    edits to the JSON text of the merge, in which [id] is bound as the
    partial payload binds it, or else as the stored payload does. On read,
    the document of a message is [{ id: <message id>, ...payload }]: it has
    the payload's properties, and for a payload with no property [id] of
    its own, [findById] and [findAll] give a document whose [id] is the id
    of the message. *)
Theorem identifier_on_wire_and_read `{engine : JSON} {lawful : JSON_lawful}
    {W : Type} `{DiscordJs W}
    (this : DiscordRepository) (collection : string)
    (channel : Channel) (w w1 : W) (t0 : list Call) :
  resolveCollectionChannel (discordClient this) collection w
  = (Resolved channel, w1, t0) ->
  (forall data : json,
      exists r w2,
        insert this collection data w
        = (r, w2, (t0 ++ [ChannelSend channel (JSON_stringify data)])%list))
  /\ (forall (messageId : string) (data existingData : json) (m : Message)
             (w2 : W),
         messages_fetch_id channel messageId w1 = (Fulfilled m, w2) ->
         JSON_parse (content m) = Some existingData ->
         (exists r w3,
             update this collection messageId data w
             = (r, w3,
                (t0 ++ [MessagesFetchId channel messageId;
                        MessageEdit m
                          (JSON_stringify
                             (JObj (spread (spread [] existingData) data)))])%list))
         /\ (wf_json data = true ->
             get_prop "id" (spread (spread [] existingData) data)
             = match get_prop "id" (own_props data) with
               | Some v => Some v
               | None => get_prop "id" (own_props existingData)
               end))
  /\ (forall (messageId : string) (m : Message) (w2 : W) (data : json),
         messages_fetch_id channel messageId w1 = (Fulfilled m, w2) ->
         JSON_parse (content m) = Some data ->
         exists doc t,
           findById this collection messageId w = (Resolved (Some doc), w2, t)
           /\ doc = spread [("id", JStr (id m))] data
           /\ (forall k, k <> "id" ->
                 get_prop k doc = get_prop k (own_props data))
           /\ (has_prop "id" (own_props data) = false ->
               get_prop "id" doc = Some (JStr (id m))))
  /\ (forall (ps : list Page) (wb : W) (fuel : nat) (m : Message)
             (data : json),
         serves channel None w1 ps wb ->
         List.length ps <= fuel ->
         In m (concat ps) ->
         JSON_parse (content m) = Some data ->
         exists docs t doc,
           findAll fuel this collection w = (Resolved docs, wb, t)
           /\ In doc docs
           /\ doc = spread [("id", JStr (id m))] data
           /\ (forall k, k <> "id" ->
                 get_prop k doc = get_prop k (own_props data))
           /\ (has_prop "id" (own_props data) = false ->
               get_prop "id" doc = Some (JStr (id m)))).
Proof.
  intros Hres. split; [| split; [| split]].
  - intros data.
    rewrite (insert_run this collection w w1 channel t0 Hres).
    destruct (channel_send channel (JSON_stringify data) w1) as [[m|e] w2];
      eexists; eexists; reflexivity.
  - intros messageId data existingData m w2 Hfetch Hparse. split.
    + rewrite (update_run this collection w w1 channel t0 Hres).
      rewrite Hfetch, Hparse. cbv zeta.
      destruct (message_edit m _ w2) as [[m'|e] w3];
        eexists; eexists; reflexivity.
    + intros Hdata. rewrite (get_prop_spread _ _ _ Hdata).
      destruct (get_prop "id" (own_props data)); [reflexivity|].
      rewrite (get_prop_spread _ _ _ (JSON_parse_wf _ _ Hparse)).
      destruct (get_prop "id" (own_props existingData)); reflexivity.
  - intros messageId m w2 data Hfetch Hparse.
    rewrite (findById_run this collection w w1 channel t0 Hres), Hfetch.
    unfold document_of. rewrite Hparse.
    destruct (get_prop_id_spread (id m) data (JSON_parse_wf _ _ Hparse))
      as [Hid Hk].
    eexists; eexists; split; [reflexivity|].
    split; [reflexivity | split; [exact Hk | exact Hid]].
  - intros ps wb fuel m data Hs Hfuel Hin Hparse.
    rewrite (findAll_run this collection w w1 channel t0 Hres ps wb fuel Hs Hfuel).
    assert (Hdoc : document_of m
                   = Some (spread [("id", JStr (id m))] data))
      by (unfold document_of; rewrite Hparse; reflexivity).
    destruct (get_prop_id_spread (id m) data (JSON_parse_wf _ _ Hparse))
      as [Hid Hk].
    eexists; eexists; eexists; split; [reflexivity|].
    split; [apply (documents_of_In m _ _ Hin Hdoc)|].
    split; [reflexivity | split; [exact Hk | exact Hid]].
Qed.

(** ** A whole history, page by page, on the reference platform *)

Lemma last_message_snoc (p : Page) :
  p <> [] -> exists b l, p = (b ++ [l])%list /\ last_message p = Some l.
Proof.
  induction p as [|m p IH]; [congruence|]. intros _.
  destruct p as [|m' p'].
  - exists [], m. split; reflexivity.
  - destruct (IH ltac:(discriminate)) as (b & l & Hb & Hl).
    exists (m :: b), l. rewrite Hb. split; [reflexivity|].
    rewrite <- Hb. exact Hl.
Qed.

Lemma descending_app_r (a r : list Message) :
  descending (a ++ r)%list = true -> descending r = true.
Proof.
  induction a as [|m a IH]; simpl; [tauto|].
  destruct (snowflake (id m)); [| discriminate].
  intros Hd. apply andb_true_iff in Hd as [_ Hd]. apply IH, Hd.
Qed.

(** In a descending history the messages older than one of them are the
    ones after it. *)
Lemma descending_older (a r : list Message) (l : Message) :
  descending (a ++ l :: r)%list = true ->
  exists n, snowflake (id l) = Some n
            /\ filter (older_than n) (a ++ l :: r)%list = r.
Proof.
  induction a as [|m a IH]; cbn [List.app descending].
  - destruct (snowflake (id l)) as [n|] eqn:En; [| discriminate].
    intros Hd. apply andb_true_iff in Hd as [Hr _].
    exists n. split; [reflexivity|].
    cbn [filter]. unfold older_than at 1. rewrite En, N.ltb_irrefl.
    clear -Hr. induction r as [|x r IHr]; [reflexivity|].
    simpl in *. apply andb_true_iff in Hr as [Hx Hr].
    rewrite Hx, (IHr Hr). reflexivity.
  - destruct (snowflake (id m)) as [k|] eqn:Ek; [| discriminate].
    intros Hd. apply andb_true_iff in Hd as [Hall Hd].
    destruct (IH Hd) as (n & En & Hf). exists n. split; [exact En|].
    cbn [filter]. rewrite Hf.
    rewrite forallb_app in Hall. apply andb_true_iff in Hall as [_ Hall].
    cbn [forallb] in Hall. apply andb_true_iff in Hall as [Hl _].
    unfold older_than in Hl. rewrite En in Hl. apply N.ltb_lt in Hl.
    unfold older_than. rewrite Ek.
    destruct (N.ltb_spec k n); [lia | reflexivity].
Qed.

(** The fetch of the reference platform, when it does not fail. *)
Lemma discord_fetch_first (channel : Channel) (w : Discord) :
  failing w (MessagesFetch channel 100 None) = false ->
  messages_fetch channel 100 None w
  = (Fulfilled (firstn 100 (history w channel)), w).
Proof.
  intros Hf. cbn [messages_fetch Discord_js]. unfold discord_messages_fetch.
  rewrite Hf. reflexivity.
Qed.

Lemma discord_fetch_before (channel : Channel) (w : Discord)
    (a r : list Message) (l : Message) :
  failing w (MessagesFetch channel 100 (Some (id l))) = false ->
  history w channel = (a ++ l :: r)%list ->
  descending (history w channel) = true ->
  messages_fetch channel 100 (Some (id l)) w = (Fulfilled (firstn 100 r), w).
Proof.
  intros Hf Hh Hd. cbn [messages_fetch Discord_js].
  unfold discord_messages_fetch. rewrite Hf, Hh in *.
  destruct (descending_older _ _ _ Hd) as (n & En & Hfilter).
  rewrite En, Hfilter. reflexivity.
Qed.

(** From any point of a descending history on, the platform serves what is
    left in pages of 100. *)
Lemma discord_serves (channel : Channel) (w : Discord) :
  (forall c, is_fetch c = true -> failing w c = false) ->
  descending (history w channel) = true ->
  forall (n : nat) (a r : list Message) (cursor : option string),
    List.length r <= n ->
    history w channel = (a ++ r)%list ->
    (a = [] /\ cursor = None
     \/ exists a' l, a = (a' ++ [l])%list /\ cursor = Some (id l)) ->
    exists ps,
      serves channel cursor w ps w
      /\ concat ps = r
      /\ 100 * List.length ps <= List.length r + 100.
Proof.
  intros Hfail Hd.
  induction n as [|n IH]; intros a r cursor Hn Hh Hcur.
  - destruct r; [| simpl in Hn; lia].
    assert (Hfetch : messages_fetch channel 100 cursor w = (Fulfilled [], w)).
    { destruct Hcur as [[-> ->] | (a' & l & -> & ->)].
      - rewrite discord_fetch_first by (apply Hfail; reflexivity).
        simpl in Hh. rewrite Hh. reflexivity.
      - rewrite <- List.app_assoc in Hh.
        rewrite (discord_fetch_before channel w a' [] l)
          by (try apply Hfail; auto).
        reflexivity. }
    exists [[]]. split; [| split; [reflexivity | simpl; lia]].
    apply serves_short; [exact Hfetch | simpl; lia].
  - assert (Hfetch : messages_fetch channel 100 cursor w
                     = (Fulfilled (firstn 100 r), w)).
    { destruct Hcur as [[-> ->] | (a' & l & -> & ->)].
      - rewrite discord_fetch_first by (apply Hfail; reflexivity).
        simpl in Hh. rewrite Hh. reflexivity.
      - rewrite <- List.app_assoc in Hh.
        rewrite (discord_fetch_before channel w a' r l)
          by (try apply Hfail; auto).
        reflexivity. }
    destruct (Nat.lt_ge_cases (List.length r) 100) as [Hshort | Hfull].
    + exists [r]. rewrite firstn_all2 in Hfetch by lia.
      split; [| split; [simpl; apply List.app_nil_r | simpl; lia]].
      apply serves_short; assumption.
    + assert (Hlen : List.length (firstn 100 r) = 100)
        by (rewrite length_firstn; lia).
      destruct (last_message_snoc (firstn 100 r)) as (b & l & Hb & Hl).
      { intros E. rewrite E in Hlen. discriminate Hlen. }
      pose proof (firstn_skipn 100 r) as Hr.
      destruct (IH (a ++ firstn 100 r)%list (skipn 100 r) (Some (id l)))
        as (ps & Hs & Hc & Hp).
      * rewrite length_skipn. lia.
      * rewrite <- List.app_assoc, Hr. exact Hh.
      * right. exists (a ++ b)%list, l. split; [| reflexivity].
        rewrite Hb, List.app_assoc. reflexivity.
      * exists (firstn 100 r :: ps). split; [| split].
        -- apply serves_full with (w1 := w); [exact Hfetch | lia |].
           rewrite Hl. exact Hs.
        -- cbn [concat]. rewrite Hc. exact Hr.
        -- rewrite length_skipn in Hp. simpl List.length. lia.
Qed.

(** On the reference platform [findAll] reads a whole history: given a
    bound of more than a hundredth of its length, it resolves to the
    documents of all its messages whose envelope parses, newest first. *)
Theorem discord_findAll_history `{engine : JSON} (this : DiscordRepository)
    (collection : string) (channel : Channel) (w w1 : Discord)
    (t0 : list Call) (fuel : nat) :
  resolveCollectionChannel (discordClient this) collection w
  = (Resolved channel, w1, t0) ->
  (forall c, is_fetch c = true -> failing w1 c = false) ->
  descending (history w1 channel) = true ->
  List.length (history w1 channel) < 100 * fuel ->
  exists t,
    findAll fuel this collection w
    = (Resolved (documents_of (history w1 channel)), w1, t).
Proof.
  intros Hres Hfail Hd Hfuel.
  destruct (discord_serves channel w1 Hfail Hd
              (List.length (history w1 channel)) [] (history w1 channel) None
              (le_n _) eq_refl (or_introl (conj eq_refl eq_refl)))
    as (ps & Hs & Hc & Hp).
  rewrite (findAll_run this collection w w1 channel t0 Hres ps w1 fuel Hs)
    by lia.
  rewrite Hc. eexists. reflexivity.
Qed.

(** Sending a message keeps a history descending, as long as every id in it
    is below the next snowflake. *)
Lemma discord_send_descending (channel : Channel) (text : string)
    (w w' : Discord) (m : Message) :
  channel_send channel text w = (Fulfilled m, w') ->
  forallb (older_than (next_snowflake w)) (messages w) = true ->
  descending (messages w) = true ->
  forallb (older_than (next_snowflake w')) (messages w') = true
  /\ descending (messages w') = true.
Proof.
  cbn [channel_send Discord_js]. unfold discord_channel_send.
  destruct (failing w _); [discriminate|].
  destruct (Nat.eqb _ 0); [discriminate|].
  destruct (Nat.ltb content_limit _); [discriminate|].
  intros E Hall Hd. injection E as <- <-.
  cbn [messages next_snowflake].
  assert (Hs : snowflake (string_of_N (next_snowflake w))
               = Some (next_snowflake w)).
  { unfold snowflake, string_of_N.
    pose proof (read_digits_string_of_uint (N.to_uint (next_snowflake w)) ""
                  eq_refl) as Hr.
    rewrite append_nil_r in Hr. rewrite Hr.
    pose proof (N_to_uint_nonnil (next_snowflake w)) as Hn.
    rewrite DecimalN.Unsigned.of_to.
    destruct (N.to_uint (next_snowflake w)); try reflexivity; congruence. }
  split.
  - cbn [forallb]. unfold older_than at 1. cbn [id]. rewrite Hs.
    apply andb_true_iff. split; [apply N.ltb_lt; lia|].
    apply forallb_forall. intros x Hx.
    rewrite forallb_forall in Hall. specialize (Hall x Hx).
    unfold older_than in *. destruct (snowflake (id x)); [| discriminate].
    apply N.ltb_lt in Hall. apply N.ltb_lt. lia.
  - cbn [descending id]. rewrite Hs, Hall, Hd. reflexivity.
Qed.

(** * Further properties of the gateway and the repository *)

(** ** Resolving a collection *)

Lemma ChannelType_eqb_text (ty : ChannelType) :
  ChannelType_eqb ty GuildText = true <-> ty = GuildText.
Proof. destruct ty; simpl; split; intros E; congruence. Qed.

Section Resolving.
Context `{engine : JSON} {W : Type} `{DiscordJs W}.
Variable this : DiscordRepository.
Variables (collection : string) (w : W) (guild : Guild).
Hypothesis cached :
  guilds_cache_get w (guildId (discordClient this)) = Some guild.

Lemma resolve_found (channel : Channel) :
  find (fun channel =>
          ChannelType_eqb (type channel) GuildText
          && (name channel =? collection))
       (channels_cache w guild) = Some channel ->
  resolveCollectionChannel (discordClient this) collection w
  = (Resolved channel, w, []).
Proof.
  intros Hfind.
  unfold resolveCollectionChannel, getGuild, bind, read, ret.
  rewrite cached, Hfind. reflexivity.
Qed.

Lemma resolve_missing :
  (forall channel,
      In channel (channels_cache w guild) ->
      name channel = collection -> type channel <> GuildText) ->
  resolveCollectionChannel (discordClient this) collection w
  = match channels_create guild collection GuildText w with
    | (Fulfilled channel, w1) =>
        (Resolved channel, w1, [ChannelsCreate guild collection GuildText])
    | (Rejected e, w1) =>
        (Thrown e, w1, [ChannelsCreate guild collection GuildText])
    end.
Proof.
  intros Hnone.
  unfold resolveCollectionChannel, getGuild, bind, read, ret, await.
  rewrite cached.
  destruct (find _ (channels_cache w guild)) as [channel|] eqn:Hfind.
  - apply find_some in Hfind as [Hin Hc].
    apply andb_true_iff in Hc as [Hty Hnm].
    apply ChannelType_eqb_text in Hty. apply String.eqb_eq in Hnm.
    exfalso. apply (Hnone channel Hin Hnm Hty).
  - destruct (channels_create guild collection GuildText w) as [[c|e] w1];
      reflexivity.
Qed.
End Resolving.

(** Whatever makes the resolution of the collection throw makes every
    method of the repository throw the same, at the same point. *)
Lemma resolve_thrown_runs `{engine : JSON} {W : Type} `{DiscordJs W}
    (this : DiscordRepository) (collection messageId : string) (data : json)
    (fuel : nat) (w w1 : W) (e : Error) (t : list Call) :
  resolveCollectionChannel (discordClient this) collection w
  = (Thrown e, w1, t) ->
  insert this collection data w = (Thrown e, w1, t)
  /\ findAll fuel this collection w = (Thrown e, w1, t)
  /\ findById this collection messageId w = (Thrown e, w1, t)
  /\ update this collection messageId data w = (Thrown e, w1, t)
  /\ delete this collection messageId w = (Thrown e, w1, t).
Proof.
  intros Hres.
  unfold insert, findAll, findById, update, delete.
  repeat split; unfold bind; rewrite Hres; reflexivity.
Qed.

(** X1. With the guild cached and no text channel of the collection's name
    in it, a rejected channel creation makes all five methods throw the
    rejection, after that one request; [update] does not turn this failure
    into [false]. *)
Theorem creation_failure_propagates `{engine : JSON} {W : Type} `{DiscordJs W}
    (this : DiscordRepository) (collection messageId : string) (data : json)
    (fuel : nat) (w w1 : W) (guild : Guild) (e : Error) :
  guilds_cache_get w (guildId (discordClient this)) = Some guild ->
  (forall channel,
      In channel (channels_cache w guild) ->
      name channel = collection -> type channel <> GuildText) ->
  channels_create guild collection GuildText w = (Rejected e, w1) ->
  insert this collection data w
  = (Thrown e, w1, [ChannelsCreate guild collection GuildText])
  /\ findAll fuel this collection w
     = (Thrown e, w1, [ChannelsCreate guild collection GuildText])
  /\ findById this collection messageId w
     = (Thrown e, w1, [ChannelsCreate guild collection GuildText])
  /\ update this collection messageId data w
     = (Thrown e, w1, [ChannelsCreate guild collection GuildText])
  /\ delete this collection messageId w
     = (Thrown e, w1, [ChannelsCreate guild collection GuildText]).
Proof.
  intros Hg Hnone Hcreate. apply resolve_thrown_runs.
  rewrite (resolve_missing this collection w guild Hg Hnone), Hcreate.
  reflexivity.
Qed.

(** X2. When the configured guild is not in the client's cache, all five
    methods throw [Guild not found in cache], without any request and
    without a change of state. *)
Theorem guild_not_cached `{engine : JSON} {W : Type} `{DiscordJs W}
    (this : DiscordRepository) (collection messageId : string) (data : json)
    (fuel : nat) (w : W) :
  guilds_cache_get w (guildId (discordClient this)) = None ->
  insert this collection data w = (Thrown "Guild not found in cache", w, [])
  /\ findAll fuel this collection w
     = (Thrown "Guild not found in cache", w, [])
  /\ findById this collection messageId w
     = (Thrown "Guild not found in cache", w, [])
  /\ update this collection messageId data w
     = (Thrown "Guild not found in cache", w, [])
  /\ delete this collection messageId w
     = (Thrown "Guild not found in cache", w, []).
Proof.
  intros Hg. apply resolve_thrown_runs.
  unfold resolveCollectionChannel, getGuild, bind, read, throw.
  rewrite Hg. reflexivity.
Qed.

(** X3. Only a text channel answers the lookup by name. If the guild's
    cache holds a text channel with the collection's name, the collection
    resolves to such a channel of the cache with no request; if it holds
    none, be there a channel of that name and another type or not, the
    collection resolves to what one creation request for a text channel of
    that name gives. *)
Theorem resolve_text_channel_only {W : Type} `{DiscordJs W}
    (this : DiscordRepository) (collection : string) (w : W) (guild : Guild) :
  guilds_cache_get w (guildId (discordClient this)) = Some guild ->
  ((exists channel,
       In channel (channels_cache w guild)
       /\ name channel = collection /\ type channel = GuildText) ->
   exists channel,
     resolveCollectionChannel (discordClient this) collection w
     = (Resolved channel, w, [])
     /\ In channel (channels_cache w guild)
     /\ name channel = collection /\ type channel = GuildText)
  /\ ((forall channel,
          In channel (channels_cache w guild) ->
          name channel = collection -> type channel <> GuildText) ->
      resolveCollectionChannel (discordClient this) collection w
      = match channels_create guild collection GuildText w with
        | (Fulfilled channel, w1) =>
            (Resolved channel, w1,
             [ChannelsCreate guild collection GuildText])
        | (Rejected e, w1) =>
            (Thrown e, w1, [ChannelsCreate guild collection GuildText])
        end).
Proof.
  intros Hg. split; [| apply (resolve_missing this collection w guild Hg)].
  intros (c & Hin & Hnm & Hty).
  destruct (find (fun channel =>
                    ChannelType_eqb (type channel) GuildText
                    && (name channel =? collection))
                 (channels_cache w guild)) as [channel|] eqn:Hfind.
  - exists channel.
    split; [apply (resolve_found this collection w guild Hg channel Hfind)|].
    apply find_some in Hfind as [Hin' Hc].
    apply andb_true_iff in Hc as [Hty' Hnm'].
    apply ChannelType_eqb_text in Hty'. apply String.eqb_eq in Hnm'.
    repeat split; assumption.
  - pose proof (find_none _ _ Hfind c Hin) as Hc. simpl in Hc.
    rewrite Hty, Hnm, String.eqb_refl in Hc. discriminate Hc.
Qed.

(** ** The scan of [findAll], further *)

(** X4. On an empty collection (the first page comes back empty) [findAll]
    resolves to no document after exactly one fetch, without a cursor. *)
Theorem findAll_empty `{engine : JSON} {W : Type} `{DiscordJs W}
    (this : DiscordRepository) (collection : string) (channel : Channel)
    (w w1 w2 : W) (t0 : list Call) (fuel : nat) :
  resolveCollectionChannel (discordClient this) collection w
  = (Resolved channel, w1, t0) ->
  messages_fetch channel 100 None w1 = (Fulfilled [], w2) ->
  1 <= fuel ->
  findAll fuel this collection w
  = (Resolved [], w2, (t0 ++ [MessagesFetch channel 100 None])%list)
  /\ count_calls is_fetch (t0 ++ [MessagesFetch channel 100 None])%list = 1.
Proof.
  intros Hres Hfetch Hfuel. split.
  - apply (findAll_run this collection w w1 channel t0 Hres [[]] w2 fuel);
      [| exact Hfuel].
    apply serves_short; [exact Hfetch | simpl; lia].
  - rewrite count_calls_app,
      (resolve_count is_fetch _ _ _ _ _ _ (fun _ _ _ => eq_refl) Hres).
    reflexivity.
Qed.

Lemma count_fetch_calls (channel : Channel) (cursor : option string)
    (ps : list Page) :
  count_calls is_fetch (fetch_calls channel cursor ps) = List.length ps.
Proof.
  revert cursor. induction ps as [|p ps IH]; intros cursor; [reflexivity|].
  unfold count_calls in *. simpl. rewrite IH. reflexivity.
Qed.

Lemma findAll_loop_fails `{engine : JSON} {W : Type} `{DiscordJs W}
    (this : DiscordRepository) (channel : Channel) (cursor : option string)
    (wa wb : W) (ps : list Page) (e : Error) :
  fails_after channel cursor wa ps e wb ->
  forall (fuel : nat) (results : list Document),
    List.length ps < fuel ->
    exists t,
      findAll_loop fuel this channel results cursor wa = (Thrown e, wb, t)
      /\ count_calls is_fetch t = S (List.length ps).
Proof.
  induction 1 as [cursor wa e wb Hf
                 | cursor wa p wm ps e wb Hf Hlen Hs IH];
    intros fuel results Hfuel;
    (destruct fuel as [|fuel]; [simpl in Hfuel; lia|]);
    cbn [findAll_loop]; unfold bind at 1;
    rewrite fetchMessages_run, Hf.
  - eexists. split; reflexivity.
  - destruct p as [|m p]; [simpl in Hlen; lia|].
    change (Nat.eqb (List.length (m :: p)) 0) with false. cbv iota.
    unfold bind. rewrite for_of_collect_run.
    destruct (Nat.ltb_spec (List.length (m :: p)) 100) as [Hlt|_]; [lia|].
    destruct (IH fuel (results ++ documents_of (m :: p))%list) as (t & Ht & Hc);
      [simpl in Hfuel; lia|].
    rewrite Ht. eexists. split; [reflexivity|].
    cbn [List.app]. unfold count_calls in *. cbn [filter is_fetch List.length].
    rewrite Hc. reflexivity.
Qed.

(** X5. A page fetch that is rejected makes [findAll] throw the rejection:
    after any number of full pages, the documents gathered so far are not
    returned, and no fetch follows the rejected one. *)
Theorem findAll_fetch_failure `{engine : JSON} {W : Type} `{DiscordJs W}
    (this : DiscordRepository) (collection : string) (channel : Channel)
    (w w1 wb : W) (t0 : list Call) (ps : list Page) (e : Error)
    (fuel : nat) :
  resolveCollectionChannel (discordClient this) collection w
  = (Resolved channel, w1, t0) ->
  fails_after channel None w1 ps e wb ->
  List.length ps < fuel ->
  exists t,
    findAll fuel this collection w = (Thrown e, wb, t)
    /\ count_calls is_fetch t = S (List.length ps).
Proof.
  intros Hres Hs Hfuel. unfold findAll.
  rewrite (bind_resolved _ _ _ _ _ _ Hres).
  destruct (findAll_loop_fails this channel None w1 wb ps e Hs fuel [] Hfuel)
    as (t & Ht & Hc).
  rewrite Ht. eexists. split; [reflexivity|].
  rewrite count_calls_app,
    (resolve_count is_fetch _ _ _ _ _ _ (fun _ _ _ => eq_refl) Hres).
  exact Hc.
Qed.

Lemma findAll_loop_full_pages `{engine : JSON} {W : Type} `{DiscordJs W}
    (this : DiscordRepository) (channel : Channel) (full : W -> Prop) :
  (forall cursor w,
      full w ->
      exists p w',
        messages_fetch channel 100 cursor w = (Fulfilled p, w')
        /\ 100 <= List.length p /\ full w') ->
  forall (fuel : nat) (results : list Document) (cursor : option string)
         (w : W),
    full w ->
    exists w' t,
      findAll_loop fuel this channel results cursor w = (OutOfFuel, w', t)
      /\ count_calls is_fetch t = fuel.
Proof.
  intros Hfull. induction fuel as [|fuel IH]; intros results cursor w Hw.
  - exists w, []. split; reflexivity.
  - destruct (Hfull cursor w Hw) as (p & w1 & Hf & Hlen & Hw1).
    cbn [findAll_loop]. unfold bind at 1. rewrite fetchMessages_run, Hf.
    destruct p as [|m p]; [simpl in Hlen; lia|].
    change (Nat.eqb (List.length (m :: p)) 0) with false. cbv iota.
    unfold bind. rewrite for_of_collect_run.
    destruct (Nat.ltb_spec (List.length (m :: p)) 100) as [Hlt|_]; [lia|].
    destruct (IH (results ++ documents_of (m :: p))%list
                 (option_map id (last_message (m :: p))) w1 Hw1)
      as (w' & t & Ht & Hc).
    rewrite Ht. eexists; eexists. split; [reflexivity|].
    cbn [List.app]. unfold count_calls in *. cbn [filter is_fetch List.length].
    rewrite Hc. reflexivity.
Qed.

(** X6. The scan ends only on a short page. Against a gateway that, in
    every state it goes through ([full]), answers the fetch with a full page
    (one that ignores the cursor, say), [findAll] never returns: whatever
    bound its loop is given, it uses the bound up, one fetch per turn. *)
Theorem findAll_needs_short_page `{engine : JSON} {W : Type} `{DiscordJs W}
    (this : DiscordRepository) (collection : string) (channel : Channel)
    (w w1 : W) (t0 : list Call) (full : W -> Prop) :
  resolveCollectionChannel (discordClient this) collection w
  = (Resolved channel, w1, t0) ->
  full w1 ->
  (forall cursor w',
      full w' ->
      exists p w'',
        messages_fetch channel 100 cursor w' = (Fulfilled p, w'')
        /\ 100 <= List.length p /\ full w'') ->
  forall fuel,
    exists w' t,
      findAll fuel this collection w = (OutOfFuel, w', t)
      /\ count_calls is_fetch t = fuel.
Proof.
  intros Hres Hw1 Hfull fuel. unfold findAll.
  rewrite (bind_resolved _ _ _ _ _ _ Hres).
  destruct (findAll_loop_full_pages this channel full Hfull fuel [] None w1
              Hw1)
    as (w' & t & Ht & Hc).
  rewrite Ht. eexists; eexists. split; [reflexivity|].
  rewrite count_calls_app,
    (resolve_count is_fetch _ _ _ _ _ _ (fun _ _ _ => eq_refl) Hres).
  exact Hc.
Qed.

(** ** The requests each method can make *)

Lemma findAll_loop_requests `{engine : JSON} {W : Type} `{DiscordJs W}
    (this : DiscordRepository) (channel : Channel) (fuel : nat) :
  forall (results : list Document) (cursor : option string) (w : W),
    Forall (fun c => is_fetch c = true)
           (snd (findAll_loop fuel this channel results cursor w)).
Proof.
  induction fuel as [|fuel IH]; intros results cursor w; [constructor|].
  cbn [findAll_loop]. unfold bind at 1. rewrite fetchMessages_run.
  destruct (messages_fetch channel 100 cursor w) as [[p|e] w1];
    [| repeat constructor].
  destruct (Nat.eqb (List.length p) 0); [repeat constructor|].
  unfold bind. rewrite for_of_collect_run.
  destruct (Nat.ltb (List.length p) 100); [repeat constructor|].
  specialize (IH (results ++ documents_of p)%list
                 (option_map id (last_message p)) w1).
  destruct (findAll_loop fuel this channel _ _ w1) as [[r w2] t].
  simpl in *. constructor; [reflexivity | exact IH].
Qed.

Lemma resolve_requests {W : Type} `{DiscordJs W} (this : DiscordClient)
    (collection : string) (w : W) (r : Outcome Channel) (w1 : W)
    (t : list Call) :
  resolveCollectionChannel this collection w = (r, w1, t) ->
  Forall (fun c => is_create c = true) t.
Proof.
  intros E. destruct (resolve_trace _ _ _ _ _ _ E) as [-> | [g ->]];
    repeat constructor.
Qed.

Lemma Forall_requests_app (p q : Call -> bool) (t1 t2 : list Call) :
  Forall (fun c => p c = true) t1 ->
  Forall (fun c => q c = true) t2 ->
  Forall (fun c => p c || q c = true) (t1 ++ t2)%list.
Proof.
  intros H1 H2. apply Forall_app. split.
  - eapply Forall_impl; [| exact H1]. intros c Hc. simpl in Hc.
    rewrite Hc. reflexivity.
  - eapply Forall_impl; [| exact H2]. intros c Hc. simpl in Hc.
    rewrite Hc. apply orb_true_r.
Qed.

(** X7. What each method can ask of the platform, however the platform
    answers: besides the creation of the channel, [insert] only sends,
    [findAll] only fetches pages, [findById] only fetches by id, [update]
    only fetches by id and edits, [delete] only fetches by id and deletes.
    In particular the two reads never write and no method but [delete]
    deletes. *)
Theorem request_footprint `{engine : JSON} {W : Type} `{DiscordJs W}
    (this : DiscordRepository) (collection messageId : string) (data : json)
    (fuel : nat) (w : W) :
  Forall (fun c => is_create c || is_send c = true)
         (snd (insert this collection data w))
  /\ Forall (fun c => is_create c || is_fetch c = true)
            (snd (findAll fuel this collection w))
  /\ Forall (fun c => is_create c || is_fetch_id c = true)
            (snd (findById this collection messageId w))
  /\ Forall (fun c => is_create c || (is_fetch_id c || is_edit c) = true)
            (snd (update this collection messageId data w))
  /\ Forall (fun c => is_create c || (is_fetch_id c || is_delete c) = true)
            (snd (delete this collection messageId w)).
Proof.
  destruct (resolveCollectionChannel (discordClient this) collection w)
    as [[[channel | e |] w1] t0] eqn:Hres;
    pose proof (resolve_requests _ _ _ _ _ _ Hres) as H0.
  - rewrite (insert_run this collection w w1 channel t0 Hres),
      (findById_run this collection w w1 channel t0 Hres),
      (update_run this collection w w1 channel t0 Hres),
      (delete_run this collection w w1 channel t0 Hres).
    unfold findAll. rewrite (bind_resolved _ _ _ _ _ _ Hres).
    pose proof (findAll_loop_requests this channel fuel [] None w1) as Hloop.
    destruct (findAll_loop fuel this channel [] None w1) as [[r w2] t].
    cbn [snd] in Hloop.
    destruct (channel_send channel (JSON_stringify data) w1) as [[m|e] w2'].
    all: destruct (messages_fetch_id channel messageId w1) as [[m'|e'] w3].
    all: try destruct (JSON_parse (content m')) as [existing|]; cbv zeta.
    all: try destruct (message_edit m' _ w3) as [[m1|e1] w4].
    all: destruct (message_delete _ _) as [[m2|e2] w5] || idtac.
    all: cbn [snd]; repeat split;
      try (apply Forall_requests_app; [exact H0|]);
      try exact Hloop; repeat constructor.
  - unfold insert, findAll, findById, update, delete, bind. rewrite Hres.
    cbn [snd]. repeat split;
      (eapply Forall_impl; [| exact H0]);
      intros c Hc; simpl in Hc; rewrite Hc; reflexivity.
  - unfold insert, findAll, findById, update, delete, bind. rewrite Hres.
    cbn [snd]. repeat split;
      (eapply Forall_impl; [| exact H0]);
      intros c Hc; simpl in Hc; rewrite Hc; reflexivity.
Qed.

(** ** Degenerate payloads of [update] *)

Lemma get_prop_In (k : string) (v : json) (o : object) :
  get_prop k o = Some v -> In (k, v) o.
Proof.
  induction o as [|[k' v'] o IH]; simpl; [discriminate|].
  destruct (String.eqb_spec k k') as [-> | Hne].
  - intros E. injection E as ->. left. reflexivity.
  - intros E. right. apply IH, E.
Qed.

Lemma get_prop_unique (k : string) (v : json) (ps : object) :
  NoDup (map fst ps) -> In (k, v) ps -> get_prop k ps = Some v.
Proof.
  induction ps as [|[k' v'] ps IH]; simpl; intros Hnd Hin; [contradiction|].
  inversion Hnd as [|? ? Hnot Hnd']; subst.
  destruct Hin as [E | Hin].
  - injection E as -> ->. rewrite String.eqb_refl. reflexivity.
  - destruct (String.eqb_spec k k') as [-> | Hne]; [| apply IH; assumption].
    exfalso. apply Hnot. apply (in_map fst _ _ Hin).
Qed.

(** Defining a property an object already holds with that value changes
    nothing. *)
Lemma set_prop_same (k : string) (v : json) (o : object) :
  ordered_keys o = true -> get_prop k o = Some v -> set_prop k v o = o.
Proof.
  induction o as [|[k' v'] o IH]; simpl; intros Ho Hg; [discriminate Hg|].
  apply andb_true_iff in Ho as [Hk' Ho].
  destruct (String.eqb_spec k k') as [-> | Hne].
  - injection Hg as ->. reflexivity.
  - rewrite forallb_forall in Hk'.
    specialize (Hk' _ (get_prop_In _ _ _ Hg)). simpl in Hk'.
    apply andb_true_iff in Hk' as [_ Hb]. apply negb_true_iff in Hb.
    rewrite Hb, (IH Ho Hg). reflexivity.
Qed.

Lemma define_props_same (ps : list (string * json)) (o : object) :
  ordered_keys o = true ->
  (forall k v, In (k, v) ps -> get_prop k o = Some v) ->
  define_props o ps = o.
Proof.
  intros Ho Hps. induction ps as [|[k v] ps IH]; [reflexivity|].
  unfold define_props in *. simpl.
  rewrite (set_prop_same k v o Ho (Hps k v (or_introl eq_refl))).
  apply IH. intros k' v' Hin. apply Hps. right. exact Hin.
Qed.

(** Spreading the same source a second time changes nothing. *)
Lemma spread_idempotent (o : object) (D : json) :
  wf_json (JObj o) = true ->
  wf_json D = true ->
  spread (spread o D) D = spread o D.
Proof.
  intros Ho HD. pose proof (spread_wf o D Ho HD) as Hwf.
  cbn [wf_json] in Hwf. apply andb_true_iff in Hwf as [Hord _].
  unfold spread at 1. apply define_props_same; [exact Hord|].
  intros k v Hin. rewrite (get_prop_spread _ _ _ HD).
  rewrite (get_prop_unique k v _ (own_props_NoDup D HD) Hin). reflexivity.
Qed.

(** X8. Two edge payloads of [update]. When the stored envelope is a
    number, a boolean or [null], the edit replaces it by the partial
    payload's own properties alone. When the partial payload has no
    property at all (an empty object, or a scalar), the edit is still sent,
    with the stored object unchanged. *)
Theorem update_edge_payloads `{engine : JSON} {lawful : JSON_lawful}
    {W : Type} `{DiscordJs W}
    (this : DiscordRepository) (collection messageId : string) (D : json)
    (channel : Channel) (w w1 w2 : W) (t0 : list Call) (m : Message) :
  resolveCollectionChannel (discordClient this) collection w
  = (Resolved channel, w1, t0) ->
  messages_fetch_id channel messageId w1 = (Fulfilled m, w2) ->
  (forall E,
      JSON_parse (content m) = Some E ->
      is_scalar E = true ->
      exists r w3,
        update this collection messageId D w
        = (r, w3,
           (t0 ++ [MessagesFetchId channel messageId;
                   MessageEdit m (JSON_stringify (JObj (spread [] D)))])%list))
  /\ (forall o,
         JSON_parse (content m) = Some (JObj o) ->
         own_props D = [] ->
         exists r w3,
           update this collection messageId D w
           = (r, w3,
              (t0 ++ [MessagesFetchId channel messageId;
                      MessageEdit m (JSON_stringify (JObj o))])%list)).
Proof.
  intros Hres Hfetch. split.
  - intros E Hparse Hscalar.
    rewrite (update_run this collection w w1 channel t0 Hres).
    rewrite Hfetch, Hparse. cbv zeta.
    replace (spread [] E) with (@nil (string * json))
      by (destruct E; try discriminate Hscalar; reflexivity).
    destruct (message_edit m _ w2) as [[m'|e] w3];
      eexists; eexists; reflexivity.
  - intros o Hparse HD.
    rewrite (update_run this collection w w1 channel t0 Hres).
    rewrite Hfetch, Hparse. cbv zeta.
    pose proof (JSON_parse_wf _ _ Hparse) as Hwf.
    replace (spread (spread [] (JObj o)) D) with o.
    2:{ unfold spread at 1. rewrite HD. cbn [define_props fold_left].
        cbn [wf_json] in Hwf. apply andb_true_iff in Hwf as [Ho _].
        symmetry. apply define_props_ordered, Ho. }
    destruct (message_edit m _ w2) as [[m'|e] w3];
      eexists; eexists; reflexivity.
Qed.

(** ** The repository on the reference platform: what the writes leave *)

Lemma find_filter {A} (p q : A -> bool) (l : list A) :
  find (fun x => p x && q x) l = find p (filter q l).
Proof.
  induction l as [|x l IH]; simpl; [reflexivity|].
  destruct (q x); simpl.
  - rewrite andb_true_r. destruct (p x); [reflexivity | exact IH].
  - rewrite andb_false_r. exact IH.
Qed.

Lemma forallb_filter {A} (p f : A -> bool) (l : list A) :
  forallb p l = true -> forallb p (filter f l) = true.
Proof.
  intros Hl. apply forallb_forall. intros x Hx.
  apply filter_In in Hx as [Hx _].
  rewrite forallb_forall in Hl. apply Hl, Hx.
Qed.

Lemma descending_filter (f : Message -> bool) (ms : list Message) :
  descending ms = true -> descending (filter f ms) = true.
Proof.
  induction ms as [|m ms IH]; simpl; [reflexivity|].
  destruct (snowflake (id m)) as [n|] eqn:En; [| discriminate].
  intros Hd. apply andb_true_iff in Hd as [Hall Hd].
  destruct (f m); [| apply IH, Hd].
  simpl. rewrite En, (forallb_filter _ f _ Hall), (IH Hd). reflexivity.
Qed.

Lemma older_than_mono (n n' : N) (m : Message) :
  (n <= n')%N -> older_than n m = true -> older_than n' m = true.
Proof.
  unfold older_than. destruct (snowflake (id m)); [| discriminate].
  intros Hn Hk. apply N.ltb_lt in Hk. apply N.ltb_lt. lia.
Qed.

(** In a descending history an id names one message. *)
Lemma descending_find_id (h : list Message) (m : Message) :
  descending h = true -> In m h ->
  find (fun x => id x =? id m) h = Some m.
Proof.
  induction h as [|x h IH]; simpl; intros Hd Hin; [contradiction|].
  destruct (snowflake (id x)) as [n|] eqn:En; [| discriminate].
  apply andb_true_iff in Hd as [Hall Hd].
  destruct Hin as [-> | Hin].
  - rewrite String.eqb_refl. reflexivity.
  - destruct (String.eqb_spec (id x) (id m)) as [E | _]; [| apply IH; assumption].
    exfalso. rewrite forallb_forall in Hall. specialize (Hall m Hin).
    unfold older_than in Hall. rewrite <- E, En, N.ltb_irrefl in Hall.
    discriminate Hall.
Qed.

(** The state an edit and a delete leave. *)
Lemma discord_update_true `{engine : JSON} (this : DiscordRepository)
    (collection messageId : string) (D : json) (w w' : Discord)
    (t : list Call) :
  update this collection messageId D w = (Resolved true, w', t) ->
  exists channel wr t0 m E,
    resolveCollectionChannel (discordClient this) collection w
    = (Resolved channel, wr, t0)
    /\ failing wr (MessagesFetchId channel messageId) = false
    /\ find (fun x => (id x =? messageId) && in_channel channel x)
            (messages wr) = Some m
    /\ JSON_parse (content m) = Some E
    /\ w' = mkDiscord (guilds wr) (channels wr)
              (map (fun x =>
                      if same_message m x
                      then mkMessage (id m)
                             (JSON_stringify
                                (JObj (spread (spread [] E) D)))
                             (channelId m)
                      else x)
                   (messages wr))
              (next_snowflake wr) (failing wr).
Proof.
  intros Hup.
  destruct (resolveCollectionChannel (discordClient this) collection w)
    as [[[channel | e |] wr] t0] eqn:Hres;
    try (unfold update, bind in Hup; rewrite Hres in Hup; discriminate Hup).
  rewrite (update_run this collection w wr channel t0 Hres) in Hup.
  cbn [messages_fetch_id message_edit Discord_js] in Hup.
  unfold discord_messages_fetch_id in Hup.
  destruct (failing wr (MessagesFetchId channel messageId)) eqn:Hf;
    [discriminate Hup|].
  destruct (find _ (messages wr)) as [m|] eqn:Hfind; [| discriminate Hup].
  destruct (JSON_parse (content m)) as [E|] eqn:Hparse; [| discriminate Hup].
  cbv zeta in Hup. unfold discord_message_edit in Hup.
  destruct (failing wr (MessageEdit m _)); [discriminate Hup|].
  destruct (existsb (same_message m) (messages wr)); [| discriminate Hup].
  injection Hup as <- _.
  exists channel, wr, t0, m, E. repeat split; assumption || reflexivity.
Qed.

Lemma discord_delete_true (this : DiscordRepository)
    (collection messageId : string) (w w' : Discord) (t : list Call) :
  delete this collection messageId w = (Resolved true, w', t) ->
  exists channel wr t0 m,
    resolveCollectionChannel (discordClient this) collection w
    = (Resolved channel, wr, t0)
    /\ failing wr (MessagesFetchId channel messageId) = false
    /\ find (fun x => (id x =? messageId) && in_channel channel x)
            (messages wr) = Some m
    /\ w' = mkDiscord (guilds wr) (channels wr)
              (filter (fun x => negb (same_message m x)) (messages wr))
              (next_snowflake wr) (failing wr).
Proof.
  intros Hdel.
  destruct (resolveCollectionChannel (discordClient this) collection w)
    as [[[channel | e |] wr] t0] eqn:Hres;
    try (unfold delete, bind in Hdel; rewrite Hres in Hdel; discriminate Hdel).
  rewrite (delete_run this collection w wr channel t0 Hres) in Hdel.
  cbn [messages_fetch_id message_delete Discord_js] in Hdel.
  unfold discord_messages_fetch_id in Hdel.
  destruct (failing wr (MessagesFetchId channel messageId)) eqn:Hf;
    [discriminate Hdel|].
  destruct (find _ (messages wr)) as [m|] eqn:Hfind; [| discriminate Hdel].
  unfold discord_message_delete in Hdel.
  destruct (failing wr (MessageDelete m)); [discriminate Hdel|].
  destruct (existsb (same_message m) (messages wr)); [| discriminate Hdel].
  injection Hdel as <- _.
  exists channel, wr, t0, m. repeat split; assumption || reflexivity.
Qed.

Lemma discord_insert_resolved `{engine : JSON} (this : DiscordRepository)
    (collection : string) (P : json) (w w1 : Discord) (messageId : string)
    (t : list Call) :
  insert this collection P w = (Resolved messageId, w1, t) ->
  exists channel wr t0,
    resolveCollectionChannel (discordClient this) collection w
    = (Resolved channel, wr, t0)
    /\ failing wr (ChannelSend channel (JSON_stringify P)) = false
    /\ messageId = string_of_N (next_snowflake wr)
    /\ t = (t0 ++ [ChannelSend channel (JSON_stringify P)])%list
    /\ w1 = mkDiscord (guilds wr) (channels wr)
              (mkMessage messageId (JSON_stringify P) (channel_id channel)
                 :: messages wr)
              (N.succ (next_snowflake wr)) (failing wr).
Proof.
  intros Hins.
  destruct (resolveCollectionChannel (discordClient this) collection w)
    as [[[channel | e |] wr] t0] eqn:Hres;
    try (unfold insert, bind in Hins; rewrite Hres in Hins; discriminate Hins).
  rewrite (insert_run this collection w wr channel t0 Hres) in Hins.
  cbn [channel_send Discord_js] in Hins. unfold discord_channel_send in Hins.
  destruct (failing wr (ChannelSend channel (JSON_stringify P))) eqn:Hf;
    [discriminate Hins|].
  destruct (Nat.eqb (String.length (JSON_stringify P)) 0);
    [discriminate Hins|].
  destruct (Nat.ltb content_limit (String.length (JSON_stringify P)));
    [discriminate Hins|].
  injection Hins as <- <- <-.
  exists channel, wr, t0. repeat split; assumption || reflexivity.
Qed.

(** Looking an id up in a store where the message of that id was edited, or
    deleted. *)
Lemma find_edited (channel : Channel) (messageId text : string)
    (ms : list Message) (m : Message) :
  find (fun x => (id x =? messageId) && in_channel channel x) ms = Some m ->
  find (fun x => (id x =? messageId) && in_channel channel x)
       (map (fun x => if same_message m x
                      then mkMessage (id m) text (channelId m) else x) ms)
  = Some (mkMessage (id m) text (channelId m)).
Proof.
  intros Hfind. pose proof (find_some _ _ Hfind) as [_ Hm].
  apply andb_true_iff in Hm as [Hid Hch].
  apply String.eqb_eq in Hid. unfold in_channel in Hch.
  apply String.eqb_eq in Hch.
  induction ms as [|x ms IH]; simpl in *; [discriminate Hfind|].
  destruct ((id x =? messageId) && in_channel channel x) eqn:Hx.
  - injection Hfind as ->. unfold same_message.
    rewrite !String.eqb_refl. simpl. unfold in_channel. simpl.
    rewrite Hid, Hch, !String.eqb_refl. reflexivity.
  - assert (Hs : same_message m x = false).
    { unfold same_message. rewrite Hid, Hch.
      unfold in_channel in Hx. rewrite (String.eqb_sym messageId),
        (String.eqb_sym (channel_id channel)). exact Hx. }
    rewrite Hs, Hx. apply IH, Hfind.
Qed.

Lemma find_deleted (channel : Channel) (messageId : string)
    (ms : list Message) (m : Message) :
  find (fun x => (id x =? messageId) && in_channel channel x) ms = Some m ->
  find (fun x => (id x =? messageId) && in_channel channel x)
       (filter (fun x => negb (same_message m x)) ms)
  = None.
Proof.
  intros Hfind. pose proof (find_some _ _ Hfind) as [_ Hm].
  apply andb_true_iff in Hm as [Hid Hch].
  apply String.eqb_eq in Hid. unfold in_channel in Hch.
  apply String.eqb_eq in Hch.
  clear Hfind. induction ms as [|x ms IH]; simpl; [reflexivity|].
  destruct (same_message m x) eqn:Hs; simpl; [exact IH|].
  replace ((id x =? messageId) && in_channel channel x) with false;
    [exact IH|].
  unfold same_message in Hs. rewrite Hid, Hch in Hs.
  unfold in_channel. rewrite (String.eqb_sym (id x)),
    (String.eqb_sym (channelId x)). symmetry. exact Hs.
Qed.

Lemma discord_findById_run `{engine : JSON} (this : DiscordRepository)
    (collection messageId : string) (channel : Channel) (w w1 : Discord)
    (t0 : list Call) :
  resolveCollectionChannel (discordClient this) collection w
  = (Resolved channel, w1, t0) ->
  failing w1 (MessagesFetchId channel messageId) = false ->
  findById this collection messageId w
  = (match find (fun x => (id x =? messageId) && in_channel channel x)
                (messages w1) with
     | Some m => Resolved (document_of m)
     | None => Resolved None
     end, w1, (t0 ++ [MessagesFetchId channel messageId])%list).
Proof.
  intros Hres Hf.
  rewrite (findById_run this collection w w1 channel t0 Hres).
  cbn [messages_fetch_id Discord_js]. unfold discord_messages_fetch_id.
  rewrite Hf. destruct (find _ (messages w1)); reflexivity.
Qed.

(** X9. On the reference platform, after an [update] that resolved to
    [true] and wrote a merge the engine reads back, [findById] gives the
    merged document: under every key but [id] the partial payload's value
    where it has one, and else what [findById] gave before the update. *)
Theorem update_then_findById `{engine : JSON} {lawful : JSON_lawful}
    (this : DiscordRepository)
    (collection messageId : string) (D : json) (w w' : Discord)
    (t : list Call) :
  update this collection messageId D w = (Resolved true, w', t) ->
  wf_json D = true ->
  merge_reads_back w messageId D ->
  exists (before after : Document) (w0 : Discord) (t1 t2 : list Call),
    findById this collection messageId w = (Resolved (Some before), w0, t1)
    /\ findById this collection messageId w' = (Resolved (Some after), w', t2)
    /\ forall k, k <> "id" ->
         get_prop k after
         = match get_prop k (own_props D) with
           | Some v => Some v
           | None => get_prop k before
           end.
Proof.
  intros Hup HD Hback.
  destruct (discord_update_true _ _ _ _ _ _ _ Hup)
    as (channel & wr & t0 & m & E & Hres & Hf & Hfind & Hparse & ->).
  destruct (discord_resolve_again _ _ _ _ _ _ Hres) as (Hms & _ & _ & Hagain).
  pose proof (JSON_parse_wf _ _ Hparse) as HE.
  assert (HM : wf_json (JObj (spread (spread [] E) D)) = true)
    by (apply spread_wf; [apply spread_wf; [reflexivity | exact HE] | exact HD]).
  pose proof (find_some _ _ Hfind) as [Hin Hm].
  apply andb_true_iff in Hm as [Hid _]. apply String.eqb_eq in Hid.
  rewrite Hms in Hin. specialize (Hback m E Hin Hid Hparse).
  exists (spread [("id", JStr messageId)] E),
         (spread [("id", JStr messageId)] (JObj (spread (spread [] E) D))).
  eexists; eexists; eexists. split; [| split].
  - rewrite (discord_findById_run this collection messageId channel w wr t0
               Hres Hf), Hfind.
    unfold document_of. rewrite Hparse, Hid. reflexivity.
  - match goal with
    | |- findById _ _ _ ?w' = _ =>
        rewrite (discord_findById_run this collection messageId channel w' w'
                   [] (Hagain w' eq_refl eq_refl) Hf)
    end.
    cbn [messages]. rewrite (find_edited _ _ _ _ _ Hfind).
    unfold document_of. cbn [content id].
    rewrite Hback, Hid. reflexivity.
  - intros k Hk.
    rewrite (proj2 (get_prop_id_spread messageId _ HM) k Hk).
    rewrite (proj2 (get_prop_id_spread messageId _ HE) k Hk).
    cbn [own_props]. rewrite (get_prop_spread _ _ _ HD).
    destruct (get_prop k (own_props D)); [reflexivity|].
    rewrite (get_prop_spread _ _ _ HE).
    destruct (get_prop k (own_props E)); reflexivity.
Qed.

(** X10. On the reference platform, after a [delete] that resolved to
    [true] the document is gone for every method: [findById] resolves to
    [null], a second [delete] and any [update] resolve to [false], none of
    them with a write request. *)
Theorem delete_then_gone `{engine : JSON} (this : DiscordRepository)
    (collection messageId : string) (w w' : Discord) (t : list Call) :
  delete this collection messageId w = (Resolved true, w', t) ->
  exists channel,
    findById this collection messageId w'
    = (Resolved None, w', [MessagesFetchId channel messageId])
    /\ delete this collection messageId w'
       = (Resolved false, w', [MessagesFetchId channel messageId])
    /\ forall D,
         update this collection messageId D w'
         = (Resolved false, w', [MessagesFetchId channel messageId]).
Proof.
  intros Hdel.
  destruct (discord_delete_true _ _ _ _ _ _ Hdel)
    as (channel & wr & t0 & m & Hres & Hf & Hfind & ->).
  destruct (discord_resolve_again _ _ _ _ _ _ Hres) as (_ & _ & _ & Hagain).
  exists channel.
  match goal with
  | |- findById _ _ _ ?w' = _ /\ _ =>
      pose proof (Hagain w' eq_refl eq_refl) as Hres';
      assert (Hfetch : messages_fetch_id channel messageId w'
                       = (Rejected "Unknown Message", w'))
  end.
  { cbn [messages_fetch_id Discord_js]. unfold discord_messages_fetch_id.
    cbn [failing messages]. rewrite Hf, (find_deleted _ _ _ _ Hfind).
    reflexivity. }
  split; [| split].
  - rewrite (findById_run _ _ _ _ _ _ Hres' messageId), Hfetch. reflexivity.
  - rewrite (delete_run _ _ _ _ _ _ Hres' messageId), Hfetch. reflexivity.
  - intros D.
    rewrite (update_run _ _ _ _ _ _ Hres' messageId D), Hfetch. reflexivity.
Qed.

(** X11. On the reference platform the channel of a collection is created
    at most once: after an [insert] has resolved, the collection resolves to
    the channel the message went to with no request, and every further
    [insert] makes one request, the send to that channel. *)
Theorem channel_created_once `{engine : JSON} (this : DiscordRepository)
    (collection : string) (P : json) (w w1 : Discord) (messageId : string)
    (t : list Call) :
  insert this collection P w = (Resolved messageId, w1, t) ->
  exists channel t0,
    t = (t0 ++ [ChannelSend channel (JSON_stringify P)])%list
    /\ resolveCollectionChannel (discordClient this) collection w1
       = (Resolved channel, w1, [])
    /\ forall Q, exists r w2,
         insert this collection Q w1
         = (r, w2, [ChannelSend channel (JSON_stringify Q)]).
Proof.
  intros Hins.
  destruct (discord_insert_resolved _ _ _ _ _ _ _ Hins)
    as (channel & wr & t0 & Hres & _ & _ & -> & ->).
  destruct (discord_resolve_again _ _ _ _ _ _ Hres) as (_ & _ & _ & Hagain).
  exists channel, t0. split; [reflexivity|].
  match goal with
  | |- resolveCollectionChannel _ _ ?w' = _ /\ _ =>
      pose proof (Hagain w' eq_refl eq_refl) as Hres'
  end.
  split; [exact Hres'|]. intros Q.
  rewrite (insert_run _ _ _ _ _ _ Hres' Q).
  destruct (channel_send channel (JSON_stringify Q) _) as [[m|e] w2];
    eexists; eexists; reflexivity.
Qed.

Lemma map_edit_again (m : Message) (text : string) (ms : list Message) :
  map (fun x => if same_message (mkMessage (id m) text (channelId m)) x
                then mkMessage (id m) text (channelId m) else x)
      (map (fun x => if same_message m x
                     then mkMessage (id m) text (channelId m) else x) ms)
  = map (fun x => if same_message m x
                  then mkMessage (id m) text (channelId m) else x) ms.
Proof.
  rewrite map_map. apply map_ext. intros x.
  destruct (same_message m x) eqn:Hs.
  - unfold same_message. cbn [id channelId]. rewrite !String.eqb_refl.
    reflexivity.
  - change (same_message (mkMessage (id m) text (channelId m)) x)
      with (same_message m x). rewrite Hs. reflexivity.
Qed.

(** X12. On the reference platform a repeated [update] changes nothing:
    after an [update] that resolved to [true] and wrote a merge the engine
    reads back, the same [update] resolves to [true] again and leaves the
    state as it is (edits permitting). *)
Theorem update_idempotent `{engine : JSON} {lawful : JSON_lawful}
    (this : DiscordRepository)
    (collection messageId : string) (D : json) (w w' : Discord)
    (t : list Call) :
  update this collection messageId D w = (Resolved true, w', t) ->
  wf_json D = true ->
  merge_reads_back w messageId D ->
  (forall c, is_edit c = true -> failing w c = false) ->
  exists t2,
    update this collection messageId D w' = (Resolved true, w', t2).
Proof.
  intros Hup HD Hback Hedit.
  destruct (discord_update_true _ _ _ _ _ _ _ Hup)
    as (channel & wr & t0 & m & E & Hres & Hf & Hfind & Hparse & ->).
  destruct (discord_resolve_again _ _ _ _ _ _ Hres)
    as (Hms & Hfw & _ & Hagain).
  pose proof (JSON_parse_wf _ _ Hparse) as HE.
  assert (HO : wf_json (JObj (spread [] E)) = true)
    by (apply spread_wf; [reflexivity | exact HE]).
  assert (HM : wf_json (JObj (spread (spread [] E) D)) = true)
    by (apply spread_wf; [exact HO | exact HD]).
  pose proof (find_some _ _ Hfind) as [Hin Hm].
  apply andb_true_iff in Hm as [Hid _]. apply String.eqb_eq in Hid.
  rewrite Hms in Hin. specialize (Hback m E Hin Hid Hparse).
  match goal with
  | |- exists _, update _ _ _ _ ?w' = _ =>
      rewrite (update_run _ _ _ _ _ _ (Hagain w' eq_refl eq_refl) messageId D)
  end.
  cbn [messages_fetch_id message_edit Discord_js].
  unfold discord_messages_fetch_id. cbn [failing messages].
  rewrite Hf, (find_edited _ _ _ _ _ Hfind). cbn [content].
  rewrite Hback. cbv zeta.
  replace (spread (spread [] (JObj (spread (spread [] E) D))) D)
    with (spread (spread [] E) D).
  2:{ assert (Hsame : spread [] (JObj (spread (spread [] E) D))
                      = spread (spread [] E) D).
      { cbn [wf_json] in HM. apply andb_true_iff in HM as [Hord _].
        exact (define_props_ordered _ Hord). }
      rewrite Hsame. symmetry. apply spread_idempotent; assumption. }
  unfold discord_message_edit. cbn [failing messages id channelId].
  rewrite Hfw, Hedit by reflexivity.
  rewrite map_edit_again.
  assert (Hex : existsb
                  (same_message
                     (mkMessage (id m)
                        (JSON_stringify (JObj (spread (spread [] E) D)))
                        (channelId m)))
                  (map (fun x =>
                          if same_message m x
                          then mkMessage (id m)
                                 (JSON_stringify
                                    (JObj (spread (spread [] E) D)))
                                 (channelId m)
                          else x) (messages wr)) = true).
  { apply existsb_exists. eexists. split.
    - apply find_some in Hfind as [Hin' _].
      apply (in_map _ _ _ Hin').
    - unfold same_message at 2. rewrite !String.eqb_refl. cbn [andb].
      unfold same_message. cbn [id channelId]. rewrite !String.eqb_refl.
      reflexivity. }
  rewrite Hex. eexists. reflexivity.
Qed.

(** X13. On the reference platform [findById] and [findAll] agree: for
    every message of the collection's history, [findById] on its id gives
    the document [findAll] lists for it (or [null] where [findAll] skips
    it), and every document [findAll] lists is the one of such a message. *)
Theorem findById_agrees_with_findAll `{engine : JSON} (this : DiscordRepository)
    (collection : string) (channel : Channel) (w w1 : Discord)
    (t0 : list Call) (fuel : nat) :
  resolveCollectionChannel (discordClient this) collection w
  = (Resolved channel, w1, t0) ->
  (forall c, is_fetch c || is_fetch_id c = true -> failing w1 c = false) ->
  descending (history w1 channel) = true ->
  List.length (history w1 channel) < 100 * fuel ->
  exists docs t,
    findAll fuel this collection w = (Resolved docs, w1, t)
    /\ (forall m,
           In m (history w1 channel) ->
           findById this collection (id m) w
           = (Resolved (document_of m), w1,
              (t0 ++ [MessagesFetchId channel (id m)])%list)
           /\ (forall d, document_of m = Some d -> In d docs))
    /\ (forall d,
           In d docs ->
           exists m, In m (history w1 channel) /\ document_of m = Some d).
Proof.
  intros Hres Hfail Hd Hfuel.
  destruct (discord_findAll_history this collection channel w w1 t0 fuel Hres)
    as (t & Hall); try assumption.
  { intros c Hc. apply Hfail. rewrite Hc. reflexivity. }
  exists (documents_of (history w1 channel)), t.
  split; [exact Hall | split].
  - intros m Hin. split; [| intros d Hdoc; apply (documents_of_In m d _ Hin Hdoc)].
    rewrite (discord_findById_run this collection (id m) channel w w1 t0 Hres)
      by (apply Hfail; apply orb_true_r).
    rewrite find_filter. fold (history w1 channel).
    rewrite (descending_find_id _ _ Hd Hin). reflexivity.
  - intros d. generalize (history w1 channel) as h.
    induction h as [|m h IH]; simpl; [contradiction|].
    destruct (document_of m) as [d'|] eqn:Hm.
    + intros [<- | Hin].
      * exists m. split; [left; reflexivity | exact Hm].
      * destruct (IH Hin) as (m' & Hin' & Hm'). exists m'.
        split; [right; exact Hin' | exact Hm'].
    + intros Hin. destruct (IH Hin) as (m' & Hin' & Hm'). exists m'.
      split; [right; exact Hin' | exact Hm'].
Qed.

(** ** What a scan costs, and what it shows after a write *)

Lemma discord_page_size (channel : Channel) (cursor : option string)
    (w w' : Discord) (p : Page) :
  messages_fetch channel 100 cursor w = (Fulfilled p, w') ->
  List.length p <= 100.
Proof.
  cbn [messages_fetch Discord_js]. unfold discord_messages_fetch.
  destruct (failing w _); [discriminate|].
  destruct cursor as [c|].
  - destruct (snowflake c) as [n|]; [| discriminate].
    intros E.
    assert (Hp : firstn 100 (filter (older_than n) (history w channel)) = p)
      by congruence.
    rewrite <- Hp, length_firstn. lia.
  - intros E.
    assert (Hp : firstn 100 (history w channel) = p) by congruence.
    rewrite <- Hp, length_firstn. lia.
Qed.

Lemma discord_serves_count (channel : Channel) (cursor : option string)
    (w w' : Discord) (ps : list Page) :
  serves channel cursor w ps w' ->
  List.length ps = List.length (concat ps) / 100 + 1.
Proof.
  induction 1 as [cursor w p w' Hf Hlen
                 | cursor w p w1 ps w' Hf Hlen Hs IH].
  - cbn [concat List.length]. rewrite List.app_nil_r.
    rewrite (Nat.div_small _ _ Hlen). reflexivity.
  - pose proof (discord_page_size _ _ _ _ _ Hf) as Hle.
    cbn [concat List.length]. rewrite List.length_app, IH.
    replace (List.length p) with (1 * 100) by lia.
    rewrite Nat.div_add_l by lia. lia.
Qed.

(** X14. On the reference platform a scan of a history of [n] messages
    costs [n / 100 + 1] page fetches: a history whose length is a multiple
    of 100 (the empty one included) costs one more fetch, which comes back
    empty. *)
Theorem findAll_fetch_count `{engine : JSON} (this : DiscordRepository)
    (collection : string) (channel : Channel) (w w1 : Discord)
    (t0 : list Call) (fuel : nat) :
  resolveCollectionChannel (discordClient this) collection w
  = (Resolved channel, w1, t0) ->
  (forall c, is_fetch c = true -> failing w1 c = false) ->
  descending (history w1 channel) = true ->
  List.length (history w1 channel) < 100 * fuel ->
  exists docs t,
    findAll fuel this collection w = (Resolved docs, w1, t)
    /\ count_calls is_fetch t = List.length (history w1 channel) / 100 + 1.
Proof.
  intros Hres Hfail Hd Hfuel.
  destruct (discord_serves channel w1 Hfail Hd
              (List.length (history w1 channel)) [] (history w1 channel) None
              (le_n _) eq_refl (or_introl (conj eq_refl eq_refl)))
    as (ps & Hs & Hc & Hp).
  exists (documents_of (concat ps)), (t0 ++ fetch_calls channel None ps)%list.
  split.
  - apply (findAll_run this collection w w1 channel t0 Hres ps w1 fuel Hs).
    lia.
  - rewrite count_calls_app, count_fetch_calls,
      (resolve_count is_fetch _ _ _ _ _ _ (fun _ _ _ => eq_refl) Hres),
      (discord_serves_count _ _ _ _ _ Hs), Hc.
    reflexivity.
Qed.

Lemma snowflake_string_of_N (n : N) : snowflake (string_of_N n) = Some n.
Proof.
  unfold snowflake, string_of_N.
  pose proof (read_digits_string_of_uint (N.to_uint n) "" eq_refl) as Hr.
  rewrite append_nil_r in Hr. rewrite Hr.
  pose proof (N_to_uint_nonnil n) as Hn.
  rewrite DecimalN.Unsigned.of_to.
  destruct (N.to_uint n); try reflexivity; congruence.
Qed.

Lemma filter_length_le {A} (f : A -> bool) (l : list A) :
  List.length (filter f l) <= List.length l.
Proof.
  induction l as [|x l IH]; simpl; [lia|].
  destruct (f x); simpl; lia.
Qed.

(** X15. On the reference platform a scan after an [insert] shows the new
    document first and then what the scan showed before: for a payload [P]
    the engine reads back, [findAll] after the insert resolves to
    [{id: <new id>, ...P}] followed by the documents [findAll] resolved to
    before it. *)
Theorem insert_then_findAll `{engine : JSON} (this : DiscordRepository)
    (collection : string) (P : json) (w w1 : Discord) (messageId : string)
    (t : list Call) (fuel : nat) :
  insert this collection P w = (Resolved messageId, w1, t) ->
  reads_back P ->
  well_kept w = true ->
  (forall c, is_fetch c = true -> failing w c = false) ->
  List.length (messages w) < 100 * fuel ->
  exists docs wr t1 t2,
    findAll fuel this collection w = (Resolved docs, wr, t1)
    /\ findAll (S fuel) this collection w1
       = (Resolved (spread [("id", JStr messageId)] P :: docs), w1, t2).
Proof.
  intros Hins HP Hkept Hfail Hfuel.
  destruct (discord_insert_resolved _ _ _ _ _ _ _ Hins)
    as (channel & wr & t0 & Hres & Hf & Hid & _ & Hw1).
  destruct (discord_resolve_again _ _ _ _ _ _ Hres)
    as (Hm & Hfw & Hle & Hagain).
  apply andb_true_iff in Hkept as [Hd Hall].
  assert (Hdr : descending (history wr channel) = true).
  { unfold history. rewrite Hm. apply descending_filter, Hd. }
  assert (Hlen : List.length (history wr channel) < 100 * fuel).
  { unfold history. rewrite Hm.
    pose proof (filter_length_le (in_channel channel) (messages w)). lia. }
  destruct (discord_findAll_history this collection channel w wr t0 fuel Hres)
    as (t1 & Hbefore); try assumption.
  { rewrite Hfw. exact Hfail. }
  assert (Hh1 : history w1 channel
                = mkMessage messageId (JSON_stringify P) (channel_id channel)
                    :: history wr channel).
  { rewrite Hw1. unfold history. cbn [messages filter].
    unfold in_channel at 1. cbn [channelId]. rewrite String.eqb_refl.
    reflexivity. }
  destruct (discord_findAll_history this collection channel w1 w1 [] (S fuel))
    as (t2 & Hafter).
  - apply Hagain; rewrite Hw1; reflexivity.
  - rewrite Hw1. cbn [failing]. rewrite Hfw. exact Hfail.
  - rewrite Hh1. cbn [descending id]. rewrite Hid, snowflake_string_of_N.
    rewrite Hdr, andb_true_r. unfold history. apply forallb_filter.
    rewrite Hm. apply forallb_forall. intros x Hx.
    rewrite forallb_forall in Hall.
    apply (older_than_mono _ _ _ Hle), Hall, Hx.
  - rewrite Hh1. cbn [List.length]. lia.
  - exists (documents_of (history wr channel)), wr, t1, t2.
    split; [exact Hbefore|].
    rewrite Hafter, Hh1. cbn [documents_of]. unfold document_of at 1.
    cbn [content id]. rewrite HP. reflexivity.
Qed.

Lemma filter_comm {A} (f g : A -> bool) (l : list A) :
  filter f (filter g l) = filter g (filter f l).
Proof.
  induction l as [|x l IH]; [reflexivity|].
  simpl. destruct (g x) eqn:Eg, (f x) eqn:Ef; simpl;
    rewrite ?Eg, ?Ef, IH; reflexivity.
Qed.

(** In a descending store, taking a message out leaves the others in
    place. *)
Lemma descending_remove (ms : list Message) (m : Message) :
  descending ms = true -> In m ms ->
  exists before after,
    ms = (before ++ m :: after)%list
    /\ filter (fun x => negb (same_message m x)) ms = (before ++ after)%list.
Proof.
  induction ms as [|x ms IH]; simpl; intros Hd Hin; [contradiction|].
  destruct (snowflake (id x)) as [n|] eqn:En; [| discriminate].
  apply andb_true_iff in Hd as [Hall Hd].
  assert (Hrest : forall y, In y ms -> same_message x y = false).
  { intros y Hy. unfold same_message.
    destruct (String.eqb_spec (id x) (id y)) as [E|_]; [| reflexivity].
    exfalso. rewrite forallb_forall in Hall. specialize (Hall y Hy).
    unfold older_than in Hall. rewrite <- E, En, N.ltb_irrefl in Hall.
    discriminate Hall. }
  destruct Hin as [-> | Hin].
  - exists [], ms. split; [reflexivity|].
    unfold same_message at 1. rewrite !String.eqb_refl. cbn [andb negb].
    cbn [List.app]. clear IH Hall Hd En.
    induction ms as [|y ms IH]; [reflexivity|].
    simpl. rewrite (Hrest y (or_introl eq_refl)). cbn [negb].
    f_equal. apply IH. intros z Hz. apply Hrest. right. exact Hz.
  - destruct (IH Hd Hin) as (before & after & -> & Hfil).
    exists (x :: before), after. split; [reflexivity|].
    assert (Hx : same_message m x = false).
    { pose proof (Hrest m Hin) as Hs. unfold same_message in *.
      rewrite (String.eqb_sym (id m)), (String.eqb_sym (channelId m)).
      exact Hs. }
    rewrite Hx. cbn [negb]. rewrite Hfil. reflexivity.
Qed.

(** X16. On the reference platform a scan after a [delete] that resolved
    to [true] shows the history without the deleted message, the other
    messages in their places: the history was [before ++ m :: after] with
    [m] the message of that id, and [findAll] now resolves to the documents
    of [before ++ after]. *)
Theorem delete_then_findAll `{engine : JSON} (this : DiscordRepository)
    (collection messageId : string) (w w' : Discord) (t : list Call)
    (fuel : nat) :
  delete this collection messageId w = (Resolved true, w', t) ->
  descending (messages w) = true ->
  (forall c, is_fetch c = true -> failing w c = false) ->
  List.length (messages w) < 100 * fuel ->
  exists channel wr t0 before m after t1 t2,
    resolveCollectionChannel (discordClient this) collection w
    = (Resolved channel, wr, t0)
    /\ id m = messageId
    /\ history wr channel = (before ++ m :: after)%list
    /\ findAll fuel this collection w
       = (Resolved (documents_of (before ++ m :: after)), wr, t1)
    /\ findAll fuel this collection w'
       = (Resolved (documents_of (before ++ after)), w', t2).
Proof.
  intros Hdel Hd Hfail Hfuel.
  destruct (discord_delete_true _ _ _ _ _ _ Hdel)
    as (channel & wr & t0 & m & Hres & Hf & Hfind & Hw').
  destruct (discord_resolve_again _ _ _ _ _ _ Hres)
    as (Hm & Hfw & _ & Hagain).
  rewrite find_filter in Hfind. fold (history wr channel) in Hfind.
  pose proof (find_some _ _ Hfind) as [Hin Hid].
  apply String.eqb_eq in Hid.
  assert (Hdr : descending (history wr channel) = true).
  { unfold history. rewrite Hm. apply descending_filter, Hd. }
  assert (Hlen : List.length (history wr channel) < 100 * fuel).
  { unfold history. rewrite Hm.
    pose proof (filter_length_le (in_channel channel) (messages w)). lia. }
  destruct (descending_remove _ _ Hdr Hin) as (before & after & Hh & Hfil).
  assert (Hh' : history w' channel = (before ++ after)%list).
  { rewrite Hw'. unfold history. cbn [messages].
    rewrite <- Hfil. unfold history. apply filter_comm. }
  destruct (discord_findAll_history this collection channel w wr t0 fuel Hres)
    as (t1 & Hbefore); try assumption.
  { rewrite Hfw. exact Hfail. }
  destruct (discord_findAll_history this collection channel w' w' [] fuel)
    as (t2 & Hafter).
  - apply Hagain; rewrite Hw'; reflexivity.
  - rewrite Hw'. cbn [failing]. rewrite Hfw. exact Hfail.
  - rewrite Hh'. rewrite <- Hfil. apply descending_filter, Hdr.
  - rewrite Hh'. rewrite Hh, List.length_app in Hlen.
    rewrite List.length_app. cbn [List.length] in Hlen. lia.
  - exists channel, wr, t0, before, m, after, t1, t2.
    rewrite Hbefore, Hafter, Hh, Hh'.
    repeat split; assumption || reflexivity.
Qed.

(** X17. [insert] has no handler of its own: when the platform rejects the
    send, [insert] throws that rejection, and the send is the last request
    it made. *)
Theorem insert_send_failure `{engine : JSON} {W : Type} `{DiscordJs W}
    (this : DiscordRepository) (collection : string) (data : json)
    (channel : Channel) (w w1 w2 : W) (t0 : list Call) (e : Error) :
  resolveCollectionChannel (discordClient this) collection w
  = (Resolved channel, w1, t0) ->
  channel_send channel (JSON_stringify data) w1 = (Rejected e, w2) ->
  insert this collection data w
  = (Thrown e, w2, (t0 ++ [ChannelSend channel (JSON_stringify data)])%list)
  /\ count_calls is_send
       (t0 ++ [ChannelSend channel (JSON_stringify data)])%list = 1.
Proof.
  intros Hres Hsend. split.
  - rewrite (insert_run this collection w w1 channel t0 Hres), Hsend.
    reflexivity.
  - rewrite count_calls_app,
      (resolve_count is_send _ _ _ _ _ _ (fun _ _ _ => eq_refl) Hres).
    reflexivity.
Qed.

(** * The theorems at sample data *)

#[export] Existing Instance Ecma_JSON.
#[export] Existing Instance Ecma_JSON_lawful.

(** ** The claims *)

Lemma insert_findById_roundtrip_witness :
  insert sample_repository "users" payload_ab (discord_with [] quiet)
  = (Resolved "1000", discord_holding payload_ab,
     [ChannelSend users (JSON_stringify payload_ab)])
  /\ exists doc,
       findById sample_repository "users" "1000" (discord_holding payload_ab)
       = (Resolved (Some doc), discord_holding payload_ab,
          [MessagesFetchId users "1000"])
       /\ get_prop "id" doc = Some (JStr "1000")
       /\ (forall k, k <> "id" ->
             get_prop k doc = get_prop k (own_props payload_ab))
       /\ (forall o, payload_ab = JObj o ->
           forall k, In k (map fst doc) <-> k = "id" \/ In k (map fst o)).
Proof.
  apply (@insert_findById_roundtrip Ecma_JSON Discord Discord_js
           sample_repository "users" payload_ab users
           (discord_with [] quiet) (discord_with [] quiet)
           (discord_holding payload_ab) (discord_holding payload_ab)
           (discord_holding payload_ab) [] []
           (mkMessage "1000" (JSON_stringify payload_ab) "500")
           (mkMessage "1000" (JSON_stringify payload_ab) "500"));
    vm_compute; reflexivity.
Defined.

Lemma findAll_pagination_witness :
  exists t,
    findAll 3 sample_repository "users" paged_discord
    = (Resolved (documents_of (numbered_messages 237)), paged_discord, t)
    /\ filter is_fetch t
       = [MessagesFetch users 100 None;
          MessagesFetch users 100 (Some "138");
          MessagesFetch users 100 (Some "38")]
    /\ count_calls is_fetch t = 3.
Proof.
  apply (@findAll_pagination Ecma_JSON Discord Discord_js
           sample_repository "users"
           users paged_discord paged_discord paged_discord paged_discord
           paged_discord []
           (firstn 100 (numbered_messages 237))
           (firstn 100 (skipn 100 (numbered_messages 237)))
           (skipn 200 (numbered_messages 237))
           (mkMessage "138"
              (JSON_stringify (JObj [("index", JNum 138)])) "500")
           (mkMessage "38"
              (JSON_stringify (JObj [("index", JNum 38)])) "500")
           3);
    vm_compute; reflexivity.
Defined.

Lemma update_shallow_merge_witness :
  (exists t,
      update sample_repository "users" "1000" partial_b
        (discord_holding payload_ab)
      = (Resolved true,
         discord_holding (JObj [("a", JNum 1); ("b", JNum 3)]), t))
  /\ (exists t,
         update sample_repository "users" "1000" partial_u
           (discord_holding payload_u)
         = (Resolved true,
            discord_holding (JObj [("u", JObj [("x", JNum 9)])]), t))
  /\ spread (spread [] payload_ab) partial_b = [("a", JNum 1); ("b", JNum 3)]
  /\ spread (spread [] payload_u) partial_u = [("u", JObj [("x", JNum 9)])].
Proof.
  destruct (@update_shallow_merge Ecma_JSON Ecma_JSON_lawful Discord
              Discord_js sample_repository
              "users" "1000" partial_b payload_ab users
              (discord_holding payload_ab) (discord_holding payload_ab)
              (discord_holding payload_ab)
              (discord_holding (JObj [("a", JNum 1); ("b", JNum 3)])) []
              (mkMessage "1000" (JSON_stringify payload_ab) "500")
              (mkMessage "1000"
                 (JSON_stringify (JObj [("a", JNum 1); ("b", JNum 3)])) "500")
              ltac:(vm_compute; reflexivity) ltac:(vm_compute; reflexivity)
              ltac:(vm_compute; reflexivity) ltac:(vm_compute; reflexivity)
              ltac:(vm_compute; reflexivity))
    as ((t & Hrun & _) & _ & _ & Hab & _).
  destruct (@update_shallow_merge Ecma_JSON Ecma_JSON_lawful Discord
              Discord_js sample_repository
              "users" "1000" partial_u payload_u users
              (discord_holding payload_u) (discord_holding payload_u)
              (discord_holding payload_u)
              (discord_holding (JObj [("u", JObj [("x", JNum 9)])])) []
              (mkMessage "1000" (JSON_stringify payload_u) "500")
              (mkMessage "1000"
                 (JSON_stringify (JObj [("u", JObj [("x", JNum 9)])])) "500")
              ltac:(vm_compute; reflexivity) ltac:(vm_compute; reflexivity)
              ltac:(vm_compute; reflexivity) ltac:(vm_compute; reflexivity)
              ltac:(vm_compute; reflexivity))
    as ((t' & Hrun' & _) & _ & _ & _ & Hu).
  split; [exists t; exact Hrun | split; [exists t'; exact Hrun' | split]].
  - apply Hab; reflexivity.
  - apply Hu; reflexivity.
Defined.

Lemma mutation_failure_asymmetry_witness :
  (exists t,
      update sample_repository "users" "3" (JObj [("age", JNum 31)])
        broken_discord
      = (Resolved false, broken_discord, t))
  /\ (exists t,
         delete sample_repository "users" "3" broken_discord
         = (Thrown "Missing Permissions", broken_discord, t)).
Proof.
  destruct (@mutation_failure_asymmetry Ecma_JSON Discord Discord_js
              sample_repository
              "users" "3" users broken_discord broken_discord broken_discord
              [] charlie
              ltac:(vm_compute; reflexivity) ltac:(vm_compute; reflexivity))
    as [Hupdate Hdelete].
  split.
  - apply (Hupdate (JObj [("age", JNum 31)])
             (JObj [("name", JStr "Charlie")]) "Missing Access");
      vm_compute; reflexivity.
  - apply Hdelete. vm_compute; reflexivity.
Defined.

Lemma mixed_messages_served :
  serves users None mixed_discord [mixed_messages] mixed_discord.
Proof. apply serves_short; [reflexivity | simpl; lia]. Defined.

Lemma decimal_messages_served :
  serves users None decimal_discord [decimal_messages] decimal_discord.
Proof. apply serves_short; [reflexivity | simpl; lia]. Defined.

Lemma findAll_skips_corrupt_witness :
  (exists docs t,
      findAll 1 sample_repository "users" mixed_discord
      = (Resolved docs, mixed_discord, t)
      /\ map Some docs
         = [Some [("id", JStr "4")];
            Some [("id", JStr "3"); ("name", JStr "Charlie")];
            Some [("id", JStr "1"); ("name", JStr "Alice")]]
      /\ List.length docs = 3)
  /\ (exists docs t,
         findAll 1 sample_repository "users" decimal_discord
         = (Resolved docs, decimal_discord, t)
         /\ map Some docs
            = [Some [("id", JStr "8")];
               Some [("id", JStr "7"); ("p", JNum (decimal 15 (-1)));
                     ("k", JArr [JNum (decimal 25 (-2)); JNum 2000])];
               Some [("id", JStr "6"); ("n", JNum 12345678901234567000)]]
         /\ List.length docs = 3).
Proof.
  split.
  - apply (@findAll_skips_corrupt Ecma_JSON Discord Discord_js
             sample_repository "users"
             users mixed_discord mixed_discord mixed_discord
             [] [mixed_messages] 1 ltac:(vm_compute; reflexivity)
             mixed_messages_served (le_n 1)).
  - destruct (@findAll_skips_corrupt Ecma_JSON Discord Discord_js
                sample_repository "users"
                users decimal_discord decimal_discord decimal_discord
                [] [decimal_messages] 1 ltac:(vm_compute; reflexivity)
                decimal_messages_served (le_n 1))
      as (docs & t & Hrun & Hdocs & Hlen).
    exists docs, t. split; [exact Hrun | split].
    + rewrite Hdocs. vm_compute. reflexivity.
    + rewrite Hlen. vm_compute. reflexivity.
Defined.

Lemma update_fail_fast_witness :
  (exists t,
      update sample_repository "users" "77" (JObj [("age", JNum 31)])
        mixed_discord
      = (Resolved false, mixed_discord, t)
      /\ count_calls is_edit t = 0)
  /\ (exists t,
         update sample_repository "users" "2" (JObj [("age", JNum 31)])
           mixed_discord
         = (Resolved false, mixed_discord, t)
         /\ count_calls is_edit t = 0)
  /\ (exists w' t,
         update sample_repository "users" "7" (JObj [("age", JNum 31)])
           decimal_discord
         = (Resolved true, w', t)
         /\ count_calls is_edit t = 1).
Proof.
  split; [| split].
  - apply (proj1 (@update_fail_fast Ecma_JSON Discord Discord_js
                    sample_repository
                    "users" "77" (JObj [("age", JNum 31)]) users
                    mixed_discord mixed_discord []
                    ltac:(vm_compute; reflexivity))
             "Unknown Message").
    vm_compute; reflexivity.
  - apply (proj2 (@update_fail_fast Ecma_JSON Discord Discord_js
                    sample_repository
                    "users" "2" (JObj [("age", JNum 31)]) users
                    mixed_discord mixed_discord []
                    ltac:(vm_compute; reflexivity))
             corrupt);
      vm_compute; reflexivity.
  - eexists; eexists. split; vm_compute; reflexivity.
Defined.

Lemma delete_behaviour_witness :
  (exists t,
      delete sample_repository "users" "77" mixed_discord
      = (Resolved false, mixed_discord, t)
      /\ count_calls is_delete t = 0)
  /\ (exists o t,
         delete sample_repository "users" "3" mixed_discord
         = (o, discord_with [five; corrupt; alice] quiet, t)
         /\ o = Resolved true
         /\ count_calls is_delete t = 1).
Proof.
  split.
  - apply (proj1 (@delete_behaviour Discord Discord_js sample_repository
                    "users" "77" users mixed_discord mixed_discord []
                    ltac:(vm_compute; reflexivity))
             "Unknown Message").
    vm_compute; reflexivity.
  - destruct (proj2 (@delete_behaviour Discord Discord_js sample_repository
                       "users" "3" users mixed_discord mixed_discord []
                       ltac:(vm_compute; reflexivity))
                charlie mixed_discord (Fulfilled charlie)
                (discord_with [five; corrupt; alice] quiet)
                ltac:(vm_compute; reflexivity) ltac:(vm_compute; reflexivity))
      as (o & t & Hrun & _ & Hcount & Htrue).
    exists o, t. split; [exact Hrun | split; [| exact Hcount]].
    apply (Htrue _ eq_refl).
Defined.

Lemma lookup_absence_witness :
  (exists r w',
      fetchMessageById (discordClient sample_repository) users "77"
        mixed_discord
      = (Resolved r, w', [MessagesFetchId users "77"])
      /\ r = None)
  /\ (exists t,
         findById sample_repository "users" "77" mixed_discord
         = (Resolved None, mixed_discord, t))
  /\ (exists t,
         findById sample_repository "users" "2" mixed_discord
         = (Resolved None, mixed_discord, t))
  /\ (exists doc t,
         findById sample_repository "users" "7" decimal_discord
         = (Resolved (Some doc), decimal_discord, t)).
Proof.
  destruct (@lookup_absence Ecma_JSON Discord Discord_js
              sample_repository "users" "77"
              users mixed_discord mixed_discord []) as [Hgateway Hfind].
  split; [| split; [| split]].
  - destruct (Hgateway (discordClient sample_repository) mixed_discord)
      as (r & w' & Hrun & Habsent).
    exists r, w'. split; [exact Hrun|].
    apply (Habsent "Unknown Message" mixed_discord).
    vm_compute; reflexivity.
  - apply (proj1 (Hfind ltac:(vm_compute; reflexivity)) "Unknown Message").
    vm_compute; reflexivity.
  - apply (proj2 (proj2 (@lookup_absence Ecma_JSON Discord Discord_js
                           sample_repository
                           "users" "2" users mixed_discord mixed_discord [])
                    ltac:(vm_compute; reflexivity))
             corrupt);
      vm_compute; reflexivity.
  - eexists; eexists. vm_compute; reflexivity.
Defined.

Lemma scalar_envelope_document_witness :
  (exists t,
      findById sample_repository "users" "4" mixed_discord
      = (Resolved (Some [("id", JStr "4")]), mixed_discord, t))
  /\ (exists docs t,
         findAll 1 sample_repository "users" mixed_discord
         = (Resolved docs, mixed_discord, t)
         /\ In [("id", JStr "4")] docs)
  /\ (exists t,
         findById sample_repository "users" "8" decimal_discord
         = (Resolved (Some [("id", JStr "8")]), decimal_discord, t))
  /\ (exists docs t,
         findAll 1 sample_repository "users" decimal_discord
         = (Resolved docs, decimal_discord, t)
         /\ In [("id", JStr "8")] docs).
Proof.
  destruct (@scalar_envelope_document Ecma_JSON Discord Discord_js
              sample_repository
              "users" users mixed_discord mixed_discord [] five (JNum 5)
              ltac:(vm_compute; reflexivity) ltac:(vm_compute; reflexivity)
              ltac:(reflexivity)) as [Hfind Hall].
  destruct (@scalar_envelope_document Ecma_JSON Discord Discord_js
              sample_repository
              "users" users decimal_discord decimal_discord [] half
              (JNum (decimal 15 (-1)))
              ltac:(vm_compute; reflexivity) ltac:(vm_compute; reflexivity)
              ltac:(reflexivity)) as [Hfind' Hall'].
  split; [| split; [| split]].
  - apply (Hfind "4"). vm_compute; reflexivity.
  - apply (Hall [mixed_messages] mixed_discord 1
             mixed_messages_served (le_n 1)).
    left. reflexivity.
  - apply (Hfind' "8"). vm_compute; reflexivity.
  - apply (Hall' [decimal_messages] decimal_discord 1
             decimal_messages_served (le_n 1)).
    left. reflexivity.
Defined.

Lemma identifier_on_wire_and_read_witness :
  (exists r w2,
      insert sample_repository "users" payload_with_id mixed_discord
      = (r, w2, [ChannelSend users (JSON_stringify payload_with_id)]))
  /\ ((exists r w3,
          update sample_repository "users" "3" (JObj [("id", JStr "y")])
            mixed_discord
          = (r, w3,
             [MessagesFetchId users "3";
              MessageEdit charlie
                (JSON_stringify
                   (JObj [("name", JStr "Charlie"); ("id", JStr "y")]))]))
      /\ get_prop "id"
           (spread (spread [] (JObj [("name", JStr "Charlie")]))
              (JObj [("id", JStr "y")]))
         = Some (JStr "y"))
  /\ (exists doc t,
         findById sample_repository "users" "7" decimal_discord
         = (Resolved (Some doc), decimal_discord, t)
         /\ doc = [("id", JStr "7"); ("p", JNum (decimal 15 (-1)));
                   ("k", JArr [JNum (decimal 25 (-2)); JNum 2000])]
         /\ get_prop "id" doc = Some (JStr "7"))
  /\ (exists docs t doc,
         findAll 1 sample_repository "users" mixed_discord
         = (Resolved docs, mixed_discord, t)
         /\ In doc docs
         /\ doc = [("id", JStr "3"); ("name", JStr "Charlie")]
         /\ get_prop "id" doc = Some (JStr "3")).
Proof.
  destruct (@identifier_on_wire_and_read Ecma_JSON Ecma_JSON_lawful Discord
              Discord_js sample_repository
              "users" users mixed_discord mixed_discord []
              ltac:(vm_compute; reflexivity))
    as (Hinsert & Hupdate & _ & Hall).
  destruct (@identifier_on_wire_and_read Ecma_JSON Ecma_JSON_lawful Discord
              Discord_js sample_repository
              "users" users decimal_discord decimal_discord []
              ltac:(vm_compute; reflexivity))
    as (_ & _ & Hfind & _).
  split; [| split; [| split]].
  - exact (Hinsert payload_with_id).
  - destruct (Hupdate "3" (JObj [("id", JStr "y")])
                (JObj [("name", JStr "Charlie")]) charlie mixed_discord
                ltac:(vm_compute; reflexivity) ltac:(vm_compute; reflexivity))
      as [Hrun Hid].
    split; [exact Hrun | exact (Hid eq_refl)].
  - destruct (Hfind "7" priced decimal_discord
                (JObj [("p", JNum (decimal 15 (-1)));
                       ("k", JArr [JNum (decimal 25 (-2)); JNum 2000])])
                ltac:(vm_compute; reflexivity) ltac:(vm_compute; reflexivity))
      as (doc & t & Hrun & Hdoc & _ & Hid).
    exists doc, t. split; [exact Hrun | split].
    + rewrite Hdoc. vm_compute. reflexivity.
    + apply Hid. reflexivity.
  - destruct (Hall [mixed_messages] mixed_discord 1 charlie
                (JObj [("name", JStr "Charlie")])
                mixed_messages_served (le_n 1)
                ltac:(right; left; reflexivity)
                ltac:(vm_compute; reflexivity))
      as (docs & t & doc & Hrun & Hin & Hdoc & _ & Hid).
    exists docs, t, doc. split; [exact Hrun | split; [exact Hin | split]].
    + rewrite Hdoc. vm_compute. reflexivity.
    + apply Hid. reflexivity.
Defined.

(** ** Where the claims fail *)

(** C1, as stated, fails for a payload with a property [id] of its own:
    the document [findById] gives for the id [insert] returned has the
    payload's [id], not that id. *)
Lemma roundtrip_own_id_counterexample :
  wf_json payload_own_id = true
  /\ reads_back payload_own_id
  /\ insert sample_repository "users" payload_own_id (discord_with [] quiet)
     = (Resolved "1000", discord_holding payload_own_id,
        [ChannelSend users (JSON_stringify payload_own_id)])
  /\ findById sample_repository "users" "1000"
       (discord_holding payload_own_id)
     = (Resolved (Some [("id", JStr "user-7"); ("name", JStr "Ann")]),
        discord_holding payload_own_id, [MessagesFetchId users "1000"])
  /\ get_prop "id" [("id", JStr "user-7"); ("name", JStr "Ann")]
     <> Some (JStr "1000").
Proof.
  repeat split; try (vm_compute; reflexivity). discriminate.
Qed.

(** C2, as stated, fails: a payload with a property [id] of its own goes
    onto the wire with it, on [insert] as on [update], and the document read
    back carries the payload's [id], not the id of the message. *)
Lemma identifier_separation_counterexample :
  insert sample_repository "users" payload_with_id (discord_with [] quiet)
  = (Resolved "1000", discord_holding payload_with_id,
     [ChannelSend users (JSON_stringify payload_with_id)])
  /\ JSON_parse (JSON_stringify payload_with_id) = Some payload_with_id
  /\ has_prop "id" (own_props payload_with_id) = true
  /\ findById sample_repository "users" "1000"
       (discord_holding payload_with_id)
     = (Resolved (Some [("id", JStr "x"); ("a", JNum 1)]),
        discord_holding payload_with_id, [MessagesFetchId users "1000"])
  /\ get_prop "id" [("id", JStr "x"); ("a", JNum 1)] <> Some (JStr "1000")
  /\ update sample_repository "users" "1000" (JObj [("id", JStr "y")])
       (discord_holding payload_with_id)
     = (Resolved true,
        discord_holding (JObj [("id", JStr "y"); ("a", JNum 1)]),
        [MessagesFetchId users "1000";
         MessageEdit
           (mkMessage "1000" (JSON_stringify payload_with_id) "500")
           (JSON_stringify (JObj [("id", JStr "y"); ("a", JNum 1)]))]).
Proof.
  repeat split; try (vm_compute; reflexivity). discriminate.
Qed.

(** ** The further properties at sample data *)

Lemma creation_failure_propagates_witness :
  insert sample_repository "users" payload_ab closed_discord
  = (Thrown "Missing Permissions", closed_discord,
     [ChannelsCreate "guild" "users" GuildText])
  /\ findAll 3 sample_repository "users" closed_discord
     = (Thrown "Missing Permissions", closed_discord,
        [ChannelsCreate "guild" "users" GuildText])
  /\ findById sample_repository "users" "1" closed_discord
     = (Thrown "Missing Permissions", closed_discord,
        [ChannelsCreate "guild" "users" GuildText])
  /\ update sample_repository "users" "1" payload_ab closed_discord
     = (Thrown "Missing Permissions", closed_discord,
        [ChannelsCreate "guild" "users" GuildText])
  /\ delete sample_repository "users" "1" closed_discord
     = (Thrown "Missing Permissions", closed_discord,
        [ChannelsCreate "guild" "users" GuildText]).
Proof.
  apply (@creation_failure_propagates Ecma_JSON Discord Discord_js
           sample_repository
           "users" "1" payload_ab 3 closed_discord closed_discord "guild"
           "Missing Permissions").
  - vm_compute; reflexivity.
  - simpl. intros channel [<- | []] _ E. discriminate E.
  - vm_compute; reflexivity.
Defined.

Lemma guild_not_cached_witness :
  insert sample_repository "users" payload_ab lost_discord
  = (Thrown "Guild not found in cache", lost_discord, [])
  /\ findAll 3 sample_repository "users" lost_discord
     = (Thrown "Guild not found in cache", lost_discord, [])
  /\ findById sample_repository "users" "3" lost_discord
     = (Thrown "Guild not found in cache", lost_discord, [])
  /\ update sample_repository "users" "3" payload_ab lost_discord
     = (Thrown "Guild not found in cache", lost_discord, [])
  /\ delete sample_repository "users" "3" lost_discord
     = (Thrown "Guild not found in cache", lost_discord, []).
Proof.
  apply (@guild_not_cached Ecma_JSON Discord Discord_js
           sample_repository "users" "3"
           payload_ab 3 lost_discord).
  vm_compute; reflexivity.
Defined.

Lemma resolve_text_channel_only_witness :
  (exists channel,
      resolveCollectionChannel (discordClient sample_repository) "users"
        mixed_discord
      = (Resolved channel, mixed_discord, [])
      /\ In channel (channels_cache mixed_discord "guild")
      /\ name channel = "users" /\ type channel = GuildText)
  /\ resolveCollectionChannel (discordClient sample_repository) "users"
       voice_discord
     = (Resolved (mkChannel "1000" "users" GuildText),
        mkDiscord ["guild"]
          [("guild", voice_users);
           ("guild", mkChannel "1000" "users" GuildText)] [] 1001 quiet,
        [ChannelsCreate "guild" "users" GuildText]).
Proof.
  split.
  - apply (proj1 (@resolve_text_channel_only Discord Discord_js
                    sample_repository "users" mixed_discord "guild"
                    ltac:(vm_compute; reflexivity))).
    exists users. repeat split. left. reflexivity.
  - apply (proj2 (@resolve_text_channel_only Discord Discord_js
                    sample_repository "users" voice_discord "guild"
                    ltac:(vm_compute; reflexivity))).
    simpl. intros channel [<- | []] _ E. discriminate E.
Defined.

Lemma findAll_empty_witness :
  findAll 1 sample_repository "users" (discord_with [] quiet)
  = (Resolved [], discord_with [] quiet, [MessagesFetch users 100 None])
  /\ count_calls is_fetch [MessagesFetch users 100 None] = 1.
Proof.
  apply (@findAll_empty Ecma_JSON Discord Discord_js
           sample_repository "users" users
           (discord_with [] quiet) (discord_with [] quiet)
           (discord_with [] quiet) [] 1).
  - vm_compute; reflexivity.
  - vm_compute; reflexivity.
  - lia.
Defined.

Lemma findAll_fetch_failure_witness :
  exists t,
    findAll 3 sample_repository "users" flaky_discord
    = (Thrown "Missing Access", flaky_discord, t)
    /\ count_calls is_fetch t = 2.
Proof.
  apply (@findAll_fetch_failure Ecma_JSON Discord Discord_js
           sample_repository "users"
           users flaky_discord flaky_discord flaky_discord []
           [firstn 100 (numbered_messages 237)] "Missing Access" 3).
  - vm_compute; reflexivity.
  - apply fails_later with (w1 := flaky_discord).
    + vm_compute; reflexivity.
    + vm_compute; lia.
    + apply fails_now. vm_compute; reflexivity.
  - simpl; lia.
Defined.

Lemma findAll_needs_short_page_witness :
  exists w' t,
    @findAll Ecma_JSON Page Double_js 5 sample_repository "users"
      (numbered_messages 100)
    = (OutOfFuel, w', t)
    /\ count_calls is_fetch t = 5.
Proof.
  apply (@findAll_needs_short_page Ecma_JSON Page Double_js
           sample_repository "users"
           users (numbered_messages 100) (numbered_messages 100) []
           (fun page => 100 <= List.length page)).
  - vm_compute; reflexivity.
  - vm_compute; lia.
  - intros cursor page Hpage. exists page, page.
    split; [reflexivity | split; exact Hpage].
Defined.

Lemma update_edge_payloads_witness :
  (exists r w3,
      update sample_repository "users" "4" partial_b mixed_discord
      = (r, w3,
         [MessagesFetchId users "4";
          MessageEdit five (JSON_stringify partial_b)]))
  /\ (exists r w3,
         update sample_repository "users" "3" (JNum 7) mixed_discord
         = (r, w3,
            [MessagesFetchId users "3";
             MessageEdit charlie
               (JSON_stringify (JObj [("name", JStr "Charlie")]))]))
  /\ (exists r w3,
         update sample_repository "users" "6" (JObj []) decimal_discord
         = (r, w3,
            [MessagesFetchId users "6";
             MessageEdit large (json_text "{'n':12345678901234567000}")])).
Proof.
  split; [| split].
  - apply (proj1 (@update_edge_payloads Ecma_JSON Ecma_JSON_lawful Discord
                    Discord_js sample_repository
                    "users" "4" partial_b users mixed_discord mixed_discord
                    mixed_discord [] five
                    ltac:(vm_compute; reflexivity)
                    ltac:(vm_compute; reflexivity))
             (JNum 5));
      vm_compute; reflexivity.
  - apply (proj2 (@update_edge_payloads Ecma_JSON Ecma_JSON_lawful Discord
                    Discord_js sample_repository
                    "users" "3" (JNum 7) users mixed_discord mixed_discord
                    mixed_discord [] charlie
                    ltac:(vm_compute; reflexivity)
                    ltac:(vm_compute; reflexivity))
             [("name", JStr "Charlie")]);
      vm_compute; reflexivity.
  - destruct (proj2 (@update_edge_payloads Ecma_JSON Ecma_JSON_lawful Discord
                       Discord_js sample_repository
                       "users" "6" (JObj []) users decimal_discord
                       decimal_discord decimal_discord [] large
                       ltac:(vm_compute; reflexivity)
                       ltac:(vm_compute; reflexivity))
                [("n", JNum 12345678901234567890)]
                ltac:(vm_compute; reflexivity) eq_refl)
      as (r & w3 & Hrun).
    exists r, w3. rewrite Hrun. vm_compute. reflexivity.
Defined.

Lemma update_then_findById_witness :
  exists (before after : Document) (w0 : Discord) (t1 t2 : list Call),
    findById sample_repository "users" "1000" (discord_holding payload_ab)
    = (Resolved (Some before), w0, t1)
    /\ findById sample_repository "users" "1000"
         (discord_holding (JObj [("a", JNum 1); ("b", JNum 3)]))
       = (Resolved (Some after),
          discord_holding (JObj [("a", JNum 1); ("b", JNum 3)]), t2)
    /\ forall k, k <> "id" ->
         get_prop k after
         = match get_prop k (own_props partial_b) with
           | Some v => Some v
           | None => get_prop k before
           end.
Proof.
  apply (update_then_findById sample_repository "users" "1000" partial_b
           (discord_holding payload_ab)
           (discord_holding (JObj [("a", JNum 1); ("b", JNum 3)]))
           [MessagesFetchId users "1000";
            MessageEdit (mkMessage "1000" (JSON_stringify payload_ab) "500")
              (JSON_stringify (JObj [("a", JNum 1); ("b", JNum 3)]))]).
  - vm_compute; reflexivity.
  - vm_compute; reflexivity.
  - intros m E [<- | []] _ HE. vm_compute in HE. injection HE as <-.
    vm_compute. reflexivity.
Defined.

Lemma delete_then_gone_witness :
  exists channel,
    findById sample_repository "users" "3"
      (discord_with [five; corrupt; alice] quiet)
    = (Resolved None, discord_with [five; corrupt; alice] quiet,
       [MessagesFetchId channel "3"])
    /\ delete sample_repository "users" "3"
         (discord_with [five; corrupt; alice] quiet)
       = (Resolved false, discord_with [five; corrupt; alice] quiet,
          [MessagesFetchId channel "3"])
    /\ forall D,
         update sample_repository "users" "3" D
           (discord_with [five; corrupt; alice] quiet)
         = (Resolved false, discord_with [five; corrupt; alice] quiet,
            [MessagesFetchId channel "3"]).
Proof.
  apply (delete_then_gone sample_repository "users" "3" mixed_discord
           (discord_with [five; corrupt; alice] quiet)
           [MessagesFetchId users "3"; MessageDelete charlie]).
  vm_compute; reflexivity.
Defined.

Lemma channel_created_once_witness :
  exists channel t0,
    [ChannelsCreate "guild" "users" GuildText;
     ChannelSend (mkChannel "1000" "users" GuildText)
       (JSON_stringify payload_ab)]
    = (t0 ++ [ChannelSend channel (JSON_stringify payload_ab)])%list
    /\ resolveCollectionChannel (discordClient sample_repository) "users"
         (mkDiscord ["guild"]
            [("guild", voice_users);
             ("guild", mkChannel "1000" "users" GuildText)]
            [mkMessage "1001" (JSON_stringify payload_ab) "1000"] 1002 quiet)
       = (Resolved channel,
          mkDiscord ["guild"]
            [("guild", voice_users);
             ("guild", mkChannel "1000" "users" GuildText)]
            [mkMessage "1001" (JSON_stringify payload_ab) "1000"] 1002 quiet,
          [])
    /\ forall Q,
         exists r w2,
           insert sample_repository "users" Q
             (mkDiscord ["guild"]
                [("guild", voice_users);
                 ("guild", mkChannel "1000" "users" GuildText)]
                [mkMessage "1001" (JSON_stringify payload_ab) "1000"] 1002
                quiet)
           = (r, w2, [ChannelSend channel (JSON_stringify Q)]).
Proof.
  apply (channel_created_once sample_repository "users" payload_ab
           voice_discord
           (mkDiscord ["guild"]
              [("guild", voice_users);
               ("guild", mkChannel "1000" "users" GuildText)]
              [mkMessage "1001" (JSON_stringify payload_ab) "1000"] 1002
              quiet)
           "1001").
  vm_compute; reflexivity.
Defined.

Lemma update_idempotent_witness :
  exists t2,
    update sample_repository "users" "1000" partial_b
      (discord_holding (JObj [("a", JNum 1); ("b", JNum 3)]))
    = (Resolved true,
       discord_holding (JObj [("a", JNum 1); ("b", JNum 3)]), t2).
Proof.
  apply (update_idempotent sample_repository "users" "1000" partial_b
           (discord_holding payload_ab)
           (discord_holding (JObj [("a", JNum 1); ("b", JNum 3)]))
           [MessagesFetchId users "1000";
            MessageEdit (mkMessage "1000" (JSON_stringify payload_ab) "500")
              (JSON_stringify (JObj [("a", JNum 1); ("b", JNum 3)]))]).
  - vm_compute; reflexivity.
  - vm_compute; reflexivity.
  - intros m E [<- | []] _ HE. vm_compute in HE. injection HE as <-.
    vm_compute. reflexivity.
  - intros c _. reflexivity.
Defined.

Lemma findById_agrees_with_findAll_witness :
  exists docs t,
    findAll 1 sample_repository "users" mixed_discord
    = (Resolved docs, mixed_discord, t)
    /\ (forall m,
           In m (history mixed_discord users) ->
           findById sample_repository "users" (id m) mixed_discord
           = (Resolved (document_of m), mixed_discord,
              [MessagesFetchId users (id m)])
           /\ (forall d, document_of m = Some d -> In d docs))
    /\ (forall d,
           In d docs ->
           exists m,
             In m (history mixed_discord users) /\ document_of m = Some d).
Proof.
  apply (findById_agrees_with_findAll sample_repository "users" users
           mixed_discord mixed_discord [] 1).
  - vm_compute; reflexivity.
  - intros c _. reflexivity.
  - vm_compute; reflexivity.
  - vm_compute; lia.
Defined.

Lemma findAll_fetch_count_witness :
  exists docs t,
    findAll 3 sample_repository "users" paged_discord
    = (Resolved docs, paged_discord, t)
    /\ count_calls is_fetch t
       = List.length (history paged_discord users) / 100 + 1.
Proof.
  apply (findAll_fetch_count sample_repository "users" users paged_discord
           paged_discord [] 3).
  - vm_compute; reflexivity.
  - intros c _. reflexivity.
  - vm_compute; reflexivity.
  - vm_compute; lia.
Defined.

Lemma insert_then_findAll_witness :
  exists docs wr t1 t2,
    findAll 1 sample_repository "users" mixed_discord
    = (Resolved docs, wr, t1)
    /\ findAll 2 sample_repository "users"
         (mkDiscord ["guild"] [("guild", users)]
            (mkMessage "1000" (JSON_stringify payload_ab) "500"
               :: mixed_messages) 1001 quiet)
       = (Resolved (spread [("id", JStr "1000")] payload_ab :: docs),
          mkDiscord ["guild"] [("guild", users)]
            (mkMessage "1000" (JSON_stringify payload_ab) "500"
               :: mixed_messages) 1001 quiet, t2).
Proof.
  apply (insert_then_findAll sample_repository "users" payload_ab
           mixed_discord
           (mkDiscord ["guild"] [("guild", users)]
              (mkMessage "1000" (JSON_stringify payload_ab) "500"
                 :: mixed_messages) 1001 quiet)
           "1000" [ChannelSend users (JSON_stringify payload_ab)] 1).
  - vm_compute; reflexivity.
  - vm_compute; reflexivity.
  - vm_compute; reflexivity.
  - intros c _. reflexivity.
  - vm_compute; lia.
Defined.

Lemma delete_then_findAll_witness :
  exists channel wr t0 before m after t1 t2,
    resolveCollectionChannel (discordClient sample_repository) "users"
      mixed_discord
    = (Resolved channel, wr, t0)
    /\ id m = "3"
    /\ history wr channel = (before ++ m :: after)%list
    /\ findAll 1 sample_repository "users" mixed_discord
       = (Resolved (documents_of (before ++ m :: after)), wr, t1)
    /\ findAll 1 sample_repository "users"
         (discord_with [five; corrupt; alice] quiet)
       = (Resolved (documents_of (before ++ after)),
          discord_with [five; corrupt; alice] quiet, t2).
Proof.
  apply (delete_then_findAll sample_repository "users" "3" mixed_discord
           (discord_with [five; corrupt; alice] quiet)
           [MessagesFetchId users "3"; MessageDelete charlie] 1).
  - vm_compute; reflexivity.
  - vm_compute; reflexivity.
  - intros c _. reflexivity.
  - vm_compute; lia.
Defined.

Lemma insert_send_failure_witness :
  insert sample_repository "users" payload_ab (discord_with [] is_send)
  = (Thrown "Missing Access", discord_with [] is_send,
     [ChannelSend users (JSON_stringify payload_ab)])
  /\ count_calls is_send [ChannelSend users (JSON_stringify payload_ab)] = 1.
Proof.
  apply (@insert_send_failure Ecma_JSON Discord Discord_js
           sample_repository "users"
           payload_ab users (discord_with [] is_send)
           (discord_with [] is_send) (discord_with [] is_send) []
           "Missing Access").
  - vm_compute; reflexivity.
  - vm_compute; reflexivity.
Defined.
